(** * ui-components: the mediator, the component lifecycle and the widgets

    A shallow embedding of [src/js/ui.js].  The file holds two revisions of
    the toolkit: the original one and the hardened one (wrapped around the
    Rollbar error collector).  They share the mediator [uiSubscriber] and
    differ in [initComponent], in the payload built by [login] and in the
    banner.  The embedding is parameterised by a [variant] wherever the two
    revisions differ.

    JavaScript objects are mutable and shared, so component objects live in
    a heap indexed by references, DOM elements live in a store of their own,
    and every function of the source is a computation over one [state] that
    either returns normally or throws. *)

From Stdlib Require Import ZArith List Bool Lia.
From Stdlib Require Import Floats.SpecFloat.
From stdpp Require Import base tactics option list strings functions.
From stdpp Require Import sorting.

Local Open Scope string_scope.
Local Open Scope list_scope.
Local Open Scope Z_scope.

(** ** JavaScript values *)

Module JS.

(** Primitive values that travel in payloads and in the fetched JSON. *)
Inductive prim :=
| PUndefined
| PNull
| PBool (b : bool)
| PStr (s : string).

(** A datum is a primitive or an object with primitive fields, each name
    once. *)
Inductive data :=
| DPrim (p : prim)
| DObj (fields : list (string * prim)).

Inductive exn :=
| TypeError
| SyntaxError
| NetworkError
| ThrownString (msg : string).

#[global] Instance prim_eq_dec : EqDecision prim.
Proof. solve_decision. Defined.
#[global] Instance data_eq_dec : EqDecision data.
Proof. solve_decision. Defined.
#[global] Instance exn_eq_dec : EqDecision exn.
Proof. solve_decision. Defined.

(** [ToBoolean]. *)
Definition truthy (p : prim) : bool :=
  match p with
  | PUndefined | PNull => false
  | PBool b => b
  | PStr s => negb (String.eqb s "")
  end.

(** [ToString], as used by ['Hello ' + x]. *)
Definition to_string (p : prim) : string :=
  match p with
  | PUndefined => "undefined"
  | PNull => "null"
  | PBool true => "true"
  | PBool false => "false"
  | PStr s => s
  end.

(** Conversion of a value assigned to a nullable DOMString attribute such
    as [textContent]: [null] and [undefined] both give the empty string. *)
Definition to_dom_string (p : prim) : string :=
  match p with
  | PUndefined | PNull => ""
  | _ => to_string p
  end.

Fixpoint lookup_field (name : string) (fs : list (string * prim)) : prim :=
  match fs with
  | [] => PUndefined
  | (n, p) :: fs' => if String.eqb n name then p else lookup_field name fs'
  end.

(** [d.name]: a TypeError on [undefined] and [null], [undefined] for a
    field the object lacks (none of the field names used by the program
    is a property of a boolean or of a string). *)
Definition get_field (d : data) (name : string) : exn + prim :=
  match d with
  | DPrim PUndefined | DPrim PNull => inl TypeError
  | DPrim _ => inr PUndefined
  | DObj fs => inr (lookup_field name fs)
  end.

End JS.
Export JS.

(** ** DOM elements

    An element is the three attributes the program reads and writes.  The
    elements the components bind are taken not to contain one another, so
    the text of one is no part of the text of another. *)

Module Dom.

Record element := mkElement {
  classList : list string;
  textContent : string;
  value : string
}.

(** [classList.add(t)]: a token list holds each token once. *)
Definition classList_add (t : string) (e : element) : element :=
  {| classList := if bool_decide (t ∈ classList e) then classList e
                  else classList e ++ [t];
     textContent := textContent e;
     value := value e |}.

(** [classList.remove(t)]. *)
Definition classList_remove (t : string) (e : element) : element :=
  {| classList := filter (λ x, x ≠ t) (classList e);
     textContent := textContent e;
     value := value e |}.

(** [e.textContent = s]. *)
Definition set_textContent (s : string) (e : element) : element :=
  {| classList := classList e; textContent := s; value := value e |}.

Definition hidden (e : element) : Prop := "d-none" ∈ classList e.

End Dom.
Export Dom.

(** ** Component objects *)

Definition cref := nat.   (* identity of a component object *)
Definition eref := nat.   (* identity of a DOM element *)

Inductive variant := Original | Hardened.

(** Which role object was mixed into the component by [Object.assign]; it
    fixes the [init] and [listen] methods the component answers to. *)
Inductive role := RBase | RNav | RLogin | RBanner.

(** What [init] may receive: [document.querySelector] gives an element or
    [null], the factory passes [undefined] for an unknown role name. *)
Inductive anchor := ANull | AUndefined | AElem (e : eref).

Inductive notifier := UiSubscriber.

(** A property key of [uiSubscriber.components]: the string of a
    [componentId], which is a number ([Some n]) or [null] ([None]). *)
Definition key := option Z.

Record component := mkComponent {
  comp_role : role;
  componentId : option Z;                 (* null or a number *)
  elem : anchor;
  componentNotifier : option notifier;    (* null or uiSubscriber *)
  formElem : option eref;
  welcomeElem : option eref;
  loginLinkElem : option eref;
  headlineElem : option eref;
  contentElem : option eref;
  btnElem : option eref
}.

(** [Object.create(uiComponent)] followed by [Object.assign] of a role. *)
Definition new_component (r : role) : component :=
  {| comp_role := r; componentId := None; elem := ANull;
     componentNotifier := None; formElem := None; welcomeElem := None;
     loginLinkElem := None; headlineElem := None; contentElem := None;
     btnElem := None |}.

(** A slot of [components]: a component, or [undefined] once cleared. *)
Inductive slot := Cleared | Holds (c : cref).

#[global] Instance slot_eq_dec : EqDecision slot.
Proof. solve_decision. Defined.
#[global] Instance role_eq_dec : EqDecision role.
Proof. solve_decision. Defined.
#[global] Instance anchor_eq_dec : EqDecision anchor.
Proof. solve_decision. Defined.

(** ** Own properties of [uiSubscriber.components]

    The object is kept as the list of its own properties in the order
    [Object.keys] reports them: integer-index keys ascending, then the
    other keys in the order they were created. *)

Module Obj.

Definition t := list (key * slot).

Definition is_index (k : key) : bool :=
  match k with
  | Some z => (0 <=? z) && (z <? 4294967295)
  | None => false
  end.

Definition index_ltb (k k' : key) : bool :=
  match k, k' with
  | Some z, Some z' => z <? z'
  | _, _ => false
  end.

(** [o[k]] on an own property; [None] when [o] has no such property. *)
Fixpoint get (k : key) (o : t) : option slot :=
  match o with
  | [] => None
  | (k', v) :: o' => if decide (k = k') then Some v else get k o'
  end.

(** Assignment to an existing property keeps its place. *)
Fixpoint update (k : key) (v : slot) (o : t) : t :=
  match o with
  | [] => []
  | (k', v') :: o' =>
      if decide (k = k') then (k, v) :: o' else (k', v') :: update k v o'
  end.

(** A new property: an index key goes before the first larger index key
    or the first non-index key, any other key goes last. *)
Fixpoint add (k : key) (v : slot) (o : t) : t :=
  match o with
  | [] => [(k, v)]
  | (k', v') :: o' =>
      if is_index k && (negb (is_index k') || index_ltb k k')
      then (k, v) :: o
      else (k', v') :: add k v o'
  end.

(** [o[k] = v]. *)
Definition set (k : key) (v : slot) (o : t) : t :=
  match get k o with
  | Some _ => update k v o
  | None => add k v o
  end.

(** [Object.keys(o)]. *)
Definition keys (o : t) : list key := map fst o.

(** The value read by [o[k]]: [undefined] for a missing property. *)
Definition read (k : key) (o : t) : slot :=
  match get k o with
  | Some v => v
  | None => Cleared
  end.

End Obj.

(** ** The state of the page *)

(** The second argument of [Rollbar.error], [e.message]: [undefined] when
    [e] is a thrown string, the message of [e] when it is an error object. *)
Inductive message := MsgUndefined | MsgOf (e : exn).

Definition exn_message (e : exn) : message :=
  match e with
  | ThrownString _ => MsgUndefined
  | _ => MsgOf e
  end.

Inductive handler :=
| OnSubmit (c : cref)          (* the login form's submit listener *)
| OnLogoutClick (c : cref)     (* the logout link's click listener *)
| OnLearnMoreClick (c : cref). (* the banner's learn-more listener *)

(** The page: the registry, the component objects, the DOM, and four logs
    (what was written to the console and to the error collector, which
    broadcasts were made and which handlers were called). *)
Record state := mkState {
  components : Obj.t;                          (* uiSubscriber.components *)
  heap : cref → component;                     (* component objects *)
  dom : eref → element;                        (* DOM elements *)
  listeners : list (eref * string * handler);  (* addEventListener calls *)
  console : list (string * data);              (* console.log calls *)
  rollbar : list (string * message);           (* Rollbar.error calls *)
  broadcasts : list (option Z * data);         (* calls of broadcast *)
  invoked : list (cref * data);                (* calls of component.listen *)
  next_ref : cref                              (* next fresh object *)
}.

(** The static shape of the document: what [querySelector] finds. *)
Record document := mkDocument {
  doc_query : string → option eref;            (* document.querySelector *)
  elem_query : eref → string → option eref     (* element.querySelector *)
}.

(** ** Computations: a state and exception monad *)

Inductive outcome (A : Type) :=
| Normal (a : A)
| Throw (e : exn).
Arguments Normal {_} _.
Arguments Throw {_} _.

Definition M (A : Type) : Type := state → outcome A * state.

Definition ret {A} (a : A) : M A := λ s, (Normal a, s).

Definition bind {A B} (m : M A) (k : A → M B) : M B :=
  λ s, match m s with
       | (Normal a, s') => k a s'
       | (Throw e, s') => (Throw e, s')
       end.

Definition throw {A} (e : exn) : M A := λ s, (Throw e, s).

Definition gets {A} (f : state → A) : M A := λ s, (Normal (f s), s).

Definition modify (f : state → state) : M unit := λ s, (Normal tt, f s).

Notation "x <~ m ; k" := (bind m (λ x, k))
  (at level 100, m at next level, right associativity).
Notation "m ;~ k" := (bind m (λ _, k))
  (at level 100, right associativity).

(** [try { m } catch (e) { h e }]. *)
Definition try_catch {A} (m : M A) (h : exn → M A) : M A :=
  λ s, match m s with
       | (Normal a, s') => (Normal a, s')
       | (Throw e, s') => h e s'
       end.

(** Dereference of a possibly null reference before a property access. *)
Definition deref {A} (o : option A) : M A :=
  match o with
  | Some a => ret a
  | None => throw TypeError
  end.

Definition set_components (o : Obj.t) (s : state) : state :=
  {| components := o; heap := heap s; dom := dom s;
     listeners := listeners s; console := console s; rollbar := rollbar s;
     broadcasts := broadcasts s; invoked := invoked s;
     next_ref := next_ref s |}.

Definition set_heap (h : cref → component) (s : state) : state :=
  {| components := components s; heap := h; dom := dom s;
     listeners := listeners s; console := console s; rollbar := rollbar s;
     broadcasts := broadcasts s; invoked := invoked s;
     next_ref := next_ref s |}.

Definition set_dom (d : eref → element) (s : state) : state :=
  {| components := components s; heap := heap s; dom := d;
     listeners := listeners s; console := console s; rollbar := rollbar s;
     broadcasts := broadcasts s; invoked := invoked s;
     next_ref := next_ref s |}.

Definition add_listener (l : eref * string * handler) (s : state) : state :=
  {| components := components s; heap := heap s; dom := dom s;
     listeners := listeners s ++ [l]; console := console s;
     rollbar := rollbar s; broadcasts := broadcasts s;
     invoked := invoked s; next_ref := next_ref s |}.

Definition add_console (l : string * data) (s : state) : state :=
  {| components := components s; heap := heap s; dom := dom s;
     listeners := listeners s; console := console s ++ [l];
     rollbar := rollbar s; broadcasts := broadcasts s;
     invoked := invoked s; next_ref := next_ref s |}.

Definition add_rollbar (l : string * message) (s : state) : state :=
  {| components := components s; heap := heap s; dom := dom s;
     listeners := listeners s; console := console s;
     rollbar := rollbar s ++ [l]; broadcasts := broadcasts s;
     invoked := invoked s; next_ref := next_ref s |}.

Definition add_broadcast (l : option Z * data) (s : state) : state :=
  {| components := components s; heap := heap s; dom := dom s;
     listeners := listeners s; console := console s; rollbar := rollbar s;
     broadcasts := broadcasts s ++ [l]; invoked := invoked s;
     next_ref := next_ref s |}.

Definition add_invoked (l : cref * data) (s : state) : state :=
  {| components := components s; heap := heap s; dom := dom s;
     listeners := listeners s; console := console s; rollbar := rollbar s;
     broadcasts := broadcasts s; invoked := invoked s ++ [l];
     next_ref := next_ref s |}.

Definition bump_next_ref (s : state) : state :=
  {| components := components s; heap := heap s; dom := dom s;
     listeners := listeners s; console := console s; rollbar := rollbar s;
     broadcasts := broadcasts s; invoked := invoked s;
     next_ref := S (next_ref s) |}.

(** An update of one DOM element. *)
Definition update_elem (e : eref) (f : element → element) : M unit :=
  modify (λ s, set_dom (<[e := f (dom s e)]> (dom s)) s).

(** An update of one component object. *)
Definition update_comp (c : cref) (f : component → component) : M unit :=
  modify (λ s, set_heap (<[c := f (heap s c)]> (heap s)) s).

(** [this.f] on the component object [c]. *)
Definition field {A} (c : cref) (f : component → A) : M A :=
  gets (λ s, f (heap s c)).

(** [o.classList.add(t)], [o.classList.remove(t)] and [o.textContent = v]
    on a reference that may be null. *)
Definition classList_add_at (o : option eref) (t : string) : M unit :=
  e <~ deref o; update_elem e (classList_add t).

Definition classList_remove_at (o : option eref) (t : string) : M unit :=
  e <~ deref o; update_elem e (classList_remove t).

Definition set_textContent_at (o : option eref) (v : string) : M unit :=
  e <~ deref o; update_elem e (set_textContent v).

(** [d.name] inside a computation. *)
Definition prop (d : data) (name : string) : M prim :=
  match get_field d name with
  | inl e => throw e
  | inr p => ret p
  end.

(** ** The notification handlers *)

(** [uiComponent.listen]. *)
Definition uiComponent_listen (c : cref) (d : data) : M unit :=
  modify (add_console ("Notification fired: ", d)).

(** [loginComponent.logout]. *)
Definition loginComponent_logout (c : cref) : M unit :=
  w <~ field c welcomeElem;
  classList_add_at w "d-none";~
  w <~ field c welcomeElem;
  set_textContent_at w "";~
  f <~ field c formElem;
  classList_remove_at f "d-none".

(** [loginComponent.listen]. *)
Definition loginComponent_listen (c : cref) (d : data) : M unit :=
  p <~ prop d "loggingOut";
  if truthy p then loginComponent_logout c else ret tt.

(** [navComponent.showLogoutLink] and [navComponent.hideLogoutLink]. *)
Definition navComponent_showLogoutLink (c : cref) : M unit :=
  l <~ field c loginLinkElem;
  classList_remove_at l "d-none".

Definition navComponent_hideLogoutLink (c : cref) : M unit :=
  l <~ field c loginLinkElem;
  classList_add_at l "d-none".

(** [navComponent.listen]. *)
Definition navComponent_listen (c : cref) (d : data) : M unit :=
  p <~ prop d "loggedIn";
  if truthy p then navComponent_showLogoutLink c else ret tt.

(** [bannerComponent.listen] (the original names the field [headline]). *)
Definition bannerComponent_listen (c : cref) (d : data) : M unit :=
  h <~ field c headlineElem;
  p <~ prop d "username";
  set_textContent_at h
    (if truthy p then "Hello " +:+ to_string p else "Hello world!").

(** [component.listen(data)]: the method the role gave the object. *)
Definition listen (c : cref) (d : data) : M unit :=
  r <~ field c comp_role;
  match r with
  | RBase => uiComponent_listen c d
  | RLogin => loginComponent_listen c d
  | RNav => navComponent_listen c d
  | RBanner => bannerComponent_listen c d
  end.

(** ** The mediator [uiSubscriber] *)

(** One turn of the [while (len--)] loop of [broadcast], for [keys[len]]. *)
Definition broadcast_step (componentId0 : option Z) (d : data) (k : key)
  : M unit :=
  sl <~ gets (λ s, Obj.read k (components s));
  match sl with
  | Cleared => throw TypeError          (* undefined.componentId *)
  | Holds c =>
      cid <~ field c componentId;
      if decide (componentId0 ≠ cid)
      then modify (add_invoked (c, d));~ listen c d
      else ret tt
  end.

Fixpoint broadcast_loop (componentId0 : option Z) (d : data) (ks : list key)
  : M unit :=
  match ks with
  | [] => ret tt
  | k :: ks' =>
      broadcast_step componentId0 d k;~ broadcast_loop componentId0 d ks'
  end.

(** [uiSubscriber.broadcast]: the keys are taken once, then visited from
    the last to the first. *)
Definition uiSubscriber_broadcast (componentId0 : option Z) (d : data)
  : M unit :=
  modify (add_broadcast (componentId0, d));~
  ks <~ gets (λ s, Obj.keys (components s));
  broadcast_loop componentId0 d (reverse ks).

(** [uiSubscriber.subscribe]: a cleared slot is falsy, as a missing one. *)
Definition uiSubscriber_subscribe (c : cref) : M unit :=
  cid <~ field c componentId;
  sl <~ gets (λ s, Obj.read cid (components s));
  match sl with
  | Cleared =>
      modify (λ s, set_components (Obj.set cid (Holds c) (components s)) s)
  | Holds _ => ret tt
  end.

(** [uiSubscriber.unsubscribe]: the slot is overwritten with [undefined],
    the property stays. *)
Definition uiSubscriber_unsubscribe (c : cref) : M unit :=
  cid <~ field c componentId;
  sl <~ gets (λ s, Obj.read cid (components s));
  match sl with
  | Cleared => ret tt
  | Holds _ =>
      modify (λ s, set_components (Obj.set cid Cleared (components s)) s)
  end.

(** ** Assignments to the fields of a component object *)

Definition set_componentId (v : option Z) (c : component) : component :=
  {| comp_role := comp_role c; componentId := v; elem := elem c;
     componentNotifier := componentNotifier c; formElem := formElem c;
     welcomeElem := welcomeElem c; loginLinkElem := loginLinkElem c;
     headlineElem := headlineElem c; contentElem := contentElem c;
     btnElem := btnElem c |}.

Definition set_elem (v : anchor) (c : component) : component :=
  {| comp_role := comp_role c; componentId := componentId c; elem := v;
     componentNotifier := componentNotifier c; formElem := formElem c;
     welcomeElem := welcomeElem c; loginLinkElem := loginLinkElem c;
     headlineElem := headlineElem c; contentElem := contentElem c;
     btnElem := btnElem c |}.

Definition set_componentNotifier (v : option notifier) (c : component)
  : component :=
  {| comp_role := comp_role c; componentId := componentId c;
     elem := elem c; componentNotifier := v; formElem := formElem c;
     welcomeElem := welcomeElem c; loginLinkElem := loginLinkElem c;
     headlineElem := headlineElem c; contentElem := contentElem c;
     btnElem := btnElem c |}.

Definition set_formElem (v : option eref) (c : component) : component :=
  {| comp_role := comp_role c; componentId := componentId c;
     elem := elem c; componentNotifier := componentNotifier c;
     formElem := v; welcomeElem := welcomeElem c;
     loginLinkElem := loginLinkElem c; headlineElem := headlineElem c;
     contentElem := contentElem c; btnElem := btnElem c |}.

Definition set_welcomeElem (v : option eref) (c : component) : component :=
  {| comp_role := comp_role c; componentId := componentId c;
     elem := elem c; componentNotifier := componentNotifier c;
     formElem := formElem c; welcomeElem := v;
     loginLinkElem := loginLinkElem c; headlineElem := headlineElem c;
     contentElem := contentElem c; btnElem := btnElem c |}.

Definition set_loginLinkElem (v : option eref) (c : component) : component :=
  {| comp_role := comp_role c; componentId := componentId c;
     elem := elem c; componentNotifier := componentNotifier c;
     formElem := formElem c; welcomeElem := welcomeElem c;
     loginLinkElem := v; headlineElem := headlineElem c;
     contentElem := contentElem c; btnElem := btnElem c |}.

Definition set_headlineElem (v : option eref) (c : component) : component :=
  {| comp_role := comp_role c; componentId := componentId c;
     elem := elem c; componentNotifier := componentNotifier c;
     formElem := formElem c; welcomeElem := welcomeElem c;
     loginLinkElem := loginLinkElem c; headlineElem := v;
     contentElem := contentElem c; btnElem := btnElem c |}.

Definition set_contentElem (v : option eref) (c : component) : component :=
  {| comp_role := comp_role c; componentId := componentId c;
     elem := elem c; componentNotifier := componentNotifier c;
     formElem := formElem c; welcomeElem := welcomeElem c;
     loginLinkElem := loginLinkElem c; headlineElem := headlineElem c;
     contentElem := v; btnElem := btnElem c |}.

Definition set_btnElem (v : option eref) (c : component) : component :=
  {| comp_role := comp_role c; componentId := componentId c;
     elem := elem c; componentNotifier := componentNotifier c;
     formElem := formElem c; welcomeElem := welcomeElem c;
     loginLinkElem := loginLinkElem c; headlineElem := headlineElem c;
     contentElem := contentElem c; btnElem := v |}.

(** ** Identifiers: [Math.floor(Math.random() * (9999 - 1000 + 1)) + 1000]

    Numbers are IEEE 754 binary64 values; the product is the correctly
    rounded one of the standard library's specification of floats. *)

Module Num.

Definition prec : Z := 53.
Definition emax : Z := 1024.

(** The double 9000 (the constant [9999 - 1000 + 1]): 1125 * 2^42 * 2^-39. *)
Definition nine_thousand : spec_float :=
  S754_finite false 4947802324992000 (-39).

Definition one : spec_float := S754_finite false 4503599627370496 (-52).

(** What [Math.random()] may return: a double [r] with [0 <= r < 1]. *)
Definition unit_double (r : spec_float) : bool :=
  valid_binary prec emax r
  && SFleb (S754_zero false) r
  && SFltb r one.

(** [Math.floor] of a finite double, as the integer it denotes.  (Of an
    infinity or a NaN the floor is no integer; [0] stands there, and
    no value of [Math.random] leads to that case.) *)
Definition Math_floor (x : spec_float) : Z :=
  match x with
  | S754_finite s m e =>
      let v := if s then Z.neg m else Z.pos m in
      if 0 <=? e then v * 2 ^ e else v / 2 ^ (- e)
  | _ => 0
  end.

(** The identifier drawn from the random double [r]; adding 1000 to an
    integer of this size is exact in binary64. *)
Definition random_id (r : spec_float) : Z :=
  Math_floor (SFmul prec emax r nine_thousand) + 1000.

End Num.

(** ** The component lifecycle *)

Section Lifecycle.

Variable doc : document.

(** [a.querySelector(sel)] on the anchor held by a component. *)
Definition query (a : anchor) (sel : string) : M (option eref) :=
  match a with
  | AElem e => ret (elem_query doc e sel)
  | _ => throw TypeError
  end.

(** [o.addEventListener(ev, h)]. *)
Definition addEventListener (o : option eref) (ev : string) (h : handler)
  : M unit :=
  e <~ deref o; modify (add_listener (e, ev, h)).

(** The four statements [initComponent] runs once the anchor is accepted;
    [r] is the value [Math.random()] returns. *)
Definition register (c : cref) (el : anchor) (r : spec_float) : M unit :=
  update_comp c (set_elem el);~
  update_comp c (set_componentId (Some (Num.random_id r)));~
  update_comp c (set_componentNotifier (Some UiSubscriber));~
  n <~ field c componentNotifier;
  deref n;~
  uiSubscriber_subscribe c.

(** [!elem]. *)
Definition absent (el : anchor) : bool :=
  match el with
  | AElem _ => false
  | _ => true
  end.

(** [uiComponent.initComponent]. *)
Definition uiComponent_initComponent (v : variant) (c : cref) (el : anchor)
    (r : spec_float) : M unit :=
  match v with
  | Original => register c el r
  | Hardened =>
      try_catch
        (if absent el
         then throw (ThrownString "Component element cannot be null.")
         else register c el r)
        (λ e, modify (add_rollbar
                        ("Error uiComponents.initComponent: ",
                         exn_message e)))
  end.

(** [uiComponent.init]. *)
Definition uiComponent_init (v : variant) (c : cref) (el : anchor)
    (r : spec_float) : M unit :=
  uiComponent_initComponent v c el r.

(** [loginComponent.init]. *)
Definition loginComponent_init (v : variant) (c : cref) (el : anchor)
    (r : spec_float) : M unit :=
  uiComponent_initComponent v c el r;~
  a <~ field c elem;
  f <~ query a "form";
  update_comp c (set_formElem f);~
  a <~ field c elem;
  w <~ query a "#welcome";
  update_comp c (set_welcomeElem w);~
  f <~ field c formElem;
  addEventListener f "submit" (OnSubmit c).

(** [navComponent.init]. *)
Definition navComponent_init (v : variant) (c : cref) (el : anchor)
    (r : spec_float) : M unit :=
  uiComponent_initComponent v c el r;~
  a <~ field c elem;
  l <~ query a "#logout-link";
  update_comp c (set_loginLinkElem l);~
  l <~ field c loginLinkElem;
  addEventListener l "click" (OnLogoutClick c).

(** [bannerComponent.init]; only the hardened banner has a content
    region and a learn-more button. *)
Definition bannerComponent_init (v : variant) (c : cref) (el : anchor)
    (r : spec_float) : M unit :=
  uiComponent_initComponent v c el r;~
  a <~ field c elem;
  h <~ query a "h1";
  update_comp c (set_headlineElem h);~
  match v with
  | Original => ret tt
  | Hardened =>
      a <~ field c elem;
      ct <~ query a "#content";
      update_comp c (set_contentElem ct);~
      a <~ field c elem;
      b <~ query a "#learn-more";
      update_comp c (set_btnElem b);~
      b <~ field c btnElem;
      addEventListener b "click" (OnLearnMoreClick c)
  end.

(** [component.init(elem)]: the method the role gave the object. *)
Definition init (v : variant) (c : cref) (el : anchor) (r : spec_float)
  : M unit :=
  ro <~ field c comp_role;
  match ro with
  | RBase => uiComponent_init v c el r
  | RLogin => loginComponent_init v c el r
  | RNav => navComponent_init v c el r
  | RBanner => bannerComponent_init v c el r
  end.

(** The payload [login] broadcasts: the original revision names a fixed
    user, the hardened one the user who logged in. *)
Definition login_payload (v : variant) (username : string) : data :=
  DObj [("username", PStr match v with
                          | Original => "Zakir"
                          | Hardened => username
                          end);
        ("loggedIn", PBool true)].

(** [loginComponent.login], the body of the form's submit listener. *)
Definition loginComponent_login (v : variant) (c : cref) : M unit :=
  a <~ field c elem;
  u <~ query a "#username";
  e <~ deref u;
  username <~ gets (λ s, value (dom s e));
  if negb (String.eqb username "")
  then
    n <~ field c componentNotifier;
    deref n;~
    cid <~ field c componentId;
    uiSubscriber_broadcast cid (login_payload v username);~
    w <~ field c welcomeElem;
    classList_remove_at w "d-none";~
    w <~ field c welcomeElem;
    set_textContent_at w ("Welcome " +:+ username);~
    f <~ field c formElem;
    classList_add_at f "d-none"
  else ret tt.

(** The payload of a logout, [{ loggingOut: true }]. *)
Definition logout_payload : data := DObj [("loggingOut", PBool true)].

(** The click listener [navComponent.init] puts on the logout link. *)
Definition navComponent_onClick (c : cref) : M unit :=
  n <~ field c componentNotifier;
  deref n;~
  cid <~ field c componentId;
  uiSubscriber_broadcast cid logout_payload;~
  navComponent_hideLogoutLink c.

(** [createUIComponent(compName)]: [r] is the random double its [init]
    will draw. *)
Definition role_of_name (compName : string) : role * anchor :=
  if String.eqb compName "nav" then
    (RNav, from_option AElem ANull (doc_query doc "#main-nav"))
  else if String.eqb compName "login" then
    (RLogin, from_option AElem ANull (doc_query doc "#login-box"))
  else if String.eqb compName "banner" then
    (RBanner, from_option AElem ANull (doc_query doc "#banner"))
  else (RBase, AUndefined).

Definition createUIComponent (v : variant) (compName : string)
    (r : spec_float) : M cref :=
  c <~ gets next_ref;
  modify bump_next_ref;~
  update_comp c (λ _, new_component (fst (role_of_name compName)));~
  init v c (snd (role_of_name compName)) r;~
  ret c.

End Lifecycle.

(** ** The banner's content fetch (hardened revision) *)

Module Fetch.

Inductive settled (A : Type) :=
| Fulfilled (a : A)
| Rejected (e : exn).
Arguments Fulfilled {_} _.
Arguments Rejected {_} _.

(** A response: its [ok] flag and what [res.json()] settles to. *)
Record response := mkResponse {
  ok : bool;
  json : settled data
}.

(** The promise [result]: the first callback returns [res.json()] for an
    ok response and nothing ([undefined]) otherwise. *)
Definition result (f : settled response) : settled data :=
  match f with
  | Rejected e => Rejected e
  | Fulfilled res => if ok res then json res else Fulfilled (DPrim PUndefined)
  end.

(** The second callback, [data => { ... }]. *)
Definition populate (c : cref) (d : data) : M unit :=
  h <~ field c headlineElem;
  p <~ prop d "headline";
  set_textContent_at h (to_dom_string p);~
  ct <~ field c contentElem;
  p <~ prop d "content";
  set_textContent_at ct (to_dom_string p).

End Fetch.

(** [bannerComponent.loadContent] once the fetch has settled as [f]: the
    state the callbacks leave and how the last promise of the chain,
    which nothing observes, settles. *)
Definition bannerComponent_loadContent (c : cref)
    (f : Fetch.settled Fetch.response)
  : state → Fetch.settled unit * state :=
  λ s, match Fetch.result f with
       | Fetch.Rejected e => (Fetch.Rejected e, s)
       | Fetch.Fulfilled d =>
           match Fetch.populate c d s with
           | (Normal _, s') => (Fetch.Fulfilled tt, s')
           | (Throw e, s') => (Fetch.Rejected e, s')
           end
       end.


(** ** The script

    The original revision ends with three calls of the factory; the
    hardened one leaves the calls to the page. *)

(** The three calls that end the script of the original revision: the
    navigation bar, the login box and the banner, in this order. *)
Definition script (doc : document) (r1 r2 r3 : spec_float) : M cref :=
  createUIComponent doc Original "nav" r1;~
  createUIComponent doc Original "login" r2;~
  createUIComponent doc Original "banner" r3.

(** ** Vocabulary of the statements *)

(** [c] sits in a slot of the registry. *)
Definition registered (c : cref) (s : state) : Prop :=
  ∃ k, Obj.get k (components s) = Some (Holds c).

(** The parts an element can play for the component bound to it. *)
Inductive part := PForm | PWelcome | PLink | PHeadline | PContent.

Definition plays (c : component) (x : eref) (p : part) : Prop :=
  match p with
  | PForm => formElem c = Some x
  | PWelcome => welcomeElem c = Some x
  | PLink => loginLinkElem c = Some x
  | PHeadline => headlineElem c = Some x
  | PContent => contentElem c = Some x
  end.

(** No element is bound under two different parts: one component's form is
    never a welcome region, a headline or a logout link, of that component
    or of another. *)
Definition single_part (s : state) : Prop :=
  ∀ c c' x p p', plays (heap s c) x p → plays (heap s c') x p' → p = p'.

(** Only the DOM and the console may differ between [s] and [s']. *)
Definition same_shell (s s' : state) : Prop :=
  components s' = components s ∧ heap s' = heap s ∧
  listeners s' = listeners s ∧ rollbar s' = rollbar s ∧
  broadcasts s' = broadcasts s ∧ invoked s' = invoked s ∧
  next_ref s' = next_ref s.

(** Only the DOM, the console and the log of handler calls may differ. *)
Definition same_registry (s s' : state) : Prop :=
  components s' = components s ∧ heap s' = heap s ∧
  listeners s' = listeners s ∧ rollbar s' = rollbar s ∧
  broadcasts s' = broadcasts s ∧ next_ref s' = next_ref s.

(** [m] relates every state to the state it leaves, however it ends. *)
Definition keeps {A} (R : state → state → Prop) (m : M A) : Prop :=
  ∀ s, R s (snd (m s)).

(** The same, from the states that satisfy [I]. *)
Definition keeps_from {A} (I : state → Prop) (R : state → state → Prop)
    (m : M A) : Prop :=
  ∀ s, I s → R s (snd (m s)).

(** [m] throws nothing but a TypeError. *)
Definition type_errors_only {A} (m : M A) : Prop :=
  ∀ s e, fst (m s) = Throw e → e = TypeError.

(** What a failed initialisation must leave alone: the registry, the error
    log and the three fields [initComponent] assigns on [c]. *)
Definition same_registration (c : cref) (s s' : state) : Prop :=
  components s' = components s ∧ rollbar s' = rollbar s ∧
  componentId (heap s' c) = componentId (heap s c) ∧
  elem (heap s' c) = elem (heap s c) ∧
  componentNotifier (heap s' c) = componentNotifier (heap s c).

(** What one turn of the loop of [broadcast] can do. *)
Definition delivery (sid : option Z) (d : data) (s : state)
    (new : list (cref * data)) : Prop :=
  ∀ c d', (c, d') ∈ new →
    d' = d ∧ registered c s ∧ componentId (heap s c) ≠ sid.

(** The DOM [logout] leaves when the welcome region is [w], the form [f]. *)
Definition logout_dom (w f : eref) (D : eref → element) : eref → element :=
  let D1 := <[w := classList_add "d-none" (D w)]> D in
  let D2 := <[w := set_textContent "" (D1 w)]> D1 in
  <[f := classList_remove "d-none" (D2 f)]> D2.

(** The states a broadcast started in [s0] goes through: the registry of
    [s0], and the handler calls of [s0] followed by those made since. *)
Definition later (s0 s : state) : Prop :=
  same_registry s0 s ∧ ∃ new, invoked s = invoked s0 ++ new.

(** Between [s] and [s'] only the DOM and the console changed, and the
    element [l], if shown, is still shown. *)
Definition shown_kept (l : eref) (s s' : state) : Prop :=
  same_shell s s' ∧ (¬ hidden (dom s l) → ¬ hidden (dom s' l)).

(** What "the handler of [c] was called with [d] during this step and the
    element [l] is shown" means, relative to the handler calls of [s]. *)
Definition notified_and_shown (s : state) (c : cref) (d : data) (l : eref)
    (s1 : state) : Prop :=
  (∃ new, invoked s1 = invoked s ++ new ∧ (c, d) ∈ new) ∧
  ¬ hidden (dom s1 l).


(** The DOM the last three statements of [login] leave. *)
Definition welcome_dom (w f : eref) (u : string) (D : eref → element)
  : eref → element :=
  let D1 := <[w := classList_remove "d-none" (D w)]> D in
  let D2 := <[w := set_textContent ("Welcome " +:+ u) (D1 w)]> D1 in
  <[f := classList_add "d-none" (D2 f)]> D2.

(** [mrs] is what [k] right shifts leave of the mantissa [m]: the quotient,
    and a round bit that is set only if the remainder is at least half. *)
Definition shifted (k m : Z) (mrs : shr_record) : Prop :=
  shr_m mrs = m / 2 ^ k ∧ (shr_r mrs = true → 2 ^ (k - 1) ≤ m mod 2 ^ k).

(** A component whose handler finds the elements it needs. *)
Definition ready (c : component) : Prop :=
  match comp_role c with
  | RBase => True
  | RNav => is_Some (loginLinkElem c)
  | RLogin => is_Some (welcomeElem c) ∧ is_Some (formElem c)
  | RBanner => is_Some (headlineElem c)
  end.

(** No slot of the registry was cleared and every registered component is
    ready: the registry of a page that has all its elements, as long as
    nothing unsubscribes. *)
Definition sound_registry (s : state) : Prop :=
  ∀ k sl, Obj.get k (components s) = Some sl →
          ∃ c, sl = Holds c ∧ ready (heap s c).

(** ** Vocabulary of the invariants and of the frames *)

(** Only the registry may differ between [s] and [s']. *)
Definition only_registry (s s' : state) : Prop :=
  heap s' = heap s ∧ dom s' = dom s ∧ listeners s' = listeners s ∧
  console s' = console s ∧ rollbar s' = rollbar s ∧
  broadcasts s' = broadcasts s ∧ invoked s' = invoked s ∧
  next_ref s' = next_ref s.

(** The component a turn of the loop of [broadcast] calls for the key [k]. *)
Definition recipient (sid : option Z) (s : state) (k : key) : option cref :=
  match Obj.read k (components s) with
  | Holds c => if decide (sid ≠ componentId (heap s c)) then Some c else None
  | Cleared => None
  end.

(** The components a broadcast sent under [sid] is to call, in the order of
    the calls: the keys from the last to the first. *)
Definition recipients (sid : option Z) (s : state) : list cref :=
  omap (recipient sid s) (reverse (Obj.keys (components s))).

(** [k] may stand before [k'] among the keys of an object: an integer index
    stands before the larger indices and before every other key. *)
Definition precedes (k k' : key) : Prop :=
  Obj.is_index k' = true →
  Obj.is_index k = true ∧ Obj.index_ltb k k' = true.

(** The registry of a page built by the factory: each key once and in the
    order of [Object.keys], each component under its own identifier, and
    no component object newer than the last one created. *)
Definition wf_registry (s : state) : Prop :=
  NoDup (Obj.keys (components s)) ∧
  StronglySorted precedes (Obj.keys (components s)) ∧
  ∀ k c, Obj.get k (components s) = Some (Holds c) →
         componentId (heap s c) = k ∧ (c < next_ref s)%nat.

(** What the initialisation of [c] leaves alone: the DOM, the console, the
    logs of broadcasts and of handler calls, the other component objects,
    the role of [c], and every slot of the registry but [k]. *)
Definition inits (c : cref) (k : key) (s s' : state) : Prop :=
  dom s' = dom s ∧ console s' = console s ∧ broadcasts s' = broadcasts s ∧
  invoked s' = invoked s ∧ next_ref s' = next_ref s ∧
  (∀ c', c' ≠ c → heap s' c' = heap s c') ∧
  comp_role (heap s' c) = comp_role (heap s c) ∧
  (∀ k', k' ≠ k → Obj.get k' (components s') = Obj.get k' (components s)).

(** The state [createUIComponent] hands to [init]: the new object [c] is
    allocated with the role [ro]. *)
Definition allocated (ro : role) (s : state) : state :=
  set_heap (<[next_ref s := new_component ro]> (heap s)) (bump_next_ref s).

(** The selector [sel] finds an element under the element that [a] finds
    in the document. *)
Definition has (doc : document) (a sel : string) : Prop :=
  ∃ e, doc_query doc a = Some e ∧ is_Some (elem_query doc e sel).

(** A page with every element the widgets of the revision [v] need to be
    initialised and to answer a notification. *)
Definition complete (doc : document) (v : variant) : Prop :=
  has doc "#main-nav" "#logout-link" ∧
  has doc "#login-box" "form" ∧ has doc "#login-box" "#welcome" ∧
  has doc "#banner" "h1" ∧
  (v = Hardened → has doc "#banner" "#learn-more").

(** The greeting the banner shows for a payload with the fields [fs]. *)
Definition greeting (fs : list (string * prim)) : string :=
  if truthy (lookup_field "username" fs)
  then "Hello " +:+ to_string (lookup_field "username" fs)
  else "Hello world!".

(** The registry, the component objects, the listeners, the error log and
    the value of every element are the same in [s] and [s']. *)
Definition session_kept (s s' : state) : Prop :=
  components s' = components s ∧ heap s' = heap s ∧
  listeners s' = listeners s ∧ rollbar s' = rollbar s ∧
  next_ref s' = next_ref s ∧
  ∀ e, value (dom s' e) = value (dom s e).

(** Between [s] and [s'] only the DOM and the console changed, and the
    text of the element [h] is the same. *)
Definition text_kept (h : eref) (s s' : state) : Prop :=
  same_shell s s' ∧ textContent (dom s' h) = textContent (dom s h).

(** ** A sample page *)

Module Sample.

(** Elements: 0 [#main-nav], 1 [#logout-link], 2 [#login-box], 3 [form],
    4 [#username], 5 [#welcome], 6 [#banner], 7 [h1], 8 [#content],
    9 [#learn-more].  [with_h1] tells whether the banner has its [h1]. *)
Definition page (with_h1 : bool) : document :=
  {| doc_query := λ sel,
       if String.eqb sel "#main-nav" then Some 0%nat
       else if String.eqb sel "#login-box" then Some 2%nat
       else if String.eqb sel "#banner" then Some 6%nat
       else None;
     elem_query := λ e sel,
       match e with
       | 0%nat => if String.eqb sel "#logout-link" then Some 1%nat else None
       | 2%nat => if String.eqb sel "form" then Some 3%nat
                  else if String.eqb sel "#username" then Some 4%nat
                  else if String.eqb sel "#welcome" then Some 5%nat
                  else None
       | 6%nat => if String.eqb sel "h1" then
                    (if with_h1 then Some 7%nat else None)
                  else if String.eqb sel "#content" then Some 8%nat
                  else if String.eqb sel "#learn-more" then Some 9%nat
                  else None
       | _ => None
       end |}.

Definition shown (text val : string) : element :=
  {| classList := []; textContent := text; value := val |}.

Definition concealed : element :=
  {| classList := ["d-none"]; textContent := ""; value := "" |}.

(** The page as loaded: the logout link and the welcome region hidden,
    [user] typed into the username field. *)
Definition loaded (user : string) : state :=
  {| components := [];
     heap := λ _, new_component RBase;
     dom := λ e, match e with
                 | 1%nat | 5%nat => concealed
                 | 4%nat => shown "" user
                 | 7%nat => shown "Hello world!" ""
                 | _ => shown "" ""
                 end;
     listeners := []; console := []; rollbar := []; broadcasts := [];
     invoked := []; next_ref := 0%nat |}.

(** Three doubles in [0, 1): 0, 1/4 and 1/2; they draw the identifiers
    1000, 3250 and 5500. *)
Definition zero : spec_float := S754_zero false.
Definition quarter : spec_float := S754_finite false 4503599627370496 (-54).
Definition half : spec_float := S754_finite false 4503599627370496 (-53).

(** The largest double below 1. *)
Definition below_one : spec_float :=
  S754_finite false 9007199254740991 (-53).

(** The three calls of [createUIComponent] that end the script: the
    navigation bar is object 0, the login box object 1, the banner
    object 2. *)
Definition boot (with_h1 : bool) (v : variant) : M cref :=
  createUIComponent (page with_h1) v "nav" zero;~
  createUIComponent (page with_h1) v "login" quarter;~
  createUIComponent (page with_h1) v "banner" half.

Definition booted (with_h1 : bool) (v : variant) (user : string) : state :=
  snd (boot with_h1 v (loaded user)).


(** An ok response carrying a headline and a content, and a failed one. *)
Definition post : Fetch.response :=
  {| Fetch.ok := true;
     Fetch.json := Fetch.Fulfilled
       (DObj [("headline", PStr "News"); ("content", PStr "Read on")]) |}.

Definition not_found : Fetch.response :=
  {| Fetch.ok := false; Fetch.json := Fetch.Rejected SyntaxError |}.

(** A page with none of the anchors. *)
Definition empty_page : document :=
  {| doc_query := λ _, None; elem_query := λ _ _, None |}.

(** The three anchors of the sample page with nothing under them. *)
Definition stripped : document :=
  {| doc_query := doc_query (page true); elem_query := λ _ _, None |}.

(** An ok response whose body has a headline and no content. *)
Definition headline_only : Fetch.response :=
  {| Fetch.ok := true;
     Fetch.json := Fetch.Fulfilled (DObj [("headline", PStr "News")]) |}.

End Sample.

(** * Properties *)

(** ** Reasoning about computations *)

Lemma bind_normal {A B} (m : M A) (k : A → M B) s a s1 :
  m s = (Normal a, s1) → bind m k s = k a s1.
Proof. intros E. unfold bind. now rewrite E. Qed.

Lemma bind_throw {A B} (m : M A) (k : A → M B) s e s1 :
  m s = (Throw e, s1) → bind m k s = (Throw e, s1).
Proof. intros E. unfold bind. now rewrite E. Qed.

(** A computation that ends normally went through both halves of a bind. *)
Lemma bind_inv_normal {A B} (m : M A) (k : A → M B) s b s2 :
  bind m k s = (Normal b, s2) →
  ∃ a s1, m s = (Normal a, s1) ∧ k a s1 = (Normal b, s2).
Proof.
  unfold bind. destruct (m s) as [[a|e] s1]; intros E.
  - now exists a, s1.
  - discriminate.
Qed.

#[global] Instance same_shell_preorder : PreOrder same_shell.
Proof.
  split.
  - intros s. repeat split.
  - intros s1 s2 s3 (?&?&?&?&?&?&?) (?&?&?&?&?&?&?).
    repeat split; congruence.
Qed.

#[global] Instance same_registry_preorder : PreOrder same_registry.
Proof.
  split.
  - intros s. repeat split.
  - intros s1 s2 s3 (?&?&?&?&?&?) (?&?&?&?&?&?). repeat split; congruence.
Qed.

Lemma same_shell_registry s s' : same_shell s s' → same_registry s s'.
Proof. intros (?&?&?&?&?&?&?). repeat split; assumption. Qed.

Lemma keeps_apply {A} (R : state → state → Prop) (m : M A) s :
  keeps R m → R s (snd (m s)).
Proof. intros H. apply H. Qed.

Section Keeps.

Context (R : state → state → Prop) `{!PreOrder R}.

Lemma keeps_ret {A} (a : A) : keeps R (ret a).
Proof. intros s. simpl. reflexivity. Qed.

Lemma keeps_throw {A} e : keeps R (@throw A e).
Proof. intros s. simpl. reflexivity. Qed.

Lemma keeps_gets {A} (f : state → A) : keeps R (gets f).
Proof. intros s. simpl. reflexivity. Qed.

Lemma keeps_deref {A} (o : option A) : keeps R (deref o).
Proof. destruct o; [apply keeps_ret | apply keeps_throw]. Qed.

Lemma keeps_field {A} c (f : component → A) : keeps R (field c f).
Proof. apply keeps_gets. Qed.

Lemma keeps_prop d name : keeps R (prop d name).
Proof.
  unfold prop.
  destruct (get_field d name); [apply keeps_throw | apply keeps_ret].
Qed.

Lemma keeps_modify f : (∀ s, R s (f s)) → keeps R (modify f).
Proof. intros H s. apply H. Qed.

Lemma keeps_bind {A B} (m : M A) (k : A → M B) :
  keeps R m → (∀ a, keeps R (k a)) → keeps R (bind m k).
Proof.
  intros Hm Hk s. unfold bind. specialize (Hm s).
  destruct (m s) as [[a|e] s1]; simpl in *.
  - etransitivity; [exact Hm | apply Hk].
  - exact Hm.
Qed.

Lemma keeps_try_catch {A} (m : M A) h :
  keeps R m → (∀ e, keeps R (h e)) → keeps R (try_catch m h).
Proof.
  intros Hm Hh s. unfold try_catch. specialize (Hm s).
  destruct (m s) as [[a|e] s1]; simpl in *.
  - exact Hm.
  - etransitivity; [exact Hm | apply Hh].
Qed.

End Keeps.

Lemma keeps_from_any {A} (I : state → Prop) R (m : M A) :
  keeps R m → keeps_from I R m.
Proof. intros H s _. apply H. Qed.

Lemma keeps_from_bind {A B} (I : state → Prop) (R : state → state → Prop)
    `{!PreOrder R} (m : M A) (k : A → M B) :
  (∀ s s', I s → R s s' → I s') →
  keeps_from I R m → (∀ a, keeps_from I R (k a)) →
  keeps_from I R (bind m k).
Proof.
  intros HI Hm Hk s Hs. unfold bind. specialize (Hm s Hs).
  destruct (m s) as [[a|e] s1]; simpl in *.
  - etransitivity; [exact Hm | apply Hk; eauto].
  - exact Hm.
Qed.

(** Steps of a proof that a computation keeps a relation. *)
Ltac keeps_step :=
  first
    [ apply keeps_bind; [typeclasses eauto | | intros ?]
    | apply keeps_ret; typeclasses eauto
    | apply keeps_throw; typeclasses eauto
    | apply keeps_field; typeclasses eauto
    | apply keeps_gets; typeclasses eauto
    | apply keeps_deref; typeclasses eauto
    | apply keeps_prop; typeclasses eauto
    | assumption ].

Lemma update_elem_shell e f : keeps same_shell (update_elem e f).
Proof. intros s. repeat split. Qed.

Lemma classList_add_at_shell o t : keeps same_shell (classList_add_at o t).
Proof. unfold classList_add_at. repeat keeps_step. apply update_elem_shell. Qed.

Lemma classList_remove_at_shell o t :
  keeps same_shell (classList_remove_at o t).
Proof.
  unfold classList_remove_at. repeat keeps_step. apply update_elem_shell.
Qed.

Lemma set_textContent_at_shell o v : keeps same_shell (set_textContent_at o v).
Proof.
  unfold set_textContent_at. repeat keeps_step. apply update_elem_shell.
Qed.

Lemma logout_shell c : keeps same_shell (loginComponent_logout c).
Proof.
  unfold loginComponent_logout.
  repeat first [ apply classList_add_at_shell | apply classList_remove_at_shell
               | apply set_textContent_at_shell | keeps_step ].
Qed.

(** A notification handler touches the DOM and the console, nothing else. *)
Lemma listen_shell c d : keeps same_shell (listen c d).
Proof.
  unfold listen. apply keeps_bind; [typeclasses eauto | keeps_step |].
  intros [].
  - intros s. repeat split.
  - unfold navComponent_listen, navComponent_showLogoutLink.
    keeps_step; [keeps_step|].
    destruct (truthy a);
      repeat first [apply classList_remove_at_shell | keeps_step].
  - unfold loginComponent_listen. keeps_step; [keeps_step|].
    destruct (truthy a); [apply logout_shell | keeps_step].
  - unfold bannerComponent_listen.
    repeat first [apply set_textContent_at_shell | keeps_step].
Qed.

Lemma read_registered k c s :
  Obj.read k (components s) = Holds c → registered c s.
Proof.
  unfold Obj.read, registered. intros E. exists k.
  destruct (Obj.get k (components s)) as [sl|]; [now subst | discriminate].
Qed.

Lemma delivery_shift sid d s s' new :
  same_registry s s' → delivery sid d s' new → delivery sid d s new.
Proof.
  intros (Hc & Hh & _) H c d' Hin. destruct (H c d' Hin) as (-> & Hr & Hid).
  unfold registered in *. rewrite Hc in Hr. rewrite Hh in Hid. auto.
Qed.

Lemma broadcast_step_spec sid d k s :
  let s' := snd (broadcast_step sid d k s) in
  same_registry s s' ∧
  ∃ new, invoked s' = invoked s ++ new ∧ delivery sid d s new.
Proof.
  unfold broadcast_step, bind, gets, field. simpl.
  destruct (Obj.read k (components s)) as [|c] eqn:Er; simpl.
  - split; [reflexivity|]. exists []. rewrite app_nil_r. split; [done|].
    intros c d' Hin. inversion Hin.
  - destruct (decide (sid ≠ componentId (heap s c))) as [Hne|Heq]; simpl.
    + pose proof (listen_shell c d (add_invoked (c, d) s)) as Hl.
      destruct (listen c d (add_invoked (c, d) s)) as [[[]|e] s1];
        simpl in *; destruct Hl as (Hc & Hh & Hli & Hro & Hb & Hi & Hn);
        (split; [repeat split; assumption|]);
        exists [(c, d)]; (split; [exact Hi|]);
        intros c' d' Hin; apply list_elem_of_singleton in Hin;
        inversion Hin; subst; (split; [done|]);
        (split; [eapply read_registered; eauto | congruence]).
    + split; [reflexivity|]. exists []. rewrite app_nil_r. split; [done|].
      intros c' d' Hin. inversion Hin.
Qed.

Lemma broadcast_loop_spec sid d ks : ∀ s,
  let s' := snd (broadcast_loop sid d ks s) in
  same_registry s s' ∧
  ∃ new, invoked s' = invoked s ++ new ∧ delivery sid d s new.
Proof.
  induction ks as [|k ks IH]; intros s; simpl.
  - split; [reflexivity|]. exists []. rewrite app_nil_r. split; [done|].
    intros c d' Hin. inversion Hin.
  - destruct (broadcast_step_spec sid d k s) as (Hreg & new1 & Hi1 & Hd1).
    unfold bind.
    destruct (broadcast_step sid d k s) as [[[]|e] s1]; simpl in *.
    + destruct (IH s1) as (Hreg2 & new2 & Hi2 & Hd2).
      split; [etransitivity; eassumption|].
      exists (new1 ++ new2). split.
      * rewrite Hi2, Hi1. now rewrite app_assoc.
      * intros c d' Hin. apply elem_of_app in Hin as [Hin|Hin].
        -- now apply Hd1.
        -- eapply delivery_shift; eauto.
    + split; [assumption|]. now exists new1.
Qed.

(** ** The order of a broadcast *)

(** [Object.keys] lists the identifiers in ascending order, whatever the
    order of the subscriptions. *)
Example keys_ascending :
  Obj.keys (Obj.set (Some 3250) (Holds 2%nat)
              (Obj.set (Some 1000) (Holds 1%nat)
                 (Obj.set (Some 5500) (Holds 0%nat) [])))
  = [Some 1000; Some 3250; Some 5500].
Proof. reflexivity. Qed.

(** A cleared slot keeps its key and its place. *)
Example cleared_key_stays :
  Obj.set (Some 3250) Cleared
    [(Some 1000, Holds 0%nat); (Some 3250, Holds 1%nat);
     (Some 5500, Holds 2%nat)]
  = [(Some 1000, Holds 0%nat); (Some 3250, Cleared);
     (Some 5500, Holds 2%nat)].
Proof. reflexivity. Qed.

(** On the sample page the login box (3250) broadcasts: the banner (5500)
    hears it first, then the navigation bar (1000); the login box itself
    does not. *)
Example sample_login_order :
  invoked (snd (loginComponent_login (Sample.page true) Hardened 1%nat
                  (Sample.booted true Hardened "bob")))
  = [(2%nat, login_payload Hardened "bob");
     (0%nat, login_payload Hardened "bob")].
Proof. vm_compute. reflexivity. Qed.

(** ** The mediator *)

(** C1.  Whatever the registry holds and however the broadcast ends, every
    call of a [listen] handler it makes passes the payload to a registered
    component whose [componentId] differs from the sender's; the handler
    of a component whose [componentId] is the sender's is never called. *)
Theorem broadcast_never_notifies_sender (sid : option Z) (d : data)
    (s : state) :
  ∃ new,
    invoked (snd (uiSubscriber_broadcast sid d s)) = invoked s ++ new ∧
    (∀ c d', (c, d') ∈ new →
       d' = d ∧ registered c s ∧ componentId (heap s c) ≠ sid) ∧
    (∀ c d', componentId (heap s c) = sid → (c, d') ∉ new).
Proof.
  unfold uiSubscriber_broadcast, bind, modify, gets. simpl.
  destruct (broadcast_loop_spec sid d (reverse (Obj.keys (components s)))
              (add_broadcast (sid, d) s)) as (_ & new & Hi & Hd).
  exists new. split; [exact Hi|]. split.
  - exact Hd.
  - intros c d' Hid Hin. destruct (Hd c d' Hin) as (_ & _ & Hne). now apply Hne.
Qed.

Section TypeErrors.

Lemma type_errors_ret {A} (a : A) : type_errors_only (ret a).
Proof. intros s e E. discriminate. Qed.

Lemma type_errors_throw {A} : type_errors_only (@throw A TypeError).
Proof. intros s e E. simpl in E. congruence. Qed.

Lemma type_errors_gets {A} (f : state → A) : type_errors_only (gets f).
Proof. intros s e E. discriminate. Qed.

Lemma type_errors_modify f : type_errors_only (modify f).
Proof. intros s e E. discriminate. Qed.

Lemma type_errors_deref {A} (o : option A) : type_errors_only (deref o).
Proof. destruct o; [apply type_errors_ret | apply type_errors_throw]. Qed.

Lemma type_errors_prop d name : type_errors_only (prop d name).
Proof.
  unfold prop, get_field.
  destruct d as [[| | |]|];
    first [apply type_errors_ret | apply type_errors_throw].
Qed.

Lemma type_errors_bind {A B} (m : M A) (k : A → M B) :
  type_errors_only m → (∀ a, type_errors_only (k a)) →
  type_errors_only (bind m k).
Proof.
  intros Hm Hk s e. unfold bind. specialize (Hm s).
  destruct (m s) as [[a|e1] s1]; simpl in *.
  - apply Hk.
  - intros E. apply Hm. congruence.
Qed.

End TypeErrors.

Ltac type_errors_step :=
  first
    [ apply type_errors_bind; [| intros ?]
    | apply type_errors_ret
    | apply type_errors_throw
    | apply type_errors_gets
    | apply type_errors_modify
    | apply type_errors_deref
    | apply type_errors_prop ].

Lemma listen_type_errors c d : type_errors_only (listen c d).
Proof.
  unfold listen. apply type_errors_bind; [apply type_errors_gets|].
  intros []; unfold uiComponent_listen, navComponent_listen,
    loginComponent_listen, bannerComponent_listen,
    navComponent_showLogoutLink, loginComponent_logout,
    classList_add_at, classList_remove_at,
    set_textContent_at, update_elem, field.
  - type_errors_step.
  - type_errors_step; [type_errors_step|].
    destruct (truthy a); repeat type_errors_step.
  - type_errors_step; [type_errors_step|].
    destruct (truthy a); repeat type_errors_step.
  - repeat type_errors_step.
Qed.

(** A cleared slot among the keys still to visit ends the loop with a
    TypeError: at that slot, if no handler threw before. *)
Lemma broadcast_loop_cleared sid d k ks : ∀ s,
  k ∈ ks → Obj.read k (components s) = Cleared →
  fst (broadcast_loop sid d ks s) = Throw TypeError.
Proof.
  induction ks as [|k0 ks IH]; intros s Hin Hk.
  - inversion Hin.
  - simpl. unfold bind.
    destruct (broadcast_step_spec sid d k0 s) as ((Hc & _) & _).
    destruct (broadcast_step sid d k0 s) as [[[]|e] s1] eqn:Es; simpl in *.
    + apply IH.
      * apply elem_of_cons in Hin as [->|Hin]; [|exact Hin].
        exfalso. revert Es. unfold broadcast_step, bind, gets. simpl.
        rewrite Hk. discriminate.
      * now rewrite Hc.
    + f_equal. revert Es.
      unfold broadcast_step, bind, gets, field, modify, throw. simpl.
      destruct (Obj.read k0 (components s)) as [|c]; [congruence|].
      destruct (decide _); [|discriminate].
      pose proof (listen_type_errors c d (add_invoked (c, d) s)) as Hl.
      destruct (listen c d (add_invoked (c, d) s)) as [[[]|e1] s2];
        [discriminate|].
      intros E. inversion E; subst. now apply Hl.
Qed.

Lemma get_update_eq k v o sl :
  Obj.get k o = Some sl → Obj.get k (Obj.update k v o) = Some v.
Proof.
  induction o as [|[k' v'] o IH]; simpl; [discriminate|].
  destruct (decide (k = k')) as [->|Hne]; simpl.
  - intros _. now rewrite decide_True.
  - intros E. rewrite decide_False by exact Hne. now apply IH.
Qed.

Lemma get_keys k o sl : Obj.get k o = Some sl → k ∈ Obj.keys o.
Proof.
  induction o as [|[k' v'] o IH]; simpl; [discriminate|].
  destruct (decide (k = k')) as [->|Hne]; intros E.
  - apply elem_of_cons. now left.
  - apply elem_of_cons. right. now apply IH.
Qed.

(** C2.  The claim fails on the code.  Once [unsubscribe] has cleared the
    slot of a registered component, the property stays among the keys of
    [components] with the value [undefined], and every later broadcast,
    whoever sends it and whatever the payload, ends with a TypeError
    instead of delivering to the components that remain. *)
Theorem broadcast_after_unsubscribe_throws (s : state) (c c' : cref)
    (sid : option Z) (d : data) :
  Obj.read (componentId (heap s c)) (components s) = Holds c' →
  fst (uiSubscriber_broadcast sid d (snd (uiSubscriber_unsubscribe c s)))
  = Throw TypeError.
Proof.
  intros Hr.
  assert (Obj.get (componentId (heap s c)) (components s) = Some (Holds c'))
    as Hg.
  { unfold Obj.read in Hr.
    destruct (Obj.get _ _) as [sl|]; [now subst | discriminate]. }
  unfold uiSubscriber_unsubscribe, bind, field, gets, modify. simpl.
  rewrite Hr. simpl.
  unfold uiSubscriber_broadcast, bind, modify, gets. simpl.
  apply broadcast_loop_cleared with (k := componentId (heap s c)).
  - apply elem_of_reverse. unfold Obj.set. rewrite Hg.
    eapply get_keys, get_update_eq, Hg.
  - simpl. unfold Obj.read, Obj.set. rewrite Hg.
    now rewrite (get_update_eq _ _ _ _ Hg).
Qed.

(** The banner of the sample page leaves the registry; the navigation bar
    then announces a logout. *)
Lemma broadcast_after_unsubscribe_throws_witness :
  let s := Sample.booted true Hardened "bob" in
  Obj.read (componentId (heap s 2%nat)) (components s) = Holds 2%nat ∧
  fst (uiSubscriber_broadcast (Some 1000) (DObj [("loggingOut", PBool true)])
         (snd (uiSubscriber_unsubscribe 2%nat s))) = Throw TypeError.
Proof.
  split.
  - reflexivity.
  - apply (broadcast_after_unsubscribe_throws _ 2%nat 2%nat). reflexivity.
Defined.

(** C4.  When the slot of identifier [i] holds [c1], subscribing a
    component [c2] whose identifier is also [i] (a second component, or
    [c1] once more) changes nothing: the call returns without an error
    and [components[i]] is still [c1]. *)
Theorem subscribe_keeps_first (s : state) (c1 c2 : cref) (i : Z) :
  Obj.read (Some i) (components s) = Holds c1 →
  componentId (heap s c2) = Some i →
  uiSubscriber_subscribe c2 s = (Normal tt, s) ∧
  Obj.read (Some i) (components (snd (uiSubscriber_subscribe c2 s))) = Holds c1.
Proof.
  intros Hr Hid.
  assert (uiSubscriber_subscribe c2 s = (Normal tt, s)) as E.
  { unfold uiSubscriber_subscribe, bind, field, gets. simpl.
    rewrite Hid, Hr. reflexivity. }
  rewrite E. split; [reflexivity | exact Hr].
Qed.

(** A second navigation bar draws 5500, the identifier of the banner. *)
Lemma subscribe_keeps_first_witness :
  let s := snd (createUIComponent (Sample.page true) Hardened "nav"
                  Sample.half (Sample.booted true Hardened "bob")) in
  Obj.read (Some 5500) (components s) = Holds 2%nat ∧
  componentId (heap s 3%nat) = Some 5500 ∧
  uiSubscriber_subscribe 3%nat s = (Normal tt, s) ∧
  Obj.read (Some 5500) (components (snd (uiSubscriber_subscribe 3%nat s)))
  = Holds 2%nat.
Proof.
  split; [reflexivity|]. split; [reflexivity|].
  apply (subscribe_keeps_first _ 2%nat 3%nat 5500); reflexivity.
Defined.

(** ** Initialisation *)

#[global] Instance same_registration_preorder c :
  PreOrder (same_registration c).
Proof.
  split.
  - intros s. repeat split.
  - intros s1 s2 s3 (?&?&?&?&?) (?&?&?&?&?). repeat split; congruence.
Qed.

(** An assignment to a field other than those three keeps them. *)
Lemma update_comp_registration c0 c f :
  (∀ x, componentId (f x) = componentId x ∧ elem (f x) = elem x ∧
        componentNotifier (f x) = componentNotifier x) →
  keeps (same_registration c0) (update_comp c f).
Proof.
  intros Hf s. unfold update_comp, modify, same_registration. simpl.
  split; [done|]. split; [done|].
  unfold insert, fn_insert. destruct (decide (c = c0)) as [->|]; [|done].
  apply Hf.
Qed.

Lemma addEventListener_registration c0 o ev h :
  keeps (same_registration c0) (addEventListener o ev h).
Proof.
  unfold addEventListener. keeps_step; [keeps_step|].
  intros s. repeat split.
Qed.

Lemma query_registration doc c0 a sel :
  keeps (same_registration c0) (query doc a sel).
Proof. destruct a; simpl; keeps_step. Qed.

Ltac registration_step :=
  first
    [ apply query_registration
    | apply addEventListener_registration
    | apply update_comp_registration; intros ?; repeat split
    | keeps_step ].

(** Once [initComponent] has returned, the rest of [init] assigns only the
    elements found under the anchor and adds a listener. *)
Lemma init_rest_registration doc v c el r s s1 :
  uiComponent_initComponent v c el r s = (Normal tt, s1) →
  same_registration c s1 (snd (init doc v c el r s)).
Proof.
  intros Hi. unfold init.
  rewrite (bind_normal (field c comp_role) _ s _ s eq_refl).
  destruct (comp_role (heap s c)).
  - unfold uiComponent_init. rewrite Hi. reflexivity.
  - unfold navComponent_init. rewrite (bind_normal _ _ _ _ _ Hi).
    apply keeps_apply. repeat registration_step.
  - unfold loginComponent_init. rewrite (bind_normal _ _ _ _ _ Hi).
    apply keeps_apply. repeat registration_step.
  - unfold bannerComponent_init. rewrite (bind_normal _ _ _ _ _ Hi).
    apply keeps_apply. destruct v; repeat registration_step.
Qed.

(** C5.  In the hardened revision, [init] with an anchor that is [null] or
    [undefined] makes exactly one report to the error collector, leaves
    the registry as it was — so a component that was not registered is
    still not — and assigns neither anchor, identifier nor notifier; this
    holds for every role and every component object. *)
Theorem init_without_anchor (doc : document) (s : state) (c : cref)
    (el : anchor) (r : spec_float) :
  absent el = true →
  let s' := snd (init doc Hardened c el r s) in
  rollbar s' =
    rollbar s ++ [("Error uiComponents.initComponent: ", MsgUndefined)] ∧
  components s' = components s ∧
  (∀ c', registered c' s' ↔ registered c' s) ∧
  componentId (heap s' c) = componentId (heap s c) ∧
  elem (heap s' c) = elem (heap s c) ∧
  componentNotifier (heap s' c) = componentNotifier (heap s c).
Proof.
  intros Habs s'.
  set (entry := ("Error uiComponents.initComponent: ", MsgUndefined)).
  assert (uiComponent_initComponent Hardened c el r s
          = (Normal tt, add_rollbar entry s)) as Hi.
  { unfold uiComponent_initComponent, try_catch. rewrite Habs. reflexivity. }
  destruct (init_rest_registration doc Hardened c el r s _ Hi)
    as (Hc & Hr & H1 & H2 & H3). fold s' in Hc, Hr, H1, H2, H3.
  simpl in *. repeat split; try assumption.
  - unfold registered. now rewrite Hc.
  - unfold registered. now rewrite Hc.
Qed.

(** A new banner is initialised with [null], as the factory does on a page
    without [#banner]. *)
Lemma init_without_anchor_witness :
  let s := snd (update_comp 0%nat (λ _, new_component RBanner)
                  (Sample.loaded "bob")) in
  let s' := snd (init (Sample.page true) Hardened 0%nat ANull Sample.half s) in
  absent ANull = true ∧
  rollbar s' =
    rollbar s ++ [("Error uiComponents.initComponent: ", MsgUndefined)] ∧
  components s' = components s ∧
  (∀ c', registered c' s' ↔ registered c' s) ∧
  componentId (heap s' 0%nat) = componentId (heap s 0%nat) ∧
  elem (heap s' 0%nat) = elem (heap s 0%nat) ∧
  componentNotifier (heap s' 0%nat) = componentNotifier (heap s 0%nat).
Proof.
  split; [reflexivity|].
  apply (init_without_anchor (Sample.page true)
           (snd (update_comp 0%nat (λ _, new_component RBanner)
                   (Sample.loaded "bob")))
           0%nat ANull Sample.half).
  reflexivity.
Defined.

(** How the hardened [init] ends on a component that holds no anchor yet:
    the base component returns, the three widgets throw a TypeError when
    they search under the anchor they did not get; nothing but the report
    to the error collector has changed. *)
Lemma init_without_anchor_aborts (doc : document) (s : state) (c : cref)
    (el : anchor) (r : spec_float) :
  absent el = true →
  absent (elem (heap s c)) = true →
  init doc Hardened c el r s =
  (match comp_role (heap s c) with
   | RBase => Normal tt
   | _ => Throw TypeError
   end,
   add_rollbar ("Error uiComponents.initComponent: ", MsgUndefined) s).
Proof.
  intros Habs Hc.
  set (entry := ("Error uiComponents.initComponent: ", MsgUndefined)).
  assert (uiComponent_initComponent Hardened c el r s
          = (Normal tt, add_rollbar entry s)) as Hi.
  { unfold uiComponent_initComponent, try_catch. rewrite Habs. reflexivity. }
  assert (query doc (elem (heap s c)) = λ _, throw TypeError) as Hq.
  { destruct (elem (heap s c)); [reflexivity | reflexivity | discriminate]. }
  unfold init. rewrite (bind_normal (field c comp_role) _ s _ s eq_refl).
  destruct (comp_role (heap s c)).
  - exact Hi.
  - unfold navComponent_init. rewrite (bind_normal _ _ _ _ _ Hi).
    unfold bind, field, gets. simpl. now rewrite Hq.
  - unfold loginComponent_init. rewrite (bind_normal _ _ _ _ _ Hi).
    unfold bind, field, gets. simpl. now rewrite Hq.
  - unfold bannerComponent_init. rewrite (bind_normal _ _ _ _ _ Hi).
    unfold bind, field, gets. simpl. now rewrite Hq.
Qed.

(** ** Class lists *)

Lemma classList_add_in t e : t ∈ classList (classList_add t e).
Proof.
  unfold classList_add. simpl. case_bool_decide; [assumption|].
  apply elem_of_app. right. now apply list_elem_of_singleton.
Qed.


Lemma classList_remove_out t e : t ∉ classList (classList_remove t e).
Proof.
  unfold classList_remove. simpl. intros H.
  apply list_elem_of_filter in H as [Hne _]. now apply Hne.
Qed.

Lemma classList_remove_keeps_out t t' e :
  t' ∉ classList e → t' ∉ classList (classList_remove t e).
Proof.
  unfold classList_remove. simpl. intros H H'.
  apply list_elem_of_filter in H' as [_ Hin]. now apply H.
Qed.

(** ** Running the widgets' methods *)

(** Unfolds the handlers down to the state they compute. *)
Ltac run_widgets :=
  unfold listen, uiComponent_listen, loginComponent_listen,
    navComponent_listen, bannerComponent_listen, loginComponent_logout,
    navComponent_showLogoutLink, navComponent_hideLogoutLink;
  unfold classList_add_at, classList_remove_at, set_textContent_at;
  unfold update_elem, prop, field, deref;
  unfold bind, gets, modify, ret, throw;
  simpl.


Lemma classList_remove_at_run e t s :
  classList_remove_at (Some e) t s =
  (Normal tt, set_dom (<[e := classList_remove t (dom s e)]> (dom s)) s).
Proof. reflexivity. Qed.

Lemma set_textContent_at_run e v s :
  set_textContent_at (Some e) v s =
  (Normal tt, set_dom (<[e := set_textContent v (dom s e)]> (dom s)) s).
Proof. reflexivity. Qed.

Lemma logout_run c w f s :
  welcomeElem (heap s c) = Some w → formElem (heap s c) = Some f →
  loginComponent_logout c s = (Normal tt, set_dom (logout_dom w f (dom s)) s).
Proof.
  intros Hw Hf. unfold loginComponent_logout, bind, field, gets. simpl.
  rewrite Hw. simpl. rewrite Hw. simpl. rewrite Hf. reflexivity.
Qed.

(** [logout] returns normally only if both regions are bound. *)
Lemma logout_normal_inv c s s1 :
  loginComponent_logout c s = (Normal tt, s1) →
  ∃ w f, welcomeElem (heap s c) = Some w ∧ formElem (heap s c) = Some f.
Proof.
  intros E.
  destruct (welcomeElem (heap s c)) as [w|] eqn:Ew;
    [|revert E; run_widgets; rewrite Ew; discriminate].
  destruct (formElem (heap s c)) as [f|] eqn:Ef; [eauto|].
  revert E. run_widgets. rewrite Ew. simpl. rewrite Ew. simpl. rewrite Ef.
  discriminate.
Qed.



(** ** Reaching a component during a broadcast *)

Section Reach.

Variables (sid : option Z) (d : data) (s0 : state) (k : key) (c : cref).
Variable P : state → Prop.

Hypothesis Hread : Obj.read k (components s0) = Holds c.
Hypothesis Hid : componentId (heap s0 c) ≠ sid.

(** The handler of [c] establishes [P] ... *)
Hypothesis Hest : ∀ s s1,
  later s0 s →
  listen c d (add_invoked (c, d) s) = (Normal tt, s1) → P s1.

(** ... and no handler that runs to its end undoes it. *)
Hypothesis Hpres : ∀ c' s s1,
  later s0 s → P s →
  listen c' d (add_invoked (c', d) s) = (Normal tt, s1) → P s1.

Lemma later_step k0 s :
  later s0 s → later s0 (snd (broadcast_step sid d k0 s)).
Proof.
  intros (Hreg & new & Hi).
  destruct (broadcast_step_spec sid d k0 s) as (Hreg1 & new1 & Hi1 & _).
  split; [etransitivity; eassumption|].
  exists (new ++ new1). rewrite Hi1, Hi. now rewrite app_assoc.
Qed.

Lemma broadcast_step_reach k0 s s1 :
  later s0 s →
  broadcast_step sid d k0 s = (Normal tt, s1) →
  (P s ∨ k0 = k) → P s1.
Proof.
  intros Hl Es HP. pose proof Hl as ((Hc & Hh & _) & _).
  revert Es. unfold broadcast_step, bind, gets, field, modify. simpl.
  destruct (Obj.read k0 (components s)) as [|c'] eqn:Er; [discriminate|].
  destruct (decide (sid ≠ componentId (heap s c'))) as [Hne|Heq].
  - intros Es. destruct HP as [HP| ->].
    + exact (Hpres c' s s1 Hl HP Es).
    + rewrite Hc, Hread in Er. inversion Er; subst c'.
      exact (Hest s s1 Hl Es).
  - intros Es. inversion Es; subst s1. destruct HP as [HP| ->]; [exact HP|].
    exfalso. rewrite Hc, Hread in Er. inversion Er; subst c'.
    apply Heq. rewrite Hh. congruence.
Qed.

Lemma broadcast_loop_reach ks : ∀ s s',
  later s0 s →
  broadcast_loop sid d ks s = (Normal tt, s') →
  (P s ∨ k ∈ ks) → P s'.
Proof.
  induction ks as [|k0 ks IH]; intros s s' Hl El HP.
  - simpl in El. inversion El; subst. destruct HP as [HP|HP]; [exact HP|].
    inversion HP.
  - simpl in El. apply bind_inv_normal in El as ([] & s1 & Es & El).
    pose proof (later_step k0 s Hl) as Hl1. rewrite Es in Hl1.
    apply (IH s1 s'); [exact Hl1 | exact El |].
    destruct HP as [HP|HP].
    + left. apply (broadcast_step_reach k0 s s1 Hl Es). now left.
    + apply elem_of_cons in HP as [Heq|HP]; [|now right].
      left. apply (broadcast_step_reach k0 s s1 Hl Es). right. congruence.
Qed.

End Reach.

(** A broadcast that returns has run the handler of every registered
    component whose identifier is not the sender's. *)
Lemma broadcast_reach sid d s k c (P : state → Prop) s' :
  Obj.get k (components s) = Some (Holds c) →
  componentId (heap s c) ≠ sid →
  (∀ s1 s2, later (add_broadcast (sid, d) s) s1 →
     listen c d (add_invoked (c, d) s1) = (Normal tt, s2) → P s2) →
  (∀ c' s1 s2, later (add_broadcast (sid, d) s) s1 → P s1 →
     listen c' d (add_invoked (c', d) s1) = (Normal tt, s2) → P s2) →
  uiSubscriber_broadcast sid d s = (Normal tt, s') →
  P s' ∧ later (add_broadcast (sid, d) s) s'.
Proof.
  intros Hg Hid Hest Hpres Hb.
  unfold uiSubscriber_broadcast in Hb.
  apply bind_inv_normal in Hb as ([] & s1 & E1 & Hb).
  inversion E1; subst s1; clear E1.
  apply bind_inv_normal in Hb as (ks & s1 & E1 & Hb).
  inversion E1; subst s1 ks; clear E1.
  assert (later (add_broadcast (sid, d) s) (add_broadcast (sid, d) s)) as Hl.
  { split; [reflexivity|]. exists []. now rewrite app_nil_r. }
  split.
  - eapply (broadcast_loop_reach sid d (add_broadcast (sid, d) s) k c P);
      eauto.
    + simpl. unfold Obj.read. now rewrite Hg.
    + right. apply elem_of_reverse. simpl. eapply get_keys; eauto.
  - destruct (broadcast_loop_spec sid d
                (reverse (Obj.keys (components (add_broadcast (sid, d) s))))
                (add_broadcast (sid, d) s)) as (Hreg & new & Hi & _).
    simpl in *. rewrite Hb in Hreg, Hi. simpl in *.
    split; [exact Hreg | now exists new].
Qed.


(** A broadcast that returns without an error has called the handler of
    every registered component whose identifier is not the sender's. *)
Lemma broadcast_delivers sid d s s' k c :
  Obj.get k (components s) = Some (Holds c) →
  componentId (heap s c) ≠ sid →
  uiSubscriber_broadcast sid d s = (Normal tt, s') →
  ∃ new, invoked s' = invoked s ++ new ∧ (c, d) ∈ new.
Proof.
  intros Hg Hid Hb.
  destruct (broadcast_reach sid d s k c
              (λ s1, ∃ new, invoked s1 = invoked s ++ new ∧ (c, d) ∈ new) s')
    as [H _]; auto.
  - intros s1 s2 (_ & new & Hi) El. simpl in Hi.
    destruct (listen_shell c d (add_invoked (c, d) s1)) as (_&_&_&_&_&Hi'&_).
    rewrite El in Hi'. simpl in Hi'.
    exists (new ++ [(c, d)]). rewrite Hi', Hi, app_assoc. split; [done|].
    apply elem_of_app. right. now apply list_elem_of_singleton.
  - intros c' s1 s2 _ (new & Hi & Hin) El.
    destruct (listen_shell c' d (add_invoked (c', d) s1)) as (_&_&_&_&_&Hi'&_).
    rewrite El in Hi'. simpl in Hi'.
    exists (new ++ [(c', d)]). rewrite Hi', Hi, app_assoc. split; [done|].
    apply elem_of_app. now left.
Qed.

(** ** Broadcasts that run to their end *)

Lemma keys_get k o : k ∈ Obj.keys o → ∃ sl, Obj.get k o = Some sl.
Proof.
  induction o as [|[k' v'] o IH]; simpl; intros Hin.
  - inversion Hin.
  - destruct (decide (k = k')) as [->|Hne]; [now exists v'|].
    apply elem_of_cons in Hin as [Heq|Hin]; [contradiction|]. now apply IH.
Qed.

(** The handler of a ready component returns, whatever object it is
    handed. *)
Lemma listen_ready c fs s :
  ready (heap s c) → ∃ s1, listen c (DObj fs) s = (Normal tt, s1).
Proof.
  unfold ready, listen. intros Hr.
  rewrite (bind_normal (field c comp_role) _ s _ s eq_refl).
  destruct (comp_role (heap s c)).
  - eexists. reflexivity.
  - destruct Hr as [l Hl]. unfold navComponent_listen.
    rewrite (bind_normal (prop (DObj fs) "loggedIn") _ s _ s eq_refl).
    destruct (truthy _); [|eexists; reflexivity].
    unfold navComponent_showLogoutLink.
    rewrite (bind_normal (field c loginLinkElem) _ s _ s eq_refl), Hl.
    eexists. apply classList_remove_at_run.
  - destruct Hr as [[w Hw] [f Hf]]. unfold loginComponent_listen.
    rewrite (bind_normal (prop (DObj fs) "loggingOut") _ s _ s eq_refl).
    destruct (truthy _); [|eexists; reflexivity].
    eexists. exact (logout_run c w f s Hw Hf).
  - destruct Hr as [h Hh]. unfold bannerComponent_listen.
    rewrite (bind_normal (field c headlineElem) _ s _ s eq_refl), Hh.
    rewrite (bind_normal (prop (DObj fs) "username") _ s _ s eq_refl).
    eexists. apply set_textContent_at_run.
Qed.

Lemma broadcast_loop_completes sid fs ks : ∀ s,
  (∀ k, k ∈ ks → k ∈ Obj.keys (components s)) →
  sound_registry s →
  fst (broadcast_loop sid (DObj fs) ks s) = Normal tt.
Proof.
  induction ks as [|k ks IH]; intros s Hks Hs; [reflexivity|].
  simpl. unfold bind.
  destruct (broadcast_step_spec sid (DObj fs) k s) as ((Hc & Hh & _) & _).
  assert (∃ s1, broadcast_step sid (DObj fs) k s = (Normal tt, s1))
    as (s1 & Es).
  { destruct (keys_get k (components s)) as (sl & Hg);
      [apply Hks; now left|].
    destruct (Hs k sl Hg) as (c & -> & Hr).
    unfold broadcast_step, bind, gets, field, modify. simpl.
    unfold Obj.read. rewrite Hg.
    destruct (decide _); [|eexists; reflexivity].
    apply (listen_ready c fs (add_invoked (c, DObj fs) s)). exact Hr. }
  rewrite Es in Hc, Hh |- *. simpl in Hc, Hh. apply IH.
  - intros k' Hk'. rewrite Hc. apply Hks. now right.
  - intros k' sl Hg. rewrite Hc in Hg. rewrite Hh. exact (Hs k' sl Hg).
Qed.

(** On a sound registry every broadcast of an object returns without an
    error. *)
Lemma broadcast_completes sid fs s :
  sound_registry s →
  fst (uiSubscriber_broadcast sid (DObj fs) s) = Normal tt.
Proof.
  intros Hs. unfold uiSubscriber_broadcast, bind, modify, gets. simpl.
  apply broadcast_loop_completes.
  - intros k Hk. simpl. now apply elem_of_reverse.
  - exact Hs.
Qed.

(** ** Login: the notification reaches the navigation bar *)

#[global] Instance shown_kept_preorder l : PreOrder (shown_kept l).
Proof.
  split.
  - intros s. split; [reflexivity | auto].
  - intros s1 s2 s3 [H1 K1] [H2 K2]. split; [etransitivity; eassumption | auto].
Qed.

Lemma keeps_bind_prop {B} (R : state → state → Prop) `{!PreOrder R} d name
    (k : prim → M B) :
  (∀ p, get_field d name = inr p → keeps R (k p)) →
  keeps R (bind (prop d name) k).
Proof.
  intros Hk s. unfold bind, prop.
  destruct (get_field d name) as [e|p] eqn:E; simpl.
  - reflexivity.
  - now apply Hk.
Qed.

Lemma keeps_bind_deref {A B} (R : state → state → Prop) `{!PreOrder R}
    (o : option A) (k : A → M B) :
  (∀ a, o = Some a → keeps R (k a)) →
  keeps R (bind (deref o) k).
Proof.
  intros Hk s. unfold bind. destruct o as [a|]; simpl.
  - now apply Hk.
  - reflexivity.
Qed.

Lemma update_elem_shown l e g :
  (e = l → ∀ x, ¬ hidden x → ¬ hidden (g x)) →
  keeps (shown_kept l) (update_elem e g).
Proof.
  intros Hg s. split; [apply update_elem_shell|].
  unfold update_elem, modify. simpl. intros Hs.
  unfold insert, fn_insert. destruct (decide (e = l)) as [->|]; auto.
Qed.

Lemma classList_remove_at_shown l o t :
  keeps (shown_kept l) (classList_remove_at o t).
Proof.
  unfold classList_remove_at. repeat keeps_step.
  apply update_elem_shown. intros _ x Hx. now apply classList_remove_keeps_out.
Qed.

Lemma set_textContent_at_shown l o v :
  keeps (shown_kept l) (set_textContent_at o v).
Proof.
  unfold set_textContent_at. repeat keeps_step.
  apply update_elem_shown. intros _ x Hx. exact Hx.
Qed.

Lemma classList_add_at_shown l o t :
  o ≠ Some l → keeps (shown_kept l) (classList_add_at o t).
Proof.
  intros Hne. unfold classList_add_at.
  apply keeps_bind_deref; [typeclasses eauto|]. intros e ->.
  apply update_elem_shown. intros ->. now contradict Hne.
Qed.

(** A payload that does not announce a logout hides nothing. *)
Lemma listen_shown l c d :
  (∀ p, get_field d "loggingOut" = inr p → truthy p = false) →
  keeps (shown_kept l) (listen c d).
Proof.
  intros Hd. unfold listen. apply keeps_bind; [typeclasses eauto|keeps_step|].
  intros [].
  - intros s. split; [repeat split | auto].
  - unfold navComponent_listen, navComponent_showLogoutLink.
    keeps_step; [keeps_step|].
    destruct (truthy a);
      repeat first [apply classList_remove_at_shown | keeps_step].
  - unfold loginComponent_listen. apply keeps_bind_prop; [typeclasses eauto|].
    intros p Hp. rewrite (Hd p Hp). keeps_step.
  - unfold bannerComponent_listen.
    repeat first [apply set_textContent_at_shown | keeps_step].
Qed.

(** The handler of a navigation bar reveals its logout link when the
    payload says [loggedIn]. *)
Lemma nav_listen_run c d l s :
  comp_role (heap s c) = RNav → loginLinkElem (heap s c) = Some l →
  get_field d "loggedIn" = inr (PBool true) →
  listen c d s =
  (Normal tt, set_dom (<[l := classList_remove "d-none" (dom s l)]> (dom s)) s).
Proof.
  intros Hr Hl Hd. run_widgets. rewrite Hr. unfold navComponent_listen, prop.
  rewrite Hd. run_widgets. rewrite Hl. reflexivity.
Qed.

Lemma login_run doc v c s a eu n :
  elem (heap s c) = AElem a →
  elem_query doc a "#username" = Some eu →
  value (dom s eu) ≠ "" →
  componentNotifier (heap s c) = Some n →
  loginComponent_login doc v c s =
  (uiSubscriber_broadcast (componentId (heap s c))
     (login_payload v (value (dom s eu)));~
   w <~ field c welcomeElem;
   classList_remove_at w "d-none";~
   w <~ field c welcomeElem;
   set_textContent_at w ("Welcome " +:+ value (dom s eu));~
   f <~ field c formElem;
   classList_add_at f "d-none") s.
Proof.
  intros Ha Hq Hu Hn. unfold loginComponent_login.
  rewrite (bind_normal (field c elem) _ s _ s eq_refl). rewrite Ha.
  rewrite (bind_normal (query doc (AElem a) "#username") _ s _ s eq_refl).
  rewrite Hq.
  rewrite (bind_normal (deref (Some eu)) _ s _ s eq_refl).
  rewrite (bind_normal (gets (λ s0, value (dom s0 eu))) _ s _ s eq_refl).
  apply String.eqb_neq in Hu. rewrite Hu. change (negb false) with true.
  cbv iota.
  rewrite (bind_normal (field c componentNotifier) _ s _ s eq_refl). rewrite Hn.
  rewrite (bind_normal (deref (Some n)) _ s _ s eq_refl).
  rewrite (bind_normal (field c componentId) _ s _ s eq_refl).
  reflexivity.
Qed.

Lemma login_payload_fields v u :
  get_field (login_payload v u) "loggedIn" = inr (PBool true) ∧
  get_field (login_payload v u) "loggingOut" = inr PUndefined ∧
  get_field (login_payload Hardened u) "username" = inr (PStr u).
Proof. repeat split. Qed.

(** C6, as amended.  A login component whose username field holds a
    non-empty string is submitted; a navigation bar with a logout link is
    registered under another identifier; the logout link is not the login
    form.  If the broadcast that [login] makes returns without an error,
    then the handler of the navigation bar was called with the payload,
    whose [loggedIn] field is [true], and at the end of the submit the
    logout link does not carry the class [d-none]. *)
Theorem login_submit_reveals_logout (doc : document) (v : variant)
    (s : state) (cl cn : cref) (a eu l : eref) (k : key) :
  elem (heap s cl) = AElem a →
  elem_query doc a "#username" = Some eu →
  value (dom s eu) ≠ "" →
  componentNotifier (heap s cl) = Some UiSubscriber →
  Obj.get k (components s) = Some (Holds cn) →
  comp_role (heap s cn) = RNav →
  loginLinkElem (heap s cn) = Some l →
  componentId (heap s cn) ≠ componentId (heap s cl) →
  formElem (heap s cl) ≠ Some l →
  fst (uiSubscriber_broadcast (componentId (heap s cl))
         (login_payload v (value (dom s eu))) s) = Normal tt →
  let d := login_payload v (value (dom s eu)) in
  let s' := snd (loginComponent_login doc v cl s) in
  get_field d "loggedIn" = inr (PBool true) ∧
  (∃ new, invoked s' = invoked s ++ new ∧ (cn, d) ∈ new) ∧
  ¬ hidden (dom s' l).
Proof.
  intros Ha Hq Hu Hn Hg Hrole Hlink Hid Hform Hdone. cbv zeta.
  split; [apply login_payload_fields|].
  rewrite (login_run doc v cl s a eu UiSubscriber Ha Hq Hu Hn).
  set (sid := componentId (heap s cl)) in *.
  set (d := login_payload v (value (dom s eu))) in *.
  destruct (uiSubscriber_broadcast sid d s) as [[[]|e] s1] eqn:Eb;
    [|discriminate].
  destruct (broadcast_reach sid d s k cn (notified_and_shown s cn d l) s1)
    as [[Hinv Hshown] ((_ & Hheap & _) & _)]; auto.
  { intros s2 s3 ((Hc & Hh & _) & new & Hi) El. simpl in Hh, Hi.
    rewrite (nav_listen_run cn d l) in El.
    - inversion El; subst s3; clear El. split.
      + exists (new ++ [(cn, d)]). simpl. rewrite Hi, app_assoc.
        split; [done|]. apply elem_of_app. right.
        now apply list_elem_of_singleton.
      + simpl. rewrite fn_lookup_insert. apply classList_remove_out.
    - simpl. now rewrite Hh.
    - simpl. now rewrite Hh.
    - apply login_payload_fields. }
  { intros c' s2 s3 _ [(new & Hi & Hin) Hs] El.
    assert (∀ p, get_field d "loggingOut" = inr p → truthy p = false) as Hd.
    { intros p Hp. unfold d in Hp. simpl in Hp. now inversion Hp. }
    destruct (listen_shown l c' d Hd (add_invoked (c', d) s2))
      as ((_&_&_&_&_&Hi'&_) & Hs').
    rewrite El in Hi', Hs'. simpl in Hi', Hs'. split.
    - exists (new ++ [(c', d)]). rewrite Hi', Hi, app_assoc.
      split; [done|]. apply elem_of_app. now left.
    - now apply Hs'. }
  simpl in Hheap.
  rewrite (bind_normal _ _ _ _ _ Eb).
  match goal with |- context [snd (?m s1)] =>
    assert (shown_kept l s1 (snd (m s1))) as ((_&_&_&_&_&Hi'&_) & Hs')
  end.
  { generalize s1 (eq_ind_r (λ h, formElem (h cl) ≠ Some l) Hform Hheap).
    change (keeps_from (λ s2, formElem (heap s2 cl) ≠ Some l) (shown_kept l)
      (w <~ field cl welcomeElem;
       classList_remove_at w "d-none";~
       w0 <~ field cl welcomeElem;
       set_textContent_at w0 ("Welcome " +:+ value (dom s eu));~
       f <~ field cl formElem;
       classList_add_at f "d-none")).
    assert (∀ s2 s3, formElem (heap s2 cl) ≠ Some l →
                     shown_kept l s2 s3 →
                     formElem (heap s3 cl) ≠ Some l) as Hstable.
    { intros s2 s3 H2 ((_ & Hh & _) & _). now rewrite Hh. }
    repeat first
      [ apply keeps_from_any; apply classList_remove_at_shown
      | apply keeps_from_any; apply set_textContent_at_shown
      | apply keeps_from_any; apply keeps_field; typeclasses eauto
      | match goal with
        | |- keeps_from _ _ (bind (field _ formElem) _) => fail 1
        | _ => apply keeps_from_bind;
                 [typeclasses eauto | exact Hstable | | intros ?]
        end ].
    intros s2 H2. unfold bind, field, gets. simpl.
    apply (keeps_apply (shown_kept l)
             (classList_add_at (formElem (heap s2 cl)) "d-none") s2).
    now apply classList_add_at_shown. }
  split.
  - rewrite Hi'. exact Hinv.
  - now apply Hs'.
Qed.

(** "bob" submits the login form of the sample page, hardened revision. *)
Lemma login_submit_reveals_logout_witness :
  let s := Sample.booted true Hardened "bob" in
  let d := login_payload Hardened (value (dom s 4%nat)) in
  let s' := snd (loginComponent_login (Sample.page true) Hardened 1%nat s) in
  (elem (heap s 1%nat) = AElem 2%nat ∧
   elem_query (Sample.page true) 2%nat "#username" = Some 4%nat ∧
   value (dom s 4%nat) ≠ "" ∧
   componentNotifier (heap s 1%nat) = Some UiSubscriber ∧
   Obj.get (Some 1000) (components s) = Some (Holds 0%nat) ∧
   comp_role (heap s 0%nat) = RNav ∧
   loginLinkElem (heap s 0%nat) = Some 1%nat ∧
   componentId (heap s 0%nat) ≠ componentId (heap s 1%nat) ∧
   formElem (heap s 1%nat) ≠ Some 1%nat ∧
   fst (uiSubscriber_broadcast (componentId (heap s 1%nat)) d s)
   = Normal tt) ∧
  get_field d "loggedIn" = inr (PBool true) ∧
  (∃ new, invoked s' = invoked s ++ new ∧ (0%nat, d) ∈ new) ∧
  ¬ hidden (dom s' 1%nat).
Proof.
  assert (value (dom (Sample.booted true Hardened "bob") 4%nat) ≠ "") as Hu.
  { vm_compute. discriminate. }
  assert (componentId (heap (Sample.booted true Hardened "bob") 0%nat) ≠
          componentId (heap (Sample.booted true Hardened "bob") 1%nat)) as Hid.
  { vm_compute. discriminate. }
  assert (formElem (heap (Sample.booted true Hardened "bob") 1%nat) ≠
          Some 1%nat) as Hf.
  { vm_compute. discriminate. }
  split.
  - repeat (split; [first [assumption | vm_compute; reflexivity]|]).
    vm_compute. reflexivity.
  - apply (login_submit_reveals_logout (Sample.page true) Hardened
             (Sample.booted true Hardened "bob") 1%nat 0%nat 2%nat 4%nat
             1%nat (Some 1000));
      first [assumption | vm_compute; reflexivity].
Defined.

(** C6.  The claim as stated fails.  On a page whose banner has no [h1],
    the navigation bar (identifier 1000) and the login box (3250) are
    registered and "bob" is submitted: the broadcast visits the banner
    (5500) first, whose handler throws on its missing headline, so the
    handler of the navigation bar is never called and the logout link
    keeps the class [d-none]. *)
Lemma login_submit_reveals_logout_fails :
  let s := Sample.booted false Hardened "bob" in
  let d := login_payload Hardened "bob" in
  let s' := snd (loginComponent_login (Sample.page false) Hardened 1%nat s) in
  (Obj.get (Some 1000) (components s) = Some (Holds 0%nat) ∧
   comp_role (heap s 0%nat) = RNav ∧
   loginLinkElem (heap s 0%nat) = Some 1%nat ∧
   Obj.get (Some 3250) (components s) = Some (Holds 1%nat) ∧
   comp_role (heap s 1%nat) = RLogin ∧
   value (dom s 4%nat) = "bob") ∧
  fst (loginComponent_login (Sample.page false) Hardened 1%nat s)
  = Throw TypeError ∧
  invoked s' = [(2%nat, d)] ∧
  ¬ ((0%nat, d) ∈ invoked s') ∧
  hidden (dom s' 1%nat).
Proof.
  split.
  { repeat (split; [vm_compute; reflexivity|]). vm_compute. reflexivity. }
  split; [vm_compute; reflexivity|]. split; [vm_compute; reflexivity|]. split.
  - vm_compute. intros H. apply list_elem_of_singleton in H. discriminate H.
  - vm_compute. apply list_elem_of_here.
Qed.

(** ** Logout: the notification reaches the login box *)





Lemma sample_single_part : single_part (Sample.booted true Hardened "bob").
Proof.
  intros c c' x p p' H H'.
  destruct c as [|[|[|c]]], c' as [|[|[|c']]];
    destruct p, p'; try reflexivity; exfalso;
    vm_compute in H, H'; congruence.
Qed.



(** ** Login: the payload and the welcome region *)

(** Whatever the broadcast meets, [login] records one broadcast, sent under
    the component's identifier with the payload of the revision. *)
Lemma login_broadcasts doc v c s a eu n :
  elem (heap s c) = AElem a →
  elem_query doc a "#username" = Some eu →
  value (dom s eu) ≠ "" →
  componentNotifier (heap s c) = Some n →
  broadcasts (snd (loginComponent_login doc v c s)) =
  broadcasts s ++ [(componentId (heap s c),
                    login_payload v (value (dom s eu)))].
Proof.
  intros Ha Hq Hu Hn. rewrite (login_run doc v c s a eu n Ha Hq Hu Hn).
  set (sid := componentId (heap s c)).
  set (d := login_payload v (value (dom s eu))).
  assert (broadcasts (snd (uiSubscriber_broadcast sid d s))
          = broadcasts s ++ [(sid, d)]) as Hb.
  { unfold uiSubscriber_broadcast, bind, modify, gets. simpl.
    destruct (broadcast_loop_spec sid d (reverse (Obj.keys (components s)))
                (add_broadcast (sid, d) s)) as ((_&_&_&_&Hb&_) & _).
    exact Hb. }
  unfold bind at 1.
  destruct (uiSubscriber_broadcast sid d s) as [[[]|e] s1]; simpl in *;
    [|exact Hb].
  match goal with |- broadcasts (snd (?m s1)) = _ =>
    assert (same_shell s1 (snd (m s1))) as (_&_&_&_&Hb'&_)
  end.
  { apply keeps_apply.
    repeat first [ apply classList_remove_at_shell
                 | apply set_textContent_at_shell
                 | apply classList_add_at_shell
                 | keeps_step ]. }
  now rewrite Hb'.
Qed.

(** C3.  The claim fails on the original revision.  Whatever non-empty
    string the username field holds, the payload [login] broadcasts there
    names the user "Zakir"; the hardened revision names the user typed
    in. *)
Theorem login_original_names_zakir (doc : document) (s : state) (c : cref)
    (a eu : eref) :
  elem (heap s c) = AElem a →
  elem_query doc a "#username" = Some eu →
  value (dom s eu) ≠ "" →
  componentNotifier (heap s c) = Some UiSubscriber →
  broadcasts (snd (loginComponent_login doc Original c s)) =
  broadcasts s ++ [(componentId (heap s c),
                    DObj [("username", PStr "Zakir");
                          ("loggedIn", PBool true)])].
Proof.
  intros Ha Hq Hu Hn.
  exact (login_broadcasts doc Original c s a eu UiSubscriber Ha Hq Hu Hn).
Qed.

(** "bob" submits the login form of the sample page, original revision. *)
Lemma login_original_names_zakir_witness :
  let s := Sample.booted true Original "bob" in
  (elem (heap s 1%nat) = AElem 2%nat ∧
   elem_query (Sample.page true) 2%nat "#username" = Some 4%nat ∧
   value (dom s 4%nat) = "bob" ∧
   value (dom s 4%nat) ≠ "" ∧
   componentNotifier (heap s 1%nat) = Some UiSubscriber) ∧
  broadcasts (snd (loginComponent_login (Sample.page true) Original 1%nat s)) =
  broadcasts s ++ [(componentId (heap s 1%nat),
                    DObj [("username", PStr "Zakir");
                          ("loggedIn", PBool true)])].
Proof.
  assert (value (dom (Sample.booted true Original "bob") 4%nat) ≠ "") as Hu.
  { vm_compute. discriminate. }
  split.
  - repeat (split; [first [assumption | vm_compute; reflexivity]|]).
    vm_compute. reflexivity.
  - apply (login_original_names_zakir (Sample.page true)
             (Sample.booted true Original "bob") 1%nat 2%nat 4%nat);
      first [assumption | vm_compute; reflexivity].
Defined.

Lemma welcome_run c w f u s :
  welcomeElem (heap s c) = Some w → formElem (heap s c) = Some f →
  (w0 <~ field c welcomeElem;
   classList_remove_at w0 "d-none";~
   w1 <~ field c welcomeElem;
   set_textContent_at w1 ("Welcome " +:+ u);~
   f0 <~ field c formElem;
   classList_add_at f0 "d-none") s =
  (Normal tt, set_dom (welcome_dom w f u (dom s)) s).
Proof.
  intros Hw Hf. unfold bind, field, gets. simpl. rewrite Hw. simpl.
  rewrite Hw. simpl. rewrite Hf. reflexivity.
Qed.

(** The hardened revision does what the claim of C3 says whenever the
    broadcast returns: the payload names the user, the welcome region
    greets the user and is shown, the form is hidden. *)
Lemma login_hardened_submit (doc : document) (s : state) (c : cref)
    (a eu w f : eref) :
  elem (heap s c) = AElem a →
  elem_query doc a "#username" = Some eu →
  value (dom s eu) ≠ "" →
  componentNotifier (heap s c) = Some UiSubscriber →
  welcomeElem (heap s c) = Some w →
  formElem (heap s c) = Some f →
  w ≠ f →
  fst (uiSubscriber_broadcast (componentId (heap s c))
         (login_payload Hardened (value (dom s eu))) s) = Normal tt →
  let u := value (dom s eu) in
  let s' := snd (loginComponent_login doc Hardened c s) in
  fst (loginComponent_login doc Hardened c s) = Normal tt ∧
  broadcasts s' =
    broadcasts s ++ [(componentId (heap s c),
                      DObj [("username", PStr u);
                            ("loggedIn", PBool true)])] ∧
  textContent (dom s' w) = "Welcome " +:+ u ∧
  ¬ hidden (dom s' w) ∧
  hidden (dom s' f).
Proof.
  intros Ha Hq Hu Hn Hw Hf Hwf Hdone. cbv zeta.
  split;
    [|split; [exact (login_broadcasts doc Hardened c s a eu _ Ha Hq Hu Hn)|]].
  all: rewrite (login_run doc Hardened c s a eu _ Ha Hq Hu Hn).
  all: set (sid := componentId (heap s c)) in *.
  all: set (d := login_payload Hardened (value (dom s eu))) in *.
  all: destruct (broadcast_loop_spec sid d (reverse (Obj.keys (components s)))
                (add_broadcast (sid, d) s)) as ((_ & Hh & _) & _).
  all: assert (heap (snd (uiSubscriber_broadcast sid d s)) = heap s) as Hheap
         by exact Hh; clear Hh.
  all: destruct (uiSubscriber_broadcast sid d s) as [[[]|e] s1] eqn:Eb;
    [|discriminate].
  all: simpl in Hheap; rewrite (bind_normal _ _ _ _ _ Eb).
  all: rewrite (welcome_run c w f _ s1) by (now rewrite Hheap).
  - reflexivity.
  - simpl. unfold welcome_dom, hidden.
    rewrite !(fn_lookup_insert_ne _ f w) by congruence.
    rewrite !fn_lookup_insert. split; [reflexivity|]. split.
    + simpl. apply classList_remove_out.
    + apply classList_add_in.
Qed.

(** ** The banner's content *)

(** C8.  The fetch resolves with an ok response whose JSON is an object
    with the strings [h] and [ct] under [headline] and [content]; the
    banner has a headline element and a content element, two different
    elements.  Then the callbacks run to their end, the headline's text is
    exactly [h] and the content's text exactly [ct]. *)
Theorem loadContent_ok (s : state) (c : cref) (eh ec : eref)
    (res : Fetch.response) (fs : list (string * prim)) (h ct : string) :
  headlineElem (heap s c) = Some eh →
  contentElem (heap s c) = Some ec →
  eh ≠ ec →
  Fetch.ok res = true →
  Fetch.json res = Fetch.Fulfilled (DObj fs) →
  lookup_field "headline" fs = PStr h →
  lookup_field "content" fs = PStr ct →
  let s' := snd (bannerComponent_loadContent c (Fetch.Fulfilled res) s) in
  fst (bannerComponent_loadContent c (Fetch.Fulfilled res) s)
  = Fetch.Fulfilled tt ∧
  textContent (dom s' eh) = h ∧
  textContent (dom s' ec) = ct.
Proof.
  intros Hh Hc Hne Hok Hjson Hfh Hfc. cbv zeta.
  unfold bannerComponent_loadContent, Fetch.result. rewrite Hok, Hjson.
  set (D1 := <[eh := set_textContent h (dom s eh)]> (dom s)).
  assert (Fetch.populate c (DObj fs) s =
          (Normal tt, set_dom (<[ec := set_textContent ct (D1 ec)]> D1) s))
    as ->.
  { unfold Fetch.populate, bind, field, gets, prop, get_field. simpl.
    rewrite Hh, Hfh. simpl. rewrite Hc, Hfc. reflexivity. }
  simpl. split; [reflexivity|]. split.
  - rewrite fn_lookup_insert_ne by congruence. unfold D1.
    now rewrite fn_lookup_insert.
  - now rewrite fn_lookup_insert.
Qed.

(** The banner of the sample page receives the post. *)
Lemma loadContent_ok_witness :
  let s := Sample.booted true Hardened "bob" in
  let s' := snd (bannerComponent_loadContent 2%nat
                   (Fetch.Fulfilled Sample.post) s) in
  (headlineElem (heap s 2%nat) = Some 7%nat ∧
   contentElem (heap s 2%nat) = Some 8%nat ∧
   7%nat ≠ 8%nat ∧
   Fetch.ok Sample.post = true ∧
   Fetch.json Sample.post =
     Fetch.Fulfilled
       (DObj [("headline", PStr "News"); ("content", PStr "Read on")]) ∧
   lookup_field "headline"
     [("headline", PStr "News"); ("content", PStr "Read on")] = PStr "News" ∧
   lookup_field "content"
     [("headline", PStr "News"); ("content", PStr "Read on")]
     = PStr "Read on") ∧
  fst (bannerComponent_loadContent 2%nat (Fetch.Fulfilled Sample.post) s)
    = Fetch.Fulfilled tt ∧
  textContent (dom s' 7%nat) = "News" ∧
  textContent (dom s' 8%nat) = "Read on".
Proof.
  split.
  - repeat (split; [first [discriminate | vm_compute; reflexivity]|]).
    vm_compute. reflexivity.
  - apply (loadContent_ok (Sample.booted true Hardened "bob") 2%nat 7%nat
             8%nat Sample.post
             [("headline", PStr "News"); ("content", PStr "Read on")]
             "News" "Read on");
      first [discriminate | vm_compute; reflexivity].
Defined.

(** C9.  The claim fails on the code in its second half.  The fetch
    resolves with a response that is not ok.  The guard [if (res.ok)] makes
    the first callback return nothing, but it does not cover the second
    callback, which reads [headline] of [undefined] before it assigns
    anything: instead of ending quietly, the chain ends with its last
    promise rejected with a TypeError, and the source attaches no handler
    to that promise, so the rejection is left to the host.  The first half
    of the claim holds: the state is left as it was, the headline and the
    content keep their text, nothing is written to the console, nothing is
    reported to the error collector, no handler is called and the registry
    is untouched. *)
Theorem loadContent_not_ok (s : state) (c : cref) (res : Fetch.response) :
  Fetch.ok res = false →
  bannerComponent_loadContent c (Fetch.Fulfilled res) s
  = (Fetch.Rejected TypeError, s) ∧
  (∀ e, textContent
          (dom (snd (bannerComponent_loadContent c (Fetch.Fulfilled res) s)) e)
        = textContent (dom s e)).
Proof.
  intros Hok.
  assert (bannerComponent_loadContent c (Fetch.Fulfilled res) s
          = (Fetch.Rejected TypeError, s)) as E.
  { unfold bannerComponent_loadContent, Fetch.result. rewrite Hok.
    reflexivity. }
  rewrite E. split; reflexivity.
Qed.

(** The banner of the sample page receives a 404. *)
Lemma loadContent_not_ok_witness :
  let s := Sample.booted true Hardened "bob" in
  Fetch.ok Sample.not_found = false ∧
  bannerComponent_loadContent 2%nat (Fetch.Fulfilled Sample.not_found) s
    = (Fetch.Rejected TypeError, s) ∧
  (∀ e, textContent
          (dom (snd (bannerComponent_loadContent 2%nat
                       (Fetch.Fulfilled Sample.not_found) s)) e)
        = textContent (dom s e)).
Proof.
  split; [reflexivity|].
  apply (loadContent_not_ok (Sample.booted true Hardened "bob") 2%nat
           Sample.not_found).
  reflexivity.
Defined.

(** ** Identifiers *)

Lemma digits2_size p : digits2_pos p = Pos.size p.
Proof. induction p; simpl; congruence. Qed.

Lemma digits2_bound p n : 0 ≤ n → Z.pos p < 2 ^ n → Z.pos (digits2_pos p) ≤ n.
Proof.
  intros Hn Hp. rewrite digits2_size.
  destruct (Z_lt_le_dec n (Z.pos (Pos.size p))) as [Hlt|Hle]; [|exact Hle].
  exfalso.
  assert (2 ^ Z.pos (Pos.size p) ≤ 2 * Z.pos p) as Hs.
  { pose proof (Pos.size_le p) as H. apply Pos2Z.pos_le_pos in H.
    rewrite Pos2Z.inj_pow in H. exact H. }
  assert (2 ^ (n + 1) ≤ 2 ^ Z.pos (Pos.size p)) as Hm
    by (apply Z.pow_le_mono_r; lia).
  rewrite Z.pow_add_r in Hm by lia. lia.
Qed.

Lemma Zdigits2_bound x n : 0 ≤ n → 0 ≤ x < 2 ^ n → Zdigits2 x ≤ n.
Proof.
  intros Hn [H0 Hx]. destruct x as [|p|p]; simpl; [lia| |lia].
  now apply digits2_bound.
Qed.

Lemma shr_1_shifted mrs : 0 ≤ shr_m mrs → shifted 1 (shr_m mrs) (shr_1 mrs).
Proof.
  destruct mrs as [m r s]. simpl. intros Hm. unfold shifted.
  change (2 ^ 1) with 2. change (2 ^ (1 - 1)) with 1.
  destruct m as [|[p|p|]|]; simpl shr_m; simpl shr_r; try lia;
    (split; [|intros Hr; try discriminate Hr]);
    Z.div_mod_to_equations; lia.
Qed.

Lemma shifted_compose a b m y z :
  0 ≤ m → 1 ≤ a → 1 ≤ b →
  shifted a m y → shifted b (shr_m y) z → shifted (a + b) m z.
Proof.
  intros Hm Ha Hb [Hy _] [Hz Hr]. rewrite Hy in Hz, Hr.
  assert (0 < 2 ^ a) by (apply Z.pow_pos_nonneg; lia).
  assert (0 < 2 ^ b) by (apply Z.pow_pos_nonneg; lia).
  unfold shifted. rewrite Z.pow_add_r by lia. split.
  - rewrite Hz. apply Z.div_div; lia.
  - intros Hrz. specialize (Hr Hrz).
    rewrite Z.rem_mul_r by lia.
    replace (a + b - 1) with (a + (b - 1)) by lia.
    rewrite Z.pow_add_r by lia.
    pose proof (Z.mod_pos_bound m (2 ^ a)). nia.
Qed.

Lemma shifted_nonneg k m mrs : 0 ≤ m → 0 ≤ k → shifted k m mrs → 0 ≤ shr_m mrs.
Proof.
  intros Hm Hk [-> _]. apply Z.div_pos; [lia|]. apply Z.pow_pos_nonneg; lia.
Qed.

Lemma iter_pos_shifted p : ∀ mrs,
  0 ≤ shr_m mrs →
  shifted (Z.pos p) (shr_m mrs) (SpecFloat.iter_pos shr_1 p mrs).
Proof.
  induction p as [p IH|p IH|]; intros mrs Hm; simpl.
  - replace (Z.pos p~1) with (1 + (Z.pos p + Z.pos p)) by lia.
    pose proof (shr_1_shifted mrs Hm) as H1.
    assert (0 ≤ shr_m (shr_1 mrs)) as Hm1
      by (eapply (shifted_nonneg 1); [exact Hm | lia | exact H1]).
    pose proof (IH _ Hm1) as H2.
    assert (0 ≤ shr_m (SpecFloat.iter_pos shr_1 p (shr_1 mrs))) as Hm2
      by (eapply (shifted_nonneg (Z.pos p)); [exact Hm1 | lia | exact H2]).
    pose proof (IH _ Hm2) as H3.
    eapply shifted_compose; [lia|lia|lia|exact H1|].
    eapply shifted_compose; [lia|lia|lia|exact H2|exact H3].
  - replace (Z.pos p~0) with (Z.pos p + Z.pos p) by lia.
    pose proof (IH _ Hm) as H2.
    assert (0 ≤ shr_m (SpecFloat.iter_pos shr_1 p mrs)) as Hm2
      by (eapply (shifted_nonneg (Z.pos p)); [exact Hm | lia | exact H2]).
    pose proof (IH _ Hm2) as H3.
    eapply shifted_compose; [lia|lia|lia|exact H2|exact H3].
  - now apply shr_1_shifted.
Qed.

(** The first shift of [binary_round_aux] followed by the rounding to
    nearest even: at most half a unit of the last place is added. *)
Lemma shr_round m e n :
  0 ≤ m →
  let mrs := fst (shr (Build_shr_record m false false) e n) in
  let e' := snd (shr (Build_shr_record m false false) e n) in
  let q := round_nearest_even (shr_m mrs) (loc_of_shr_record mrs) in
  let k := Z.max 0 n in
  e' = e + k ∧ 0 ≤ q ∧ 2 * (q * 2 ^ k) ≤ 2 * m + 2 ^ k ∧ q ≤ m + 1 ∧
  shr_m mrs = m / 2 ^ k.
Proof.
  intros Hm. destruct n as [|p|p]; simpl.
  - change (Z.max 0 0) with 0. change (2 ^ 0) with 1. rewrite Z.div_1_r.
    repeat split; lia.
  - pose proof (iter_pos_shifted p (Build_shr_record m false false) Hm)
      as [Hq Hr]. simpl in Hq, Hr.
    assert (0 < 2 ^ Z.pos p) as Hpow by (apply Z.pow_pos_nonneg; lia).
    pose proof (Z.div_mod m (2 ^ Z.pos p) ltac:(lia)) as Hdm.
    pose proof (Z.mod_pos_bound m (2 ^ Z.pos p) Hpow) as Hmod.
    assert (2 * 2 ^ (Z.pos p - 1) = 2 ^ Z.pos p) as Hhalf.
    { rewrite <- Z.pow_succ_r by lia. f_equal. lia. }
    assert (0 ≤ m / 2 ^ Z.pos p) as Hq0 by (apply Z.div_pos; lia).
    assert (m / 2 ^ Z.pos p ≤ m) as Hqm.
    { apply Z.div_le_upper_bound; [lia|]. nia. }
    destruct (SpecFloat.iter_pos shr_1 p (Build_shr_record m false false))
      as [q r s]. simpl in *. subst q.
    replace (Z.max 0 (Z.pos p)) with (Z.pos p) by lia.
    generalize dependent (m / 2 ^ Z.pos p). intros q.
    generalize dependent (m mod 2 ^ Z.pos p). intros rem.
    generalize dependent (2 ^ (Z.pos p - 1)). intros half.
    generalize dependent (2 ^ Z.pos p). intros pw. intros.
    split; [lia|].
    destruct r, s; simpl; try destruct (Z.even q);
      try specialize (Hr eq_refl); repeat split; try lia; nia.
  - change (Z.max 0 (Z.neg p)) with 0. change (2 ^ 0) with 1.
    rewrite Z.div_1_r. repeat split; lia.
Qed.

Lemma digits2_lower p : Z.pos p < 2 ^ Z.pos (digits2_pos p).
Proof.
  rewrite digits2_size. pose proof (Pos.size_gt p) as H.
  apply Pos2Z.pos_lt_pos in H. now rewrite Pos2Z.inj_pow in H.
Qed.

Lemma unit_double_inv r :
  Num.unit_double r = true →
  (∃ s, r = S754_zero s) ∨
  (∃ m e, r = S754_finite false m e ∧ -1074 ≤ e ≤ -52 ∧
          Z.pos m < 2 ^ 53 ∧ Z.pos m < 2 ^ (- e)).
Proof.
  unfold Num.unit_double. intros H.
  apply andb_true_iff in H as [H Hlt]. apply andb_true_iff in H as [Hv Hle].
  destruct r as [s|s| |s m e].
  - left. now exists s.
  - destruct s; discriminate.
  - discriminate.
  - right. destruct s; [discriminate|]. exists m, e. split; [reflexivity|].
    simpl in Hv. unfold bounded, canonical_mantissa, fexp, emin in Hv.
    apply andb_true_iff in Hv as [Hc _]. apply Z.eqb_eq in Hc.
    unfold Num.prec, Num.emax in Hc.
    assert (Z.pos m < 2 ^ 53) as Hm.
    { pose proof (digits2_lower m) as Hd.
      assert (2 ^ Z.pos (digits2_pos m) ≤ 2 ^ 53)
        by (apply Z.pow_le_mono_r; lia).
      lia. }
    unfold SFltb, SFcompare, Num.one in Hlt.
    destruct (e ?= -52) eqn:Ec; try discriminate.
    + apply Z.compare_eq in Ec. subst e.
      assert (Z.pos m < 4503599627370496) as Hm'.
      { apply Pos2Z.pos_lt_pos, Pos.compare_lt_iff.
        destruct (Pos.compare_cont Eq m 4503599627370496) eqn:Ecmp;
          try discriminate Hlt. exact Ecmp. }
      clear Hlt Hle.
      split; [lia|]. split; [exact Hm|].
      change (2 ^ (- -52)) with 4503599627370496. lia.
    + change (e < -52) in Ec. clear Hlt Hle. split; [lia|]. split; [exact Hm|].
      assert (2 ^ 53 ≤ 2 ^ (- e)) by (apply Z.pow_le_mono_r; lia). lia.
Qed.

Lemma product_bound m e :
  -1074 ≤ e ≤ -52 → Z.pos m < 2 ^ 53 → Z.pos m < 2 ^ (- e) →
  match SFmul Num.prec Num.emax (S754_finite false m e) Num.nine_thousand with
  | S754_zero _ => True
  | S754_finite s q e' =>
      s = false ∧ 0 ≤ Num.Math_floor (S754_finite s q e') < 9000
  | _ => False
  end.
Proof.
  intros He Hm Hme. unfold SFmul, Num.nine_thousand. simpl xorb.
  unfold binary_round_aux, shr_fexp. simpl shr_record_of_loc.
  set (M := Z.pos (m * 4947802324992000)).
  set (E := e + -39).
  assert (M = Z.pos m * 4947802324992000) as HM
    by (unfold M; apply Pos2Z.inj_mul).
  assert (0 ≤ M < 2 ^ 106) as HM106.
  { change (2 ^ 106) with (2 ^ 53 * 2 ^ 53). 
    assert (4947802324992000 < 2 ^ 53) by reflexivity. nia. }
  set (n1 := fexp Num.prec Num.emax (Zdigits2 M + E) - E).
  pose proof (shr_round M E n1 ltac:(lia)) as H1. cbv zeta in H1.
  destruct (shr (Build_shr_record M false false) E n1) as [mrs1 e1].
  simpl fst in H1; simpl snd in H1.
  set (q1 := round_nearest_even (shr_m mrs1) (loc_of_shr_record mrs1)) in *.
  destruct H1 as (He1 & Hq1 & Hq1M & Hq1le & _).
  set (n2 := fexp Num.prec Num.emax (Zdigits2 q1 + e1) - e1).
  pose proof (shr_round q1 e1 n2 Hq1) as H2. cbv zeta in H2.
  destruct (shr (Build_shr_record q1 false false) e1 n2) as [mrs2 e2].
  simpl fst in H2; simpl snd in H2.
  destruct H2 as (He2 & _ & _ & _ & Hq2).
  set (k1 := Z.max 0 n1) in *. set (k2 := Z.max 0 n2) in *.
  assert (Zdigits2 M ≤ 106) as HdM by (apply Zdigits2_bound; lia).
  assert (0 ≤ Zdigits2 M) as HdM0.
  { unfold M. simpl. lia. }
  assert (0 ≤ k1 ≤ 53) as Hk1.
  { unfold k1, n1, fexp, emin, Num.prec, Num.emax, E. lia. }
  assert (Zdigits2 q1 ≤ 107) as Hdq.
  { apply Zdigits2_bound; [lia|]. 
    change (2 ^ 107) with (2 * 2 ^ 106). lia. }
  assert (0 ≤ Zdigits2 q1) as Hdq0.
  { destruct q1; simpl; lia. }
  assert (0 ≤ k2 ≤ 54) as Hk2.
  { unfold k2, n2, fexp, emin, Num.prec, Num.emax. unfold E in He1. lia. }
  assert (e2 = e - 39 + k1 + k2) as He2' by (unfold E in He1; lia).
  assert (0 < 2 ^ k1) as Hp1 by (apply Z.pow_pos_nonneg; lia).
  assert (0 < 2 ^ k2) as Hp2 by (apply Z.pow_pos_nonneg; lia).
  assert (2 ^ k1 ≤ 2 ^ 53) as Hp1' by (apply Z.pow_le_mono_r; lia).
  assert (shr_m mrs2 * 2 ^ k2 ≤ q1) as Hq2'.
  { rewrite Hq2. pose proof (Z.div_mod q1 (2 ^ k2) ltac:(lia)).
    pose proof (Z.mod_pos_bound q1 (2 ^ k2) Hp2). nia. }
  assert (0 ≤ shr_m mrs2) as Hq20.
  { rewrite Hq2. apply Z.div_pos; lia. }
  assert (0 < 2 ^ (- e)) as Hpe by (apply Z.pow_pos_nonneg; lia).
  assert (shr_m mrs2 * (2 ^ k1 * 2 ^ k2) < 4947802324992000 * 2 ^ (- e))
    as Hmain.
  { change (2 ^ 53) with 9007199254740992 in Hp1'. nia. }
  destruct (shr_m mrs2) as [|q|q] eqn:Eq2; [exact I| |lia].
  assert (e2 ≤ 971) as He971 by lia.
  apply Z.leb_le in He971. change (Num.emax - Num.prec) with 971.
  rewrite He971. split; [reflexivity|].
  unfold Num.Math_floor.
  destruct (0 <=? e2) eqn:Ee2.
  - apply Z.leb_le in Ee2. 
    assert (0 < 2 ^ e2) by (apply Z.pow_pos_nonneg; lia).
    split; [lia|].
    assert (2 ^ k1 * 2 ^ k2 = 2 ^ e2 * 2 ^ (39 - e)) as Hsplit.
    { rewrite <- !Z.pow_add_r by lia. f_equal. lia. }
    assert (2 ^ (39 - e) = 549755813888 * 2 ^ (- e)) as H39.
    { replace (39 - e) with (39 + - e) by lia. rewrite Z.pow_add_r by lia.
      reflexivity. }
    rewrite Hsplit, H39 in Hmain. nia.
  - apply Z.leb_gt in Ee2.
    assert (0 < 2 ^ (- e2)) by (apply Z.pow_pos_nonneg; lia).
    split; [apply Z.div_pos; lia|].
    apply Z.div_lt_upper_bound; [lia|].
    assert (2 ^ k1 * 2 ^ k2 * 2 ^ (- e2) = 2 ^ (39 - e)) as Hsplit.
    { rewrite <- !Z.pow_add_r by lia. f_equal. lia. }
    assert (2 ^ (39 - e) = 549755813888 * 2 ^ (- e)) as H39.
    { replace (39 - e) with (39 + - e) by lia. rewrite Z.pow_add_r by lia.
      reflexivity. }
    rewrite H39 in Hsplit.
    assert (0 < 2 ^ k1 * 2 ^ k2) by nia.
    nia.
Qed.

Lemma random_id_range r :
  Num.unit_double r = true → 1000 ≤ Num.random_id r ≤ 9999.
Proof.
  intros H. unfold Num.random_id.
  destruct (unit_double_inv r H) as [[s ->] | (m & e & -> & He & Hm & Hme)].
  - simpl. lia.
  - pose proof (product_bound m e He Hm Hme) as Hp.
    destruct (SFmul Num.prec Num.emax (S754_finite false m e) Num.nine_thousand)
      as [s|s| |s q e']; try contradiction.
    + simpl. lia.
    + destruct Hp as [_ Hp]. lia.
Qed.

Lemma register_run c el r s :
  ∃ s1, register c el r s = (Normal tt, s1) ∧
        componentId (heap s1 c) = Some (Num.random_id r).
Proof.
  unfold register, update_comp, uiSubscriber_subscribe, bind, modify, field,
    gets, deref.
  simpl. rewrite !fn_lookup_insert. simpl.
  destruct (Obj.read _ _); simpl; eexists; (split; [reflexivity|]); simpl;
    now rewrite fn_lookup_insert.
Qed.

Lemma initComponent_run v c el r s :
  (v = Hardened → absent el = false) →
  ∃ s1, uiComponent_initComponent v c el r s = (Normal tt, s1) ∧
        componentId (heap s1 c) = Some (Num.random_id r).
Proof.
  intros Hel. destruct (register_run c el r s) as (s1 & Hr & Hid).
  exists s1. split; [|exact Hid].
  destruct v; simpl; [exact Hr|].
  unfold try_catch. rewrite (Hel eq_refl), Hr. reflexivity.
Qed.

(** C10.  [r] is a double in [0, 1), as [Math.random()] returns.  Whenever
    [init] gets as far as drawing an identifier — always in the original
    revision, for an anchor that is an element in the hardened one — the
    component ends with a [componentId] that is an integer between 1000
    and 9999, for every role and every state. *)
Theorem init_identifier_range (doc : document) (v : variant) (s : state)
    (c : cref) (el : anchor) (r : spec_float) :
  Num.unit_double r = true →
  (v = Hardened → absent el = false) →
  ∃ n, componentId (heap (snd (init doc v c el r s)) c) = Some n ∧
       1000 ≤ n ≤ 9999.
Proof.
  intros Hr Hel.
  destruct (initComponent_run v c el r s Hel) as (s1 & Hi & Hid).
  destruct (init_rest_registration doc v c el r s s1 Hi) as (_ & _ & Hc & _).
  exists (Num.random_id r). split.
  - now rewrite Hc.
  - now apply random_id_range.
Qed.

(** The navigation bar of the sample page draws the largest double below
    one. *)
Lemma init_identifier_range_witness :
  let s := snd (update_comp 0%nat (λ _, new_component RNav)
                  (Sample.loaded "bob")) in
  Num.unit_double Sample.below_one = true ∧
  (Hardened = Hardened → absent (AElem 0%nat) = false) ∧
  ∃ n, componentId
         (heap (snd (init (Sample.page true) Hardened 0%nat (AElem 0%nat)
                       Sample.below_one s)) 0%nat) = Some n ∧
       1000 ≤ n ≤ 9999.
Proof.
  split; [vm_compute; reflexivity|]. split; [reflexivity|].
  apply (init_identifier_range (Sample.page true) Hardened).
  - vm_compute. reflexivity.
  - reflexivity.
Defined.

(** The two ends of the range are drawn: 1000 from the double 0 and 9999
    from the largest double below one, whose product with 9000 rounds to
    the double just below 9000. *)
Lemma random_id_extremes :
  Num.random_id Sample.zero = 1000 ∧
  Num.random_id Sample.below_one = 9999 ∧
  SFmul Num.prec Num.emax Sample.below_one Num.nine_thousand
    = S754_finite false 4947802324991999 (-39).
Proof. repeat split; vm_compute; reflexivity. Qed.

(** * Invariants, frames and edge cases *)

(** ** Own properties of the registry object *)

Lemma get_update_ne k k' v o :
  k' ≠ k → Obj.get k' (Obj.update k v o) = Obj.get k' o.
Proof.
  intros Hne. induction o as [|[k0 v0] o IH]; simpl; [reflexivity|].
  destruct (decide (k = k0)) as [->|Hk]; simpl.
  - now rewrite !decide_False by exact Hne.
  - destruct (decide (k' = k0)); [reflexivity | exact IH].
Qed.

Lemma get_add_eq k v o :
  Obj.get k o = None → Obj.get k (Obj.add k v o) = Some v.
Proof.
  induction o as [|[k0 v0] o IH]; simpl.
  - intros _. now rewrite decide_True.
  - destruct (decide (k = k0)) as [->|Hk]; [discriminate|]. intros Hg.
    destruct (_ && _); simpl.
    + now rewrite decide_True.
    + rewrite decide_False by exact Hk. now apply IH.
Qed.

Lemma get_add_ne k k' v o :
  k' ≠ k → Obj.get k' (Obj.add k v o) = Obj.get k' o.
Proof.
  intros Hne. induction o as [|[k0 v0] o IH]; simpl.
  - now rewrite decide_False by exact Hne.
  - destruct (_ && _); simpl.
    + now rewrite (decide_False (P := k' = k)) by exact Hne.
    + destruct (decide (k' = k0)); [reflexivity | exact IH].
Qed.

Lemma get_set_eq k v o : Obj.get k (Obj.set k v o) = Some v.
Proof.
  unfold Obj.set. destruct (Obj.get k o) as [sl|] eqn:Hg.
  - exact (get_update_eq k v o sl Hg).
  - now apply get_add_eq.
Qed.

Lemma get_set_ne k k' v o :
  k' ≠ k → Obj.get k' (Obj.set k v o) = Obj.get k' o.
Proof.
  intros Hne. unfold Obj.set. destruct (Obj.get k o).
  - now apply get_update_ne.
  - now apply get_add_ne.
Qed.

Lemma keys_update k v o : Obj.keys (Obj.update k v o) = Obj.keys o.
Proof.
  induction o as [|[k0 v0] o IH]; simpl; [reflexivity|].
  destruct (decide (k = k0)) as [->|Hk]; simpl; [reflexivity|].
  f_equal. exact IH.
Qed.

Lemma update_update k v v' o :
  Obj.update k v' (Obj.update k v o) = Obj.update k v' o.
Proof.
  induction o as [|[k0 v0] o IH]; simpl; [reflexivity|].
  destruct (decide (k = k0)) as [->|Hk]; simpl.
  - now rewrite decide_True.
  - rewrite decide_False by exact Hk. f_equal. exact IH.
Qed.

Lemma update_same k v o : Obj.get k o = Some v → Obj.update k v o = o.
Proof.
  induction o as [|[k0 v0] o IH]; simpl; [reflexivity|].
  destruct (decide (k = k0)) as [->|Hk].
  - intros E. now inversion E.
  - intros E. f_equal. now apply IH.
Qed.

Lemma read_get k o c : Obj.read k o = Holds c → Obj.get k o = Some (Holds c).
Proof.
  unfold Obj.read.
  destruct (Obj.get k o) as [sl|]; [now intros ->|discriminate].
Qed.

Lemma get_none_keys k o : Obj.get k o = None → k ∉ Obj.keys o.
Proof.
  intros Hg Hin. destruct (keys_get k o Hin) as (sl & E). congruence.
Qed.

Lemma keys_add k v o : Obj.keys (Obj.add k v o) ≡ₚ k :: Obj.keys o.
Proof.
  induction o as [|[k0 v0] o IH]; simpl; [reflexivity|].
  destruct (_ && _); simpl; [reflexivity|].
  rewrite IH. apply Permutation_swap.
Qed.

Lemma precedes_trans k1 k2 k3 :
  precedes k1 k2 → precedes k2 k3 → precedes k1 k3.
Proof.
  unfold precedes. intros H12 H23 H3. destruct (H23 H3) as [H2 L23].
  destruct (H12 H2) as [H1 L12]. split; [exact H1|].
  destruct k1 as [a|], k2 as [b|], k3 as [c|]; simpl in *; try discriminate.
  lia.
Qed.

Lemma add_sorted k v o :
  k ∉ Obj.keys o →
  StronglySorted precedes (Obj.keys o) →
  StronglySorted precedes (Obj.keys (Obj.add k v o)).
Proof.
  induction o as [|[k0 v0] o IH]; simpl; intros Hk Hs.
  - repeat constructor.
  - apply not_elem_of_cons in Hk as [Hne Hk].
    apply StronglySorted_inv in Hs as [Hs H0].
    destruct (Obj.is_index k && _) eqn:E; simpl.
    + apply andb_true_iff in E as [Ik E].
      assert (precedes k k0) as Hp.
      { intros I0. rewrite I0 in E. simpl in E. now split. }
      constructor; [now constructor|]. constructor; [exact Hp|].
      eapply Forall_impl; [exact H0|]. intros x Hx.
      now apply (precedes_trans k k0 x).
    + constructor; [now apply IH|].
      rewrite (keys_add k v o). constructor; [|exact H0].
      intros Ik. rewrite Ik in E. simpl in E.
      apply orb_false_iff in E as [I0 L]. apply negb_false_iff in I0.
      split; [exact I0|].
      destruct k as [a|], k0 as [b|]; simpl in *; try discriminate.
      assert (a ≠ b) by congruence. lia.
Qed.

Lemma set_keys k v o :
  NoDup (Obj.keys o) → StronglySorted precedes (Obj.keys o) →
  NoDup (Obj.keys (Obj.set k v o)) ∧
  StronglySorted precedes (Obj.keys (Obj.set k v o)).
Proof.
  intros Hn Hs. unfold Obj.set. destruct (Obj.get k o) as [sl|] eqn:Hg.
  - now rewrite keys_update.
  - apply get_none_keys in Hg. split; [|now apply add_sorted].
    rewrite keys_add. now constructor.
Qed.

(** ** Subscribing and unsubscribing *)

(** X1.  A component whose identifier has no slot in the registry, or a
    cleared one, sits in that slot once it has subscribed; no other slot
    changes, and nothing but the registry does. *)
Theorem subscribe_registers (s : state) (c : cref) :
  Obj.read (componentId (heap s c)) (components s) = Cleared →
  let s' := snd (uiSubscriber_subscribe c s) in
  fst (uiSubscriber_subscribe c s) = Normal tt ∧
  Obj.get (componentId (heap s c)) (components s') = Some (Holds c) ∧
  (∀ k, k ≠ componentId (heap s c) →
        Obj.get k (components s') = Obj.get k (components s)) ∧
  only_registry s s'.
Proof.
  intros Hr. unfold uiSubscriber_subscribe, bind, field, gets, modify. simpl.
  rewrite Hr. simpl. split; [reflexivity|]. split; [apply get_set_eq|].
  split; [|repeat split]. intros k Hk. now apply get_set_ne.
Qed.

(** The banner of the sample page, unsubscribed, subscribes again. *)
Lemma subscribe_registers_witness :
  let s := snd (uiSubscriber_unsubscribe 2%nat
                  (Sample.booted true Hardened "bob")) in
  let s' := snd (uiSubscriber_subscribe 2%nat s) in
  Obj.read (componentId (heap s 2%nat)) (components s) = Cleared ∧
  fst (uiSubscriber_subscribe 2%nat s) = Normal tt ∧
  Obj.get (componentId (heap s 2%nat)) (components s') = Some (Holds 2%nat) ∧
  (∀ k, k ≠ componentId (heap s 2%nat) →
        Obj.get k (components s') = Obj.get k (components s)) ∧
  only_registry s s'.
Proof.
  split; [vm_compute; reflexivity|].
  apply (subscribe_registers
           (snd (uiSubscriber_unsubscribe 2%nat
                   (Sample.booted true Hardened "bob"))) 2%nat).
  vm_compute. reflexivity.
Defined.

(** X2.  [unsubscribe] always returns and leaves the slot of the
    component's identifier [undefined], whoever was held there; the
    property stays, so the keys of the registry are the same, and every
    other slot and the rest of the state are as before. *)
Theorem unsubscribe_clears (s : state) (c : cref) :
  let s' := snd (uiSubscriber_unsubscribe c s) in
  fst (uiSubscriber_unsubscribe c s) = Normal tt ∧
  Obj.read (componentId (heap s c)) (components s') = Cleared ∧
  (∀ k, k ≠ componentId (heap s c) →
        Obj.get k (components s') = Obj.get k (components s)) ∧
  Obj.keys (components s') = Obj.keys (components s) ∧
  only_registry s s'.
Proof.
  unfold uiSubscriber_unsubscribe, bind, field, gets, modify. simpl.
  destruct (Obj.read (componentId (heap s c)) (components s)) as [|c'] eqn:Hr;
    simpl.
  - split; [reflexivity|]. split; [exact Hr|]. repeat split.
  - apply read_get in Hr. split; [reflexivity|]. split.
    { unfold Obj.read. now rewrite get_set_eq. }
    split; [intros k Hk; now apply get_set_ne|].
    split; [|repeat split]. unfold Obj.set. rewrite Hr. apply keys_update.
Qed.

(** X3.  A registered component that unsubscribes and subscribes again is
    back in its slot: the state is the one before the two calls. *)
Theorem resubscribe_restores (s : state) (c : cref) :
  Obj.read (componentId (heap s c)) (components s) = Holds c →
  uiSubscriber_subscribe c (snd (uiSubscriber_unsubscribe c s))
  = (Normal tt, s).
Proof.
  intros Hr. pose proof (read_get _ _ _ Hr) as Hg.
  unfold uiSubscriber_unsubscribe, uiSubscriber_subscribe, bind, field, gets,
    modify. simpl. rewrite Hr. simpl.
  unfold Obj.read at 1. rewrite get_set_eq. simpl. f_equal.
  unfold Obj.set at 1. rewrite get_set_eq. unfold Obj.set. rewrite Hg.
  rewrite update_update, (update_same _ _ _ Hg).
  now destruct s.
Qed.

(** The banner of the sample page leaves the registry and comes back. *)
Lemma resubscribe_restores_witness :
  let s := Sample.booted true Hardened "bob" in
  Obj.read (componentId (heap s 2%nat)) (components s) = Holds 2%nat ∧
  uiSubscriber_subscribe 2%nat (snd (uiSubscriber_unsubscribe 2%nat s))
  = (Normal tt, s).
Proof.
  split; [vm_compute; reflexivity|].
  apply (resubscribe_restores (Sample.booted true Hardened "bob") 2%nat).
  vm_compute. reflexivity.
Defined.

(** ** Who a broadcast calls *)

Lemma recipient_same sid s s' k :
  same_registry s s' → recipient sid s' k = recipient sid s k.
Proof. intros (Hc & Hh & _). unfold recipient. now rewrite Hc, Hh. Qed.

Lemma broadcast_step_calls sid d k s :
  invoked (snd (broadcast_step sid d k s)) =
  invoked s ++ match recipient sid s k with
               | Some c => [(c, d)]
               | None => []
               end.
Proof.
  unfold broadcast_step, recipient, bind, gets, field. simpl.
  destruct (Obj.read k (components s)) as [|c]; simpl.
  - now rewrite app_nil_r.
  - destruct (decide (sid ≠ componentId (heap s c))); simpl.
    + destruct (listen_shell c d (add_invoked (c, d) s)) as (_&_&_&_&_&Hi&_).
      destruct (listen c d (add_invoked (c, d) s)) as [[[]|e] s1]; exact Hi.
    + now rewrite app_nil_r.
Qed.

Lemma broadcast_loop_calls sid d ks : ∀ s,
  ∃ ks1 ks2, ks = ks1 ++ ks2 ∧
    invoked (snd (broadcast_loop sid d ks s)) =
      invoked s ++ map (λ c, (c, d)) (omap (recipient sid s) ks1) ∧
    (fst (broadcast_loop sid d ks s) = Normal tt → ks2 = []).
Proof.
  induction ks as [|k ks IH]; intros s.
  - exists [], []. simpl. now rewrite app_nil_r.
  - simpl. unfold bind.
    pose proof (broadcast_step_calls sid d k s) as Hi.
    destruct (broadcast_step_spec sid d k s) as (Hreg & _).
    destruct (broadcast_step sid d k s) as [[[]|e] s1]; simpl in *.
    + destruct (IH s1) as (ks1 & ks2 & -> & Hi1 & Hn).
      exists (k :: ks1), ks2. split; [reflexivity|]. split; [|exact Hn].
      rewrite Hi1, Hi. simpl.
      rewrite (list_omap_ext (recipient sid s1) (recipient sid s) ks1 ks1).
      * destruct (recipient sid s k); simpl; now rewrite <- app_assoc.
      * apply Forall2_same_length_lookup. split; [reflexivity|].
        intros i x y Hx Hy. rewrite Hx in Hy. inversion Hy; subst.
        now apply recipient_same.
    + exists [k], ks. split; [reflexivity|]. split; [|discriminate].
      rewrite Hi. simpl. now destruct (recipient sid s k).
Qed.

Lemma broadcast_registry sid d s :
  same_registry (add_broadcast (sid, d) s)
    (snd (uiSubscriber_broadcast sid d s)).
Proof.
  unfold uiSubscriber_broadcast, bind, modify, gets. simpl.
  apply (broadcast_loop_spec sid d _ (add_broadcast (sid, d) s)).
Qed.

(** X4.  Whatever the handlers do and however it ends, a broadcast changes
    neither the registry nor a component object, installs no listener and
    reports nothing to the error collector, and it is logged once. *)
Theorem broadcast_frame (sid : option Z) (d : data) (s : state) :
  let s' := snd (uiSubscriber_broadcast sid d s) in
  components s' = components s ∧ heap s' = heap s ∧
  listeners s' = listeners s ∧ rollbar s' = rollbar s ∧
  next_ref s' = next_ref s ∧
  broadcasts s' = broadcasts s ++ [(sid, d)].
Proof.
  destruct (broadcast_registry sid d s) as (Hc & Hh & Hl & Hr & Hb & Hn).
  simpl in *. repeat split; assumption.
Qed.

Lemma broadcast_calls sid d s :
  ∃ ks1 ks2, reverse (Obj.keys (components s)) = ks1 ++ ks2 ∧
    invoked (snd (uiSubscriber_broadcast sid d s)) =
      invoked s ++ map (λ c, (c, d)) (omap (recipient sid s) ks1) ∧
    (fst (uiSubscriber_broadcast sid d s) = Normal tt → ks2 = []).
Proof.
  unfold uiSubscriber_broadcast, bind, modify, gets. simpl.
  destruct (broadcast_loop_calls sid d (reverse (Obj.keys (components s)))
              (add_broadcast (sid, d) s)) as (ks1 & ks2 & E & Hi & Hn).
  exists ks1, ks2. split; [exact E|]. split; [exact Hi | exact Hn].
Qed.

(** X5.  A broadcast that returns has called exactly the components that
    the slots of the registry held when it began and whose identifier is
    not the sender's, once for each slot and in the order of the keys from
    the last to the first: the handlers cannot change who is called. *)
Theorem broadcast_recipients (sid : option Z) (d : data) (s : state) :
  fst (uiSubscriber_broadcast sid d s) = Normal tt →
  invoked (snd (uiSubscriber_broadcast sid d s)) =
  invoked s ++ map (λ c, (c, d)) (recipients sid s).
Proof.
  intros Hn. destruct (broadcast_calls sid d s) as (ks1 & ks2 & E & Hi & H2).
  rewrite (H2 Hn), app_nil_r in E. unfold recipients. now rewrite E.
Qed.

(** The login box of the sample page broadcasts: the banner (5500) is
    called first, then the navigation bar (1000). *)
Lemma broadcast_recipients_witness :
  let s := Sample.booted true Hardened "bob" in
  let d := login_payload Hardened "bob" in
  fst (uiSubscriber_broadcast (Some 3250) d s) = Normal tt ∧
  recipients (Some 3250) s = [2%nat; 0%nat] ∧
  invoked (snd (uiSubscriber_broadcast (Some 3250) d s)) =
  invoked s ++ map (λ c, (c, d)) (recipients (Some 3250) s).
Proof.
  split; [vm_compute; reflexivity|]. split; [vm_compute; reflexivity|].
  apply (broadcast_recipients (Some 3250) (login_payload Hardened "bob")
           (Sample.booted true Hardened "bob")).
  vm_compute. reflexivity.
Defined.

Lemma broadcast_loop_type_errors sid d ks :
  type_errors_only (broadcast_loop sid d ks).
Proof.
  induction ks as [|k ks IH]; simpl; [apply type_errors_ret|].
  apply type_errors_bind; [|intros _; exact IH].
  unfold broadcast_step. apply type_errors_bind; [apply type_errors_gets|].
  intros [|c]; [apply type_errors_throw|].
  apply type_errors_bind; [apply type_errors_gets|]. intros cid.
  destruct (decide _); [|apply type_errors_ret].
  apply type_errors_bind; [apply type_errors_modify|]. intros _.
  apply listen_type_errors.
Qed.

(** X6.  The only exception a broadcast ends with is a TypeError: a slot
    was cleared, or a handler missed one of its elements or was handed
    [null] or [undefined]. *)
Theorem broadcast_throws_type_errors (sid : option Z) (d : data) (s : state)
    (e : exn) :
  fst (uiSubscriber_broadcast sid d s) = Throw e → e = TypeError.
Proof.
  unfold uiSubscriber_broadcast, bind, modify, gets. simpl.
  apply broadcast_loop_type_errors.
Qed.

(** On the page whose banner has no [h1] the handler of the banner throws
    during the broadcast of the login box. *)
Lemma broadcast_throws_type_errors_witness :
  let s := Sample.booted false Hardened "bob" in
  ∃ e, fst (uiSubscriber_broadcast (Some 3250) (login_payload Hardened "bob") s)
       = Throw e ∧ e = TypeError.
Proof.
  assert (fst (uiSubscriber_broadcast (Some 3250)
                 (login_payload Hardened "bob")
                 (Sample.booted false Hardened "bob")) = Throw TypeError) as H.
  { vm_compute. reflexivity. }
  exists TypeError. split; [exact H|].
  exact (broadcast_throws_type_errors (Some 3250)
           (login_payload Hardened "bob")
           (Sample.booted false Hardened "bob") TypeError H).
Defined.

(** ** What a broadcast leaves alone *)

(** The handler of [c] changes no element that [c] has not bound. *)
Lemma listen_untouched c d e s :
  (∀ p, ¬ plays (heap s c) e p) →
  dom (snd (listen c d s)) e = dom s e.
Proof.
  intros Hp.
  assert (loginLinkElem (heap s c) ≠ Some e) as Hl by exact (Hp PLink).
  assert (welcomeElem (heap s c) ≠ Some e) as Hw by exact (Hp PWelcome).
  assert (formElem (heap s c) ≠ Some e) as Hf by exact (Hp PForm).
  assert (headlineElem (heap s c) ≠ Some e) as Hh by exact (Hp PHeadline).
  unfold listen. rewrite (bind_normal (field c comp_role) _ s _ s eq_refl).
  destruct (comp_role (heap s c)).
  - reflexivity.
  - unfold navComponent_listen, navComponent_showLogoutLink, bind, prop.
    destruct (get_field d "loggedIn") as [x|p]; [reflexivity|]. simpl.
    destruct (truthy p); [|reflexivity].
    destruct (loginLinkElem (heap s c)) as [l|]; [|reflexivity].
    simpl. rewrite fn_lookup_insert_ne by congruence. reflexivity.
  - unfold loginComponent_listen, bind, prop.
    destruct (get_field d "loggingOut") as [x|p]; [reflexivity|]. simpl.
    destruct (truthy p); [|reflexivity].
    unfold loginComponent_logout, bind, field, gets. simpl.
    destruct (welcomeElem (heap s c)) as [w|] eqn:Ew; [|reflexivity].
    destruct (formElem (heap s c)) as [f|] eqn:Ef;
      repeat (progress (simpl; rewrite ?Ew, ?Ef));
      now rewrite !fn_lookup_insert_ne by congruence.
  - unfold bannerComponent_listen, bind, field, gets, prop. simpl.
    destruct (headlineElem (heap s c)) as [h|];
      destruct (get_field d "username") as [x|p]; simpl; try reflexivity.
    now rewrite fn_lookup_insert_ne by congruence.
Qed.

Lemma broadcast_loop_untouched sid d e s0 ks : ∀ s,
  same_registry s0 s →
  (∀ c p, registered c s0 → ¬ plays (heap s0 c) e p) →
  dom (snd (broadcast_loop sid d ks s)) e = dom s e.
Proof.
  induction ks as [|k ks IH]; intros s Hreg Hb; [reflexivity|].
  simpl. unfold bind.
  destruct (broadcast_step_spec sid d k s) as (Hreg1 & _).
  assert (dom (snd (broadcast_step sid d k s)) e = dom s e) as Hd.
  { unfold broadcast_step, bind, gets, field, modify. simpl.
    destruct (Obj.read k (components s)) as [|c] eqn:Er; [reflexivity|].
    destruct (decide _); [|reflexivity].
    destruct Hreg as (Hc & Hh & _).
    apply (listen_untouched c d e (add_invoked (c, d) s)).
    intros p. simpl. rewrite Hh. apply Hb.
    apply read_registered with (k := k). now rewrite <- Hc. }
  destruct (broadcast_step sid d k s) as [[[]|x] s1]; simpl in *.
  - rewrite <- Hd. apply IH; [etransitivity; eassumption | exact Hb].
  - exact Hd.
Qed.

(** X7.  A broadcast shows and hides no element of the page but those that
    a registered component has bound: the classes of every other element,
    and its value, are the same after the broadcast, however it ends. *)
Theorem broadcast_touches_bound_only (sid : option Z) (d : data) (s : state)
    (e : eref) :
  (∀ c p, registered c s → ¬ plays (heap s c) e p) →
  let s' := snd (uiSubscriber_broadcast sid d s) in
  classList (dom s' e) = classList (dom s e) ∧
  value (dom s' e) = value (dom s e).
Proof.
  intros Hb. cbv zeta.
  assert (dom (snd (uiSubscriber_broadcast sid d s)) e = dom s e) as ->.
  { unfold uiSubscriber_broadcast, bind, modify, gets. simpl.
    exact (broadcast_loop_untouched sid d e (add_broadcast (sid, d) s) _
             (add_broadcast (sid, d) s) (reflexivity _) Hb). }
  split; reflexivity.
Qed.

(** No component of the sample page has bound the username field. *)
Lemma sample_username_unbound c p :
  ¬ plays (heap (Sample.booted true Hardened "bob") c) 4%nat p.
Proof.
  intros H. destruct c as [|[|[|c]]]; destruct p; vm_compute in H;
    discriminate.
Qed.

(** The login broadcast on the sample page leaves the username field. *)
Lemma broadcast_touches_bound_only_witness :
  let s := Sample.booted true Hardened "bob" in
  let s' := snd (uiSubscriber_broadcast (Some 3250)
                   (login_payload Hardened "bob") s) in
  (∀ c p, registered c s → ¬ plays (heap s c) 4%nat p) ∧
  classList (dom s' 4%nat) = classList (dom s 4%nat) ∧
  value (dom s' 4%nat) = value (dom s 4%nat).
Proof.
  split; [intros c p _; apply sample_username_unbound|].
  apply (broadcast_touches_bound_only (Some 3250)
           (login_payload Hardened "bob")
           (Sample.booted true Hardened "bob") 4%nat).
  intros c p _. apply sample_username_unbound.
Defined.

(** ** What an initialisation leaves alone *)

#[global] Instance inits_preorder c k : PreOrder (inits c k).
Proof.
  split.
  - intros s. repeat split.
  - intros s1 s2 s3 (?&?&?&?&?&Ha&?&Ka) (?&?&?&?&?&Hb&?&Kb).
    repeat split; try congruence.
    + intros c' Hc. rewrite (Hb c' Hc). now apply Ha.
    + intros k' Hk. rewrite (Kb k' Hk). now apply Ka.
Qed.

Lemma update_comp_inits c k f :
  (∀ x, comp_role (f x) = comp_role x) → keeps (inits c k) (update_comp c f).
Proof.
  intros Hf s. unfold update_comp, modify, inits. simpl.
  repeat split.
  - intros c' Hc. now rewrite fn_lookup_insert_ne by congruence.
  - rewrite fn_lookup_insert. apply Hf.
Qed.

Lemma addEventListener_inits c k o ev h :
  keeps (inits c k) (addEventListener o ev h).
Proof.
  unfold addEventListener. keeps_step; [keeps_step|].
  intros s. repeat split.
Qed.

Lemma query_inits doc c k a sel : keeps (inits c k) (query doc a sel).
Proof. destruct a; simpl; keeps_step. Qed.

Lemma register_inits c el r :
  keeps (inits c (Some (Num.random_id r))) (register c el r).
Proof.
  intros s.
  unfold register, update_comp, uiSubscriber_subscribe, bind, modify, field,
    gets, deref.
  simpl. rewrite !fn_lookup_insert. simpl.
  destruct (Obj.read _ _); simpl; repeat split; simpl;
    try (intros c' Hc; now rewrite !fn_lookup_insert_ne by congruence);
    try (now rewrite fn_lookup_insert);
    try (intros k' Hk; rewrite fn_lookup_insert; now apply get_set_ne).
Qed.

Lemma initComponent_inits v c el r :
  keeps (inits c (Some (Num.random_id r))) (uiComponent_initComponent v c el r).
Proof.
  destruct v; simpl; [apply register_inits|].
  apply keeps_try_catch; [typeclasses eauto | |].
  - destruct (absent el); [keeps_step | apply register_inits].
  - intros e s. repeat split.
Qed.

Ltac inits_step :=
  first
    [ apply initComponent_inits
    | apply query_inits
    | apply addEventListener_inits
    | apply update_comp_inits; intros ?; reflexivity
    | keeps_step ].

Lemma init_inits doc v c el r :
  keeps (inits c (Some (Num.random_id r))) (init doc v c el r).
Proof.
  unfold init. keeps_step; [keeps_step|].
  destruct a; unfold uiComponent_init, navComponent_init, loginComponent_init,
    bannerComponent_init.
  - apply initComponent_inits.
  - repeat inits_step.
  - repeat inits_step.
  - destruct v; repeat inits_step.
Qed.

Lemma register_result c el r s :
  ∃ s1, register c el r s = (Normal tt, s1) ∧
    componentId (heap s1 c) = Some (Num.random_id r) ∧
    elem (heap s1 c) = el ∧
    componentNotifier (heap s1 c) = Some UiSubscriber ∧
    rollbar s1 = rollbar s ∧ listeners s1 = listeners s ∧
    components s1 =
      match Obj.read (Some (Num.random_id r)) (components s) with
      | Cleared => Obj.set (Some (Num.random_id r)) (Holds c) (components s)
      | Holds _ => components s
      end.
Proof.
  unfold register, update_comp, uiSubscriber_subscribe, bind, modify, field,
    gets, deref.
  simpl. rewrite !fn_lookup_insert. simpl. rewrite !fn_lookup_insert. simpl.
  destruct (Obj.read (Some (Num.random_id r)) (components s)); simpl;
    eexists; (split; [reflexivity|]); simpl;
    rewrite ?fn_lookup_insert; repeat split.
Qed.

Lemma initComponent_result v c el r s :
  (v = Hardened → absent el = false) →
  ∃ s1, uiComponent_initComponent v c el r s = (Normal tt, s1) ∧
    componentId (heap s1 c) = Some (Num.random_id r) ∧
    elem (heap s1 c) = el ∧
    componentNotifier (heap s1 c) = Some UiSubscriber ∧
    rollbar s1 = rollbar s ∧ listeners s1 = listeners s ∧
    components s1 =
      match Obj.read (Some (Num.random_id r)) (components s) with
      | Cleared => Obj.set (Some (Num.random_id r)) (Holds c) (components s)
      | Holds _ => components s
      end.
Proof.
  intros Hel. destruct (register_result c el r s) as (s1 & Hr & H).
  exists s1. split; [|exact H].
  destruct v; simpl; [exact Hr|].
  unfold try_catch. rewrite (Hel eq_refl), Hr. reflexivity.
Qed.

Lemma initComponent_absent c el r s :
  absent el = true →
  uiComponent_initComponent Hardened c el r s =
  (Normal tt,
   add_rollbar ("Error uiComponents.initComponent: ", MsgUndefined) s).
Proof.
  intros Habs. unfold uiComponent_initComponent, try_catch.
  rewrite Habs. reflexivity.
Qed.

(** [initComponent] always returns. *)
Lemma initComponent_returns v c el r s :
  ∃ s1, uiComponent_initComponent v c el r s = (Normal tt, s1).
Proof.
  destruct v.
  - destruct (initComponent_result Original c el r s) as (s1 & H & _);
      [discriminate|]. now exists s1.
  - destruct (absent el) eqn:Ha.
    + eexists. now apply initComponent_absent.
    + destruct (initComponent_result Hardened c el r s) as (s1 & H & _);
        [done|]. now exists s1.
Qed.

(** What [init] does to the registry: nothing, or it puts [c] under the
    identifier it has drawn for [c]. *)
Lemma init_components doc v c el r s :
  let s' := snd (init doc v c el r s) in
  let k := Some (Num.random_id r) in
  (components s' = components s ∧
   (componentId (heap s' c) = componentId (heap s c) ∨
    componentId (heap s' c) = k)) ∨
  (components s' = Obj.set k (Holds c) (components s) ∧
   componentId (heap s' c) = k ∧
   Obj.read k (components s) = Cleared).
Proof.
  cbv zeta.
  destruct (initComponent_returns v c el r s) as (s1 & Hi).
  destruct (init_rest_registration doc v c el r s s1 Hi) as (Hc & _ & Hid & _).
  rewrite Hc, Hid. clear Hc Hid.
  destruct v.
  - destruct (initComponent_result Original c el r s) as (s2 & Hi2 & H1 & _ &
      _ & _ & _ & H2); [discriminate|].
    rewrite Hi in Hi2. inversion Hi2; subst s2.
    destruct (Obj.read _ _); [right | left]; auto.
  - destruct (absent el) eqn:Ha.
    + rewrite (initComponent_absent c el r s Ha) in Hi. inversion Hi; subst s1.
      left. simpl. auto.
    + destruct (initComponent_result Hardened c el r s) as (s2 & Hi2 & H1 & _ &
        _ & _ & _ & H2); [done|].
      rewrite Hi in Hi2. inversion Hi2; subst s2.
      destruct (Obj.read _ _); [right | left]; auto.
Qed.

(** What [init] has done to [c] and to the registry once [initComponent]
    has accepted the anchor, however the rest of [init] ends. *)
Lemma init_accepted doc v c el r s :
  (v = Hardened → absent el = false) →
  let s' := snd (init doc v c el r s) in
  let k := Some (Num.random_id r) in
  components s' =
    match Obj.read k (components s) with
    | Cleared => Obj.set k (Holds c) (components s)
    | Holds _ => components s
    end ∧
  componentId (heap s' c) = k ∧ elem (heap s' c) = el ∧
  componentNotifier (heap s' c) = Some UiSubscriber ∧
  rollbar s' = rollbar s.
Proof.
  intros Hel. cbv zeta.
  destruct (initComponent_result v c el r s Hel)
    as (s1 & Hi & Hid & He & Hn & Hr & _ & Hc).
  destruct (init_rest_registration doc v c el r s s1 Hi)
    as (Hc' & Hr' & Hid' & He' & Hn').
  rewrite Hc', Hr', Hid', He', Hn'. repeat split; assumption.
Qed.

Lemma init_refused doc c el r s :
  absent el = true →
  let s' := snd (init doc Hardened c el r s) in
  components s' = components s ∧
  componentId (heap s' c) = componentId (heap s c) ∧
  rollbar s' =
    rollbar s ++ [("Error uiComponents.initComponent: ", MsgUndefined)].
Proof.
  intros Ha. cbv zeta.
  destruct (init_rest_registration doc Hardened c el r s _
              (initComponent_absent c el r s Ha))
    as (Hc' & Hr' & Hid' & _).
  rewrite Hc', Hr', Hid'. repeat split.
Qed.

(** X8.  The error collector hears of nothing but a refused anchor: the
    original [init] never reports, the hardened one does not report when
    it is given an element, whatever else goes wrong. *)
Theorem init_reports_refusal_only (doc : document) (v : variant) (c : cref)
    (el : anchor) (r : spec_float) (s : state) :
  v = Original ∨ absent el = false →
  rollbar (snd (init doc v c el r s)) = rollbar s.
Proof.
  intros H. apply (init_accepted doc v c el r s).
  destruct H as [->|H]; [discriminate | auto].
Qed.

(** A navigation bar is initialised with its anchor. *)
Lemma init_reports_refusal_only_witness :
  let s := snd (update_comp 0%nat (λ _, new_component RNav)
                  (Sample.loaded "bob")) in
  (Hardened = Original ∨ absent (AElem 0%nat) = false) ∧
  rollbar (snd (init (Sample.page true) Hardened 0%nat (AElem 0%nat)
                  Sample.zero s)) = rollbar s.
Proof.
  split; [right; reflexivity|].
  apply (init_reports_refusal_only (Sample.page true) Hardened 0%nat
           (AElem 0%nat) Sample.zero).
  right. reflexivity.
Defined.

(** ** The factory *)

(** What the factory leaves alone, and what it returns. *)
Lemma createUIComponent_inits doc v name r s :
  let c := next_ref s in
  let s' := snd (createUIComponent doc v name r s) in
  inits c (Some (Num.random_id r)) (allocated (fst (role_of_name doc name)) s)
    s' ∧
  snd (createUIComponent doc v name r s) =
    snd (init doc v c (snd (role_of_name doc name)) r
           (allocated (fst (role_of_name doc name)) s)) ∧
  (∀ c', fst (createUIComponent doc v name r s) = Normal c' → c' = c) ∧
  (fst (createUIComponent doc v name r s) = Normal c ↔
   fst (init doc v c (snd (role_of_name doc name)) r
          (allocated (fst (role_of_name doc name)) s)) = Normal tt).
Proof.
  cbv zeta. unfold createUIComponent, bind, gets, modify, update_comp, ret.
  simpl. fold (allocated (fst (role_of_name doc name)) s).
  pose proof (init_inits doc v (next_ref s) (snd (role_of_name doc name)) r
                (allocated (fst (role_of_name doc name)) s)) as H.
  destruct (init doc v (next_ref s) _ r _) as [[[]|e] s1]; simpl in *.
  - split; [exact H|]. split; [reflexivity|]. split; [congruence|]. done.
  - split; [exact H|]. split; [reflexivity|]. split; [discriminate|].
    split; discriminate.
Qed.

(** The factory ends as the [init] it runs. *)
Lemma createUIComponent_outcome doc v name r s :
  createUIComponent doc v name r s =
  let i := init doc v (next_ref s) (snd (role_of_name doc name)) r
             (allocated (fst (role_of_name doc name)) s) in
  (match fst i with
   | Normal _ => Normal (next_ref s)
   | Throw e => Throw e
   end, snd i).
Proof.
  unfold createUIComponent, bind, gets, modify, update_comp, ret.
  simpl. fold (allocated (fst (role_of_name doc name)) s).
  now destruct (init doc v (next_ref s) _ r _) as [[[]|e] s1].
Qed.

(** X9.  The factory allocates exactly one object, with the role of the
    name, and returns it if it returns; it makes no broadcast and never
    touches the DOM, the console, a component object made before, or a
    slot of the registry other than that of the identifier drawn. *)
Theorem createUIComponent_allocates (doc : document) (v : variant)
    (name : string) (r : spec_float) (s : state) :
  let c := next_ref s in
  let s' := snd (createUIComponent doc v name r s) in
  (∀ c', fst (createUIComponent doc v name r s) = Normal c' → c' = c) ∧
  next_ref s' = S c ∧
  comp_role (heap s' c) = fst (role_of_name doc name) ∧
  (∀ c', c' ≠ c → heap s' c' = heap s c') ∧
  dom s' = dom s ∧ console s' = console s ∧
  broadcasts s' = broadcasts s ∧ invoked s' = invoked s ∧
  (∀ k, k ≠ Some (Num.random_id r) →
        Obj.get k (components s') = Obj.get k (components s)).
Proof.
  destruct (createUIComponent_inits doc v name r s)
    as ((H1&H2&H3&H4&H5&H6&H7&H8) & _ & Hc & _).
  cbv zeta. unfold allocated in *. simpl in *.
  split; [exact Hc|]. split; [exact H5|]. split.
  { rewrite H7. now rewrite fn_lookup_insert. }
  split.
  { intros c' Hne. rewrite (H6 c' Hne).
    now rewrite fn_lookup_insert_ne by congruence. }
  repeat split; assumption.
Qed.

(** X10.  The factory registers the new component before [init] looks for
    the elements under the anchor: when the anchor is accepted and the
    slot of the identifier drawn is free, the component sits in that slot
    afterwards, however [init] ends. *)
Theorem createUIComponent_registers (doc : document) (v : variant)
    (name : string) (r : spec_float) (s : state) :
  (v = Hardened → absent (snd (role_of_name doc name)) = false) →
  Obj.read (Some (Num.random_id r)) (components s) = Cleared →
  let c := next_ref s in
  let s' := snd (createUIComponent doc v name r s) in
  Obj.get (Some (Num.random_id r)) (components s') = Some (Holds c) ∧
  componentId (heap s' c) = Some (Num.random_id r) ∧
  elem (heap s' c) = snd (role_of_name doc name) ∧
  componentNotifier (heap s' c) = Some UiSubscriber.
Proof.
  intros Hel Hfree. cbv zeta.
  destruct (createUIComponent_inits doc v name r s) as (_ & -> & _).
  destruct (init_accepted doc v (next_ref s) _ r
              (allocated (fst (role_of_name doc name)) s) Hel)
    as (Hc & Hid & He & Hn & _).
  simpl in Hc. rewrite Hfree in Hc. rewrite Hc, get_set_eq. auto.
Qed.

(** The navigation bar is the first component created on the sample
    page. *)
Lemma createUIComponent_registers_witness :
  let s := Sample.loaded "bob" in
  let s' := snd (createUIComponent (Sample.page true) Hardened "nav"
                   Sample.zero s) in
  (Hardened = Hardened →
   absent (snd (role_of_name (Sample.page true) "nav")) = false) ∧
  Obj.read (Some (Num.random_id Sample.zero)) (components s) = Cleared ∧
  Obj.get (Some (Num.random_id Sample.zero)) (components s')
  = Some (Holds (next_ref s)) ∧
  componentId (heap s' (next_ref s)) = Some (Num.random_id Sample.zero) ∧
  elem (heap s' (next_ref s)) = snd (role_of_name (Sample.page true) "nav") ∧
  componentNotifier (heap s' (next_ref s)) = Some UiSubscriber.
Proof.
  split; [intros _; reflexivity|]. split; [reflexivity|].
  apply (createUIComponent_registers (Sample.page true) Hardened "nav"
           Sample.zero (Sample.loaded "bob")).
  - intros _. reflexivity.
  - reflexivity.
Defined.

(** ** Running [init] *)

(** Runs the straight-line rest of an [init] from a state whose fields are
    known. *)
Ltac run_init :=
  unfold bind, field, gets, update_comp, modify, addEventListener, deref,
    ret, throw, query;
  simpl;
  repeat first [ rewrite fn_lookup_insert | progress simpl ].

Lemma nav_rest_run doc c a l s :
  elem (heap s c) = AElem a →
  elem_query doc a "#logout-link" = l →
  (a0 <~ field c elem;
   l0 <~ query doc a0 "#logout-link";
   update_comp c (set_loginLinkElem l0);~
   l1 <~ field c loginLinkElem;
   addEventListener l1 "click" (OnLogoutClick c)) s =
  match l with
  | Some x =>
      (Normal tt,
       add_listener (x, "click", OnLogoutClick c)
         (set_heap (<[c := set_loginLinkElem l (heap s c)]> (heap s)) s))
  | None =>
      (Throw TypeError,
       set_heap (<[c := set_loginLinkElem l (heap s c)]> (heap s)) s)
  end.
Proof.
  intros Ha Hq. run_init. rewrite Ha. run_init. rewrite Hq.
  destruct l; reflexivity.
Qed.

Lemma login_rest_run doc c a f w s :
  elem (heap s c) = AElem a →
  elem_query doc a "form" = f →
  elem_query doc a "#welcome" = w →
  let h1 := <[c := set_formElem f (heap s c)]> (heap s) in
  let h2 := <[c := set_welcomeElem w (h1 c)]> h1 in
  (a0 <~ field c elem;
   f0 <~ query doc a0 "form";
   update_comp c (set_formElem f0);~
   a1 <~ field c elem;
   w0 <~ query doc a1 "#welcome";
   update_comp c (set_welcomeElem w0);~
   f1 <~ field c formElem;
   addEventListener f1 "submit" (OnSubmit c)) s =
  match f with
  | Some x =>
      (Normal tt, add_listener (x, "submit", OnSubmit c) (set_heap h2 s))
  | None => (Throw TypeError, set_heap h2 (set_heap h1 s))
  end.
Proof.
  intros Ha Hf Hw. cbv zeta. run_init. rewrite Ha. run_init. rewrite Hf.
  run_init. rewrite Ha. run_init. rewrite Hw. run_init.
  destruct f; reflexivity.
Qed.

Lemma banner_rest_run doc v c a h ct b s :
  elem (heap s c) = AElem a →
  elem_query doc a "h1" = h →
  elem_query doc a "#content" = ct →
  elem_query doc a "#learn-more" = b →
  let h1 := <[c := set_headlineElem h (heap s c)]> (heap s) in
  let h2 := <[c := set_contentElem ct (h1 c)]> h1 in
  let h3 := <[c := set_btnElem b (h2 c)]> h2 in
  (a0 <~ field c elem;
   h0 <~ query doc a0 "h1";
   update_comp c (set_headlineElem h0);~
   match v with
   | Original => ret tt
   | Hardened =>
       a1 <~ field c elem;
       ct0 <~ query doc a1 "#content";
       update_comp c (set_contentElem ct0);~
       a2 <~ field c elem;
       b0 <~ query doc a2 "#learn-more";
       update_comp c (set_btnElem b0);~
       b1 <~ field c btnElem;
       addEventListener b1 "click" (OnLearnMoreClick c)
   end) s =
  match v, b with
  | Original, _ => (Normal tt, set_heap h1 s)
  | Hardened, Some x =>
      (Normal tt, add_listener (x, "click", OnLearnMoreClick c) (set_heap h3 s))
  | Hardened, None => (Throw TypeError, set_heap h3 s)
  end.
Proof.
  intros Ha Hh Hc Hb. cbv zeta. run_init. rewrite Ha. run_init. rewrite Hh.
  destruct v; [reflexivity|].
  run_init. rewrite Ha. run_init. rewrite Hc. run_init. rewrite Ha.
  run_init. rewrite Hb. run_init.
  destruct b; reflexivity.
Qed.

Lemma init_role doc v c el r s :
  init doc v c el r s =
  match comp_role (heap s c) with
  | RBase => uiComponent_init v c el r s
  | RLogin => loginComponent_init doc v c el r s
  | RNav => navComponent_init doc v c el r s
  | RBanner => bannerComponent_init doc v c el r s
  end.
Proof.
  unfold init, bind, field, gets. simpl. now destruct (comp_role (heap s c)).
Qed.

Lemma role_of_name_cases doc name :
  (name = "nav" ∧
   role_of_name doc name =
     (RNav, from_option AElem ANull (doc_query doc "#main-nav"))) ∨
  (name = "login" ∧
   role_of_name doc name =
     (RLogin, from_option AElem ANull (doc_query doc "#login-box"))) ∨
  (name = "banner" ∧
   role_of_name doc name =
     (RBanner, from_option AElem ANull (doc_query doc "#banner"))) ∨
  (name ≠ "nav" ∧ name ≠ "login" ∧ name ≠ "banner" ∧
   role_of_name doc name = (RBase, AUndefined)).
Proof.
  unfold role_of_name.
  destruct (String.eqb_spec name "nav") as [->|H1]; [now left|].
  destruct (String.eqb_spec name "login") as [->|H2]; [now right; left|].
  destruct (String.eqb_spec name "banner") as [->|H3];
    [now right; right; left|].
  now right; right; right.
Qed.

(** The state [initComponent] leaves when it accepts the anchor. *)
Lemma initComponent_accepts v c a r s :
  ∃ s1, uiComponent_initComponent v c (AElem a) r s = (Normal tt, s1) ∧
        elem (heap s1 c) = AElem a ∧
        comp_role (heap s1 c) = comp_role (heap s c) ∧
        listeners s1 = listeners s ∧ rollbar s1 = rollbar s.
Proof.
  destruct (initComponent_result v c (AElem a) r s)
    as (s1 & Hi & _ & He & _ & Hr & Hl & _); [done|].
  exists s1. split; [exact Hi|]. split; [exact He|].
  pose proof (initComponent_inits v c (AElem a) r s) as H.
  rewrite Hi in H. destruct H as (_&_&_&_&_&_&Hro&_).
  repeat split; assumption.
Qed.

Lemma init_nav doc v c a l r s :
  comp_role (heap s c) = RNav →
  elem_query doc a "#logout-link" = Some l →
  ∃ s', init doc v c (AElem a) r s = (Normal tt, s') ∧
        comp_role (heap s' c) = RNav ∧
        loginLinkElem (heap s' c) = Some l ∧
        listeners s' = listeners s ++ [(l, "click", OnLogoutClick c)] ∧
        rollbar s' = rollbar s.
Proof.
  intros Hro Hq.
  destruct (initComponent_accepts v c a r s) as (s1 & Hi & He & Hr1 & Hl & Hrb).
  rewrite init_role, Hro. unfold navComponent_init.
  rewrite (bind_normal _ _ _ _ _ Hi).
  rewrite (nav_rest_run doc c a (Some l) s1 He Hq).
  eexists. split; [reflexivity|]. simpl. rewrite !fn_lookup_insert. simpl.
  rewrite Hl, Hrb. repeat split. congruence.
Qed.

Lemma init_login doc v c a f w r s :
  comp_role (heap s c) = RLogin →
  elem_query doc a "form" = Some f →
  elem_query doc a "#welcome" = w →
  ∃ s', init doc v c (AElem a) r s = (Normal tt, s') ∧
        comp_role (heap s' c) = RLogin ∧
        formElem (heap s' c) = Some f ∧ welcomeElem (heap s' c) = w ∧
        listeners s' = listeners s ++ [(f, "submit", OnSubmit c)] ∧
        rollbar s' = rollbar s.
Proof.
  intros Hro Hf Hw.
  destruct (initComponent_accepts v c a r s) as (s1 & Hi & He & Hr1 & Hl & Hrb).
  rewrite init_role, Hro. unfold loginComponent_init.
  rewrite (bind_normal _ _ _ _ _ Hi).
  rewrite (login_rest_run doc c a (Some f) w s1 He Hf Hw).
  eexists. split; [reflexivity|]. simpl. rewrite !fn_lookup_insert. simpl.
  rewrite Hl, Hrb. repeat split. congruence.
Qed.

Lemma init_banner doc v c a h b r s :
  comp_role (heap s c) = RBanner →
  elem_query doc a "h1" = h →
  (v = Hardened → elem_query doc a "#learn-more" = Some b) →
  ∃ s', init doc v c (AElem a) r s = (Normal tt, s') ∧
        comp_role (heap s' c) = RBanner ∧
        headlineElem (heap s' c) = h ∧
        listeners s' =
          listeners s ++ match v with
                         | Original => []
                         | Hardened => [(b, "click", OnLearnMoreClick c)]
                         end ∧
        rollbar s' = rollbar s.
Proof.
  intros Hro Hh Hb.
  destruct (initComponent_accepts v c a r s) as (s1 & Hi & He & Hr1 & Hl & Hrb).
  rewrite init_role, Hro. unfold bannerComponent_init.
  rewrite (bind_normal _ _ _ _ _ Hi).
  rewrite (banner_rest_run doc v c a h _ _ s1 He Hh eq_refl eq_refl).
  destruct v.
  - eexists. split; [reflexivity|]. simpl. rewrite !fn_lookup_insert. simpl.
    rewrite Hl, Hrb, app_nil_r. repeat split. congruence.
  - rewrite (Hb eq_refl).
    eexists. split; [reflexivity|]. simpl. rewrite !fn_lookup_insert. simpl.
    rewrite Hl, Hrb. repeat split. congruence.
Qed.

Lemma init_base doc v c el r s :
  comp_role (heap s c) = RBase →
  ∃ s', init doc v c el r s = (Normal tt, s') ∧
        comp_role (heap s' c) = RBase ∧ listeners s' = listeners s.
Proof.
  intros Hro. rewrite init_role, Hro. unfold uiComponent_init.
  destruct (initComponent_returns v c el r s) as (s1 & Hi).
  exists s1. split; [exact Hi|].
  pose proof (initComponent_inits v c el r s) as H. rewrite Hi in H.
  destruct H as (_&_&_&_&_&_&Hr&_). simpl in Hr. split; [congruence|].
  destruct v.
  - destruct (initComponent_result Original c el r s)
      as (s2 & Hi2 & _ & _ & _ & _ & Hl & _); [discriminate|]. congruence.
  - destruct (absent el) eqn:Ha.
    + rewrite (initComponent_absent c el r s Ha) in Hi. now inversion Hi.
    + destruct (initComponent_result Hardened c el r s)
        as (s2 & Hi2 & _ & _ & _ & _ & Hl & _); [done|]. congruence.
Qed.

(** X11.  For a role name that is none of the three, the factory returns a
    base component: the original revision gives it the anchor
    [undefined] and an identifier, the hardened one reports to the error
    collector and leaves it without identifier and out of the registry;
    no listener is installed, and what the component does when notified
    is to log the payload. *)
Theorem createUIComponent_unknown (doc : document) (v : variant)
    (name : string) (r : spec_float) (s : state) :
  name ≠ "nav" → name ≠ "login" → name ≠ "banner" →
  let c := next_ref s in
  let s' := snd (createUIComponent doc v name r s) in
  fst (createUIComponent doc v name r s) = Normal c ∧
  comp_role (heap s' c) = RBase ∧
  listeners s' = listeners s ∧
  match v with
  | Original =>
      elem (heap s' c) = AUndefined ∧
      componentId (heap s' c) = Some (Num.random_id r) ∧
      rollbar s' = rollbar s
  | Hardened =>
      componentId (heap s' c) = None ∧
      components s' = components s ∧
      rollbar s' =
        rollbar s ++ [("Error uiComponents.initComponent: ", MsgUndefined)]
  end ∧
  (∀ d, listen c d s' =
        (Normal tt, add_console ("Notification fired: ", d) s')).
Proof.
  intros H1 H2 H3. cbv zeta.
  destruct (role_of_name_cases doc name)
    as [[-> _]|[[-> _]|[[-> _]|(_ & _ & _ & E)]]]; try done.
  destruct (createUIComponent_inits doc v name r s) as (_ & Es & _ & Hn).
  rewrite Es. rewrite E in *. simpl in *.
  set (s0 := allocated RBase s) in *.
  assert (comp_role (heap s0 (next_ref s)) = RBase) as Hro.
  { unfold s0, allocated. simpl. now rewrite fn_lookup_insert. }
  destruct (init_base doc v (next_ref s) AUndefined r s0 Hro)
    as (s' & Hi & Hr & Hl).
  split; [apply Hn; now rewrite Hi|].
  assert (componentId (heap s0 (next_ref s)) = None) as Hid0.
  { unfold s0, allocated. simpl. now rewrite fn_lookup_insert. }
  split; [now rewrite Hi|]. split; [now rewrite Hi|]. split.
  - destruct v.
    + destruct (init_accepted doc Original (next_ref s) AUndefined r s0)
        as (_ & Hid & He & _ & Hrb); [discriminate|]. auto.
    + destruct (init_refused doc (next_ref s) AUndefined r s0 eq_refl)
        as (Hc & Hid & Hrb). rewrite Hid0 in Hid. auto.
  - intros d. rewrite Hi. simpl. unfold listen, bind, field, gets. simpl.
    now rewrite Hr.
Qed.

(** A footer is asked of the hardened factory. *)
Lemma createUIComponent_unknown_witness :
  let s := Sample.loaded "bob" in
  let c := next_ref s in
  let s' := snd (createUIComponent (Sample.page true) Hardened "footer"
                   Sample.zero s) in
  ("footer" ≠ "nav" ∧ "footer" ≠ "login" ∧ "footer" ≠ "banner") ∧
  fst (createUIComponent (Sample.page true) Hardened "footer" Sample.zero s)
  = Normal c ∧
  comp_role (heap s' c) = RBase ∧
  listeners s' = listeners s ∧
  (componentId (heap s' c) = None ∧
   components s' = components s ∧
   rollbar s' =
     rollbar s ++ [("Error uiComponents.initComponent: ", MsgUndefined)]) ∧
  (∀ d, listen c d s' =
        (Normal tt, add_console ("Notification fired: ", d) s')).
Proof.
  split; [repeat split; discriminate|].
  apply (createUIComponent_unknown (Sample.page true) Hardened "footer"
           Sample.zero (Sample.loaded "bob")); discriminate.
Defined.

(** A widget of the original revision that is handed [null] registers and
    then fails on its first search under the anchor. *)
Lemma init_null_throws doc c r s :
  comp_role (heap s c) ≠ RBase →
  fst (init doc Original c ANull r s) = Throw TypeError ∧
  listeners (snd (init doc Original c ANull r s)) = listeners s.
Proof.
  intros Hro.
  destruct (initComponent_result Original c ANull r s)
    as (s1 & Hi & _ & He & _ & _ & Hl & _); [discriminate|].
  rewrite init_role.
  destruct (comp_role (heap s c)); [done| | |];
    unfold navComponent_init, loginComponent_init, bannerComponent_init;
    rewrite (bind_normal _ _ _ _ _ Hi); unfold bind, field, gets; simpl;
    rewrite He; simpl; now split.
Qed.

(** X12.  On a page that lacks the anchor of a widget, the factory of the
    original revision throws a TypeError, and the widget it was building
    stays behind in the registry (if its slot was free) with the anchor
    [null] and an identifier; no listener is installed and nothing is
    reported. *)
Theorem createUIComponent_original_null_anchor (doc : document)
    (name : string) (r : spec_float) (s : state) :
  fst (role_of_name doc name) ≠ RBase →
  snd (role_of_name doc name) = ANull →
  let c := next_ref s in
  let k := Some (Num.random_id r) in
  let s' := snd (createUIComponent doc Original name r s) in
  fst (createUIComponent doc Original name r s) = Throw TypeError ∧
  components s' =
    match Obj.read k (components s) with
    | Cleared => Obj.set k (Holds c) (components s)
    | Holds _ => components s
    end ∧
  elem (heap s' c) = ANull ∧ componentId (heap s' c) = k ∧
  listeners s' = listeners s ∧ rollbar s' = rollbar s.
Proof.
  intros Hro Hel. cbv zeta.
  destruct (createUIComponent_inits doc Original name r s)
    as (_ & Es & _ & _).
  set (s0 := allocated (fst (role_of_name doc name)) s) in *.
  assert (comp_role (heap s0 (next_ref s)) ≠ RBase) as Hro0.
  { unfold s0, allocated. simpl. now rewrite fn_lookup_insert. }
  rewrite Hel in Es.
  destruct (init_null_throws doc (next_ref s) r s0 Hro0) as (Ht & Hl).
  destruct (init_accepted doc Original (next_ref s) ANull r s0)
    as (Hc & Hid & He & _ & Hrb); [discriminate|].
  rewrite Es. split.
  - rewrite createUIComponent_outcome. cbv zeta. fold s0. rewrite Hel.
    simpl. now rewrite Ht.
  - repeat split; assumption.
Qed.

(** The login box is created on a page with none of the anchors. *)
Lemma createUIComponent_original_null_anchor_witness :
  let doc := Sample.empty_page in
  let s := Sample.loaded "bob" in
  let c := next_ref s in
  let k := Some (Num.random_id Sample.quarter) in
  let s' := snd (createUIComponent doc Original "login" Sample.quarter s) in
  (fst (role_of_name doc "login") ≠ RBase ∧
   snd (role_of_name doc "login") = ANull) ∧
  fst (createUIComponent doc Original "login" Sample.quarter s)
  = Throw TypeError ∧
  components s' =
    match Obj.read k (components s) with
    | Cleared => Obj.set k (Holds c) (components s)
    | Holds _ => components s
    end ∧
  elem (heap s' c) = ANull ∧ componentId (heap s' c) = k ∧
  listeners s' = listeners s ∧ rollbar s' = rollbar s.
Proof.
  split; [split; [discriminate | reflexivity]|].
  apply (createUIComponent_original_null_anchor Sample.empty_page "login"
           Sample.quarter (Sample.loaded "bob")).
  - discriminate.
  - reflexivity.
Defined.

(** X13.  Neither revision guards the elements under the anchor: on a page
    whose navigation bar has no logout link the factory throws a
    TypeError after it has registered the bar (if its slot was free); the
    bar has no link and no listener, and its handler throws on every
    login notification. *)
Theorem createUIComponent_nav_without_link (doc : document) (v : variant)
    (r : spec_float) (s : state) (n : eref) :
  doc_query doc "#main-nav" = Some n →
  elem_query doc n "#logout-link" = None →
  let c := next_ref s in
  let k := Some (Num.random_id r) in
  let s' := snd (createUIComponent doc v "nav" r s) in
  fst (createUIComponent doc v "nav" r s) = Throw TypeError ∧
  components s' =
    match Obj.read k (components s) with
    | Cleared => Obj.set k (Holds c) (components s)
    | Holds _ => components s
    end ∧
  loginLinkElem (heap s' c) = None ∧
  listeners s' = listeners s ∧ rollbar s' = rollbar s ∧
  (∀ v' u, fst (listen c (login_payload v' u) s') = Throw TypeError).
Proof.
  intros Hn Hl. cbv zeta.
  destruct (createUIComponent_inits doc v "nav" r s) as (_ & Es & _ & _).
  unfold role_of_name in Es. simpl in Es. rewrite Hn in Es. simpl in Es.
  set (s0 := allocated RNav s) in *.
  assert (comp_role (heap s0 (next_ref s)) = RNav) as Hro.
  { unfold s0, allocated. simpl. now rewrite fn_lookup_insert. }
  destruct (init_accepted doc v (next_ref s) (AElem n) r s0)
    as (Hc & _ & _ & _ & Hrb); [done|].
  destruct (initComponent_accepts v (next_ref s) n r s0)
    as (s1 & Hi & He & Hr1 & Hl1 & _).
  assert (init doc v (next_ref s) (AElem n) r s0 =
          (Throw TypeError,
           set_heap (<[next_ref s := set_loginLinkElem None
                                       (heap s1 (next_ref s))]> (heap s1)) s1))
    as Hrun.
  { rewrite init_role, Hro. unfold navComponent_init.
    rewrite (bind_normal _ _ _ _ _ Hi).
    now rewrite (nav_rest_run doc (next_ref s) n None s1 He Hl). }
  rewrite Es. split.
  - rewrite createUIComponent_outcome. cbv zeta.
    unfold role_of_name. simpl. rewrite Hn. simpl. fold s0.
    now rewrite Hrun.
  - split; [exact Hc|]. rewrite Hrun in *. simpl in *.
    rewrite !fn_lookup_insert. simpl.
    split; [reflexivity|]. split; [exact Hl1|]. split; [exact Hrb|].
    intros v' u. unfold listen, bind, field, gets. simpl.
    rewrite !fn_lookup_insert. simpl. rewrite Hr1, Hro.
    unfold navComponent_listen, navComponent_showLogoutLink,
      classList_remove_at, bind, prop, field, gets, deref. simpl.
    now rewrite fn_lookup_insert.
Qed.

(** The navigation bar is created on a page whose [#main-nav] is empty. *)
Lemma createUIComponent_nav_without_link_witness :
  let doc := Sample.stripped in
  let s := Sample.loaded "bob" in
  let c := next_ref s in
  let k := Some (Num.random_id Sample.zero) in
  let s' := snd (createUIComponent doc Hardened "nav" Sample.zero s) in
  (doc_query doc "#main-nav" = Some 0%nat ∧
   elem_query doc 0%nat "#logout-link" = None) ∧
  fst (createUIComponent doc Hardened "nav" Sample.zero s) = Throw TypeError ∧
  components s' =
    match Obj.read k (components s) with
    | Cleared => Obj.set k (Holds c) (components s)
    | Holds _ => components s
    end ∧
  loginLinkElem (heap s' c) = None ∧
  listeners s' = listeners s ∧ rollbar s' = rollbar s ∧
  (∀ v' u, fst (listen c (login_payload v' u) s') = Throw TypeError).
Proof.
  split; [split; reflexivity|].
  apply (createUIComponent_nav_without_link Sample.stripped Hardened
           Sample.zero (Sample.loaded "bob") 0%nat); reflexivity.
Defined.

(** ** Complete pages and sound registries *)

(** On a complete page the [init] the factory runs returns and leaves the
    component ready. *)
Lemma init_complete doc v name r s c :
  complete doc v →
  comp_role (heap s c) = fst (role_of_name doc name) →
  ∃ s', init doc v c (snd (role_of_name doc name)) r s = (Normal tt, s') ∧
        ready (heap s' c).
Proof.
  intros ((n & Hn & l & Hl) & (b & Hb & f & Hf) & (b' & Hb' & w & Hw) &
          (x & Hx & h & Hh) & Hlm) Hro.
  destruct (role_of_name_cases doc name)
    as [[-> E]|[[-> E]|[[-> E]|(_ & _ & _ & E)]]]; rewrite E in *;
    simpl in Hro |- *.
  - rewrite Hn. simpl.
    destruct (init_nav doc v c n l r s Hro Hl) as (s' & Hi & Hr & Hk & _).
    exists s'. split; [exact Hi|]. unfold ready. rewrite Hr, Hk. now eexists.
  - rewrite Hb. simpl. rewrite Hb in Hb'. inversion Hb'; subst b'.
    destruct (init_login doc v c b f (Some w) r s Hro Hf Hw)
      as (s' & Hi & Hr & Hk & Hk' & _).
    exists s'. split; [exact Hi|]. unfold ready. rewrite Hr, Hk, Hk'.
    split; now eexists.
  - rewrite Hx. simpl.
    assert (∃ bt, v = Hardened → elem_query doc x "#learn-more" = Some bt)
      as (bt & Hbt).
    { destruct v; [exists 0%nat; discriminate|].
      destruct (Hlm eq_refl) as (x' & Hx' & bt & Hbt).
      rewrite Hx in Hx'. inversion Hx'; subst x'. now exists bt. }
    destruct (init_banner doc v c x (Some h) bt r s Hro Hh Hbt)
      as (s' & Hi & Hr & Hk & _).
    exists s'. split; [exact Hi|]. unfold ready. rewrite Hr, Hk. now eexists.
  - destruct (init_base doc v c AUndefined r s Hro) as (s' & Hi & Hr & _).
    exists s'. split; [exact Hi|]. unfold ready. now rewrite Hr.
Qed.

(** On a complete page the factory returns the new component, ready for
    a notification, and keeps the registry sound. *)
Lemma factory_sound doc v name r s :
  complete doc v → sound_registry s →
  ∃ s', createUIComponent doc v name r s = (Normal (next_ref s), s') ∧
        next_ref s' = S (next_ref s) ∧
        ready (heap s' (next_ref s)) ∧ sound_registry s'.
Proof.
  intros Hdoc Hs. rewrite createUIComponent_outcome. cbv zeta.
  set (ro := fst (role_of_name doc name)).
  set (el := snd (role_of_name doc name)).
  set (s0 := allocated ro s).
  assert (comp_role (heap s0 (next_ref s)) = ro) as Hro.
  { unfold s0, allocated. simpl. now rewrite fn_lookup_insert. }
  destruct (init_complete doc v name r s0 (next_ref s) Hdoc Hro)
    as (s' & Hi & Hready).
  fold el in Hi.
  pose proof (init_inits doc v (next_ref s) el r s0) as (_&_&_&_&Hn&Hh&_&_).
  pose proof (init_components doc v (next_ref s) el r s0) as Hc.
  cbv zeta in Hc. rewrite Hi in *. simpl in *.
  exists s'. split; [reflexivity|]. split; [exact Hn|].
  split; [exact Hready|].
  assert (∀ c, ready (heap s c) → ready (heap s' c)) as Hkeep.
  { intros c Hc'. destruct (decide (c = next_ref s)) as [->|Hne].
    - exact Hready.
    - rewrite (Hh c Hne). now rewrite fn_lookup_insert_ne by congruence. }
  intros k sl Hg. destruct Hc as [[E _]|(E & _)]; rewrite E in Hg.
  - destruct (Hs k sl Hg) as (c & -> & Hr). exists c. auto.
  - destruct (decide (k = Some (Num.random_id r))) as [->|Hne].
    + rewrite get_set_eq in Hg. inversion Hg. now exists (next_ref s).
    + rewrite get_set_ne in Hg by exact Hne.
      destruct (Hs k sl Hg) as (c & -> & Hr). exists c. auto.
Qed.

Lemma bind_snd_ind {A B} (I : state → Prop) (m : M A) (k : A → M B) s :
  I (snd (m s)) → (∀ a s1, I s1 → I (snd (k a s1))) → I (snd (bind m k s)).
Proof.
  intros Hm Hk. unfold bind. destruct (m s) as [[a|e] s1]; simpl in *; auto.
Qed.

Lemma sample_complete v : complete (Sample.page true) v.
Proof.
  unfold complete, has. simpl.
  repeat split; try intros _; eexists; (split; [reflexivity|]); now eexists.
Qed.

Lemma loaded_sound user : sound_registry (Sample.loaded user).
Proof. intros k sl Hg. discriminate. Qed.

Lemma sample_sound v user : sound_registry (Sample.booted true v user).
Proof.
  assert (∀ n r s, sound_registry s →
            sound_registry
              (snd (createUIComponent (Sample.page true) v n r s))) as Hstep.
  { intros n r s Hs.
    destruct (factory_sound (Sample.page true) v n r s (sample_complete v) Hs)
      as (s' & E & _ & _ & H). now rewrite E. }
  unfold Sample.booted, Sample.boot.
  apply bind_snd_ind; [apply Hstep, loaded_sound|]. intros _ s1 Hs1.
  apply bind_snd_ind; [now apply Hstep|]. intros _ s2 Hs2. now apply Hstep.
Qed.

(** X14.  On a complete page the factory returns the new component for
    every role name; the component is ready for a notification, and the
    registry stays sound: no slot cleared, every registered component
    ready. *)
Theorem createUIComponent_on_complete_page (doc : document) (v : variant)
    (name : string) (r : spec_float) (s : state) :
  complete doc v → sound_registry s →
  let s' := snd (createUIComponent doc v name r s) in
  fst (createUIComponent doc v name r s) = Normal (next_ref s) ∧
  ready (heap s' (next_ref s)) ∧
  sound_registry s'.
Proof.
  intros Hdoc Hs. cbv zeta.
  destruct (factory_sound doc v name r s Hdoc Hs) as (s' & E & _ & Hr & Hs').
  rewrite E. simpl. split; [reflexivity|]. split; assumption.
Qed.

(** The banner is created on the sample page. *)
Lemma createUIComponent_on_complete_page_witness :
  let s := Sample.loaded "bob" in
  let s' := snd (createUIComponent (Sample.page true) Hardened "banner"
                   Sample.half s) in
  (complete (Sample.page true) Hardened ∧ sound_registry s) ∧
  fst (createUIComponent (Sample.page true) Hardened "banner" Sample.half s)
  = Normal (next_ref s) ∧
  ready (heap s' (next_ref s)) ∧
  sound_registry s'.
Proof.
  split; [split; [apply sample_complete | apply loaded_sound]|].
  apply (createUIComponent_on_complete_page (Sample.page true) Hardened
           "banner" Sample.half (Sample.loaded "bob")).
  - apply sample_complete.
  - apply loaded_sound.
Defined.

(** X15.  On a sound registry a broadcast of an object returns without an
    error, whoever sends it, and leaves the registry sound. *)
Theorem broadcast_sound (sid : option Z) (fs : list (string * prim))
    (s : state) :
  sound_registry s →
  fst (uiSubscriber_broadcast sid (DObj fs) s) = Normal tt ∧
  sound_registry (snd (uiSubscriber_broadcast sid (DObj fs) s)).
Proof.
  intros Hs. split; [now apply broadcast_completes|].
  destruct (broadcast_registry sid (DObj fs) s) as (Hc & Hh & _).
  simpl in Hc, Hh. intros k sl Hg. rewrite Hc in Hg. rewrite Hh.
  exact (Hs k sl Hg).
Qed.

(** The navigation bar of the sample page announces a logout. *)
Lemma broadcast_sound_witness :
  let s := Sample.booted true Hardened "bob" in
  sound_registry s ∧
  fst (uiSubscriber_broadcast (Some 1000) (DObj [("loggingOut", PBool true)]) s)
  = Normal tt ∧
  sound_registry
    (snd (uiSubscriber_broadcast (Some 1000)
            (DObj [("loggingOut", PBool true)]) s)).
Proof.
  split; [apply sample_sound|].
  apply (broadcast_sound (Some 1000) [("loggingOut", PBool true)]
           (Sample.booted true Hardened "bob")).
  apply sample_sound.
Defined.

(** X16.  On a complete page the script of the original revision runs to
    its end and returns the banner, the third object it allocates; from
    a sound registry it leaves a sound one, on which every broadcast of
    an object returns without an error. *)
Theorem script_on_complete_page (doc : document) (r1 r2 r3 : spec_float)
    (s : state) :
  complete doc Original → sound_registry s →
  let s' := snd (script doc r1 r2 r3 s) in
  fst (script doc r1 r2 r3 s) = Normal (S (S (next_ref s))) ∧
  sound_registry s' ∧
  (∀ sid fs, fst (uiSubscriber_broadcast sid (DObj fs) s') = Normal tt).
Proof.
  intros Hdoc Hs. cbv zeta. unfold script.
  destruct (factory_sound doc Original "nav" r1 s Hdoc Hs)
    as (s1 & E1 & N1 & _ & Hs1).
  rewrite (bind_normal _ _ _ _ _ E1).
  destruct (factory_sound doc Original "login" r2 s1 Hdoc Hs1)
    as (s2 & E2 & N2 & _ & Hs2).
  rewrite (bind_normal _ _ _ _ _ E2).
  destruct (factory_sound doc Original "banner" r3 s2 Hdoc Hs2)
    as (s3 & E3 & _ & _ & Hs3).
  rewrite E3. simpl. rewrite N2, N1. split; [reflexivity|].
  split; [exact Hs3|]. intros sid fs. now apply broadcast_completes.
Qed.

(** The script runs on the sample page. *)
Lemma script_on_complete_page_witness :
  let s := Sample.loaded "bob" in
  let s' := snd (script (Sample.page true) Sample.zero Sample.quarter
                   Sample.half s) in
  (complete (Sample.page true) Original ∧ sound_registry s) ∧
  fst (script (Sample.page true) Sample.zero Sample.quarter Sample.half s)
  = Normal (S (S (next_ref s))) ∧
  sound_registry s' ∧
  (∀ sid fs, fst (uiSubscriber_broadcast sid (DObj fs) s') = Normal tt).
Proof.
  split; [split; [apply sample_complete | apply loaded_sound]|].
  apply (script_on_complete_page (Sample.page true) Sample.zero Sample.quarter
           Sample.half (Sample.loaded "bob")).
  - apply sample_complete.
  - apply loaded_sound.
Defined.

(** X17.  On a page without [#main-nav] the script of the original revision
    stops at its first line with a TypeError: one object, the navigation
    bar, was allocated; the login box and the banner are never created
    and no listener is installed. *)
Theorem script_without_nav (doc : document) (r1 r2 r3 : spec_float)
    (s : state) :
  doc_query doc "#main-nav" = None →
  let s' := snd (script doc r1 r2 r3 s) in
  fst (script doc r1 r2 r3 s) = Throw TypeError ∧
  next_ref s' = S (next_ref s) ∧
  comp_role (heap s' (next_ref s)) = RNav ∧
  listeners s' = listeners s.
Proof.
  intros Hn. cbv zeta. unfold script.
  assert (role_of_name doc "nav" = (RNav, ANull)) as Er.
  { unfold role_of_name. simpl. now rewrite Hn. }
  pose proof (createUIComponent_outcome doc Original "nav" r1 s) as Eo.
  cbv zeta in Eo. rewrite Er in Eo. simpl in Eo.
  set (s0 := allocated RNav s) in *.
  assert (comp_role (heap s0 (next_ref s)) = RNav) as Hro.
  { unfold s0, allocated. simpl. now rewrite fn_lookup_insert. }
  destruct (init_null_throws doc (next_ref s) r1 s0) as (Ht & Hl);
    [now rewrite Hro|].
  pose proof (init_inits doc Original (next_ref s) ANull r1 s0)
    as (_&_&_&_&Hnr&_&Hrole&_).
  rewrite Ht in Eo. rewrite (bind_throw _ _ _ _ _ Eo). simpl.
  split; [reflexivity|]. split; [exact Hnr|].
  split; [now rewrite Hrole | exact Hl].
Qed.

(** The script runs on a page with none of the anchors. *)
Lemma script_without_nav_witness :
  let doc := Sample.empty_page in
  let s := Sample.loaded "bob" in
  let s' := snd (script doc Sample.zero Sample.quarter Sample.half s) in
  doc_query doc "#main-nav" = None ∧
  fst (script doc Sample.zero Sample.quarter Sample.half s)
  = Throw TypeError ∧
  next_ref s' = S (next_ref s) ∧
  comp_role (heap s' (next_ref s)) = RNav ∧
  listeners s' = listeners s.
Proof.
  split; [reflexivity|].
  apply (script_without_nav Sample.empty_page Sample.zero Sample.quarter
           Sample.half (Sample.loaded "bob")).
  reflexivity.
Defined.

(** ** Well-formed registries *)

Lemma wf_step s s' c k :
  wf_registry s →
  (∀ k', Obj.get k' (components s) ≠ Some (Holds c)) →
  (c < next_ref s')%nat → (next_ref s ≤ next_ref s')%nat →
  (∀ c', c' ≠ c → componentId (heap s' c') = componentId (heap s c')) →
  (components s' = components s ∨
   (components s' = Obj.set k (Holds c) (components s) ∧
    componentId (heap s' c) = k)) →
  wf_registry s'.
Proof.
  intros (Hn & Hs & Hk) Hc Hlt Hle Hid [E|[E Hck]];
    unfold wf_registry; rewrite E.
  - split; [exact Hn|]. split; [exact Hs|]. intros k' c' Hg.
    destruct (Hk k' c' Hg) as [H1 H2].
    assert (c' ≠ c) by (intros ->; now apply (Hc k')).
    rewrite Hid by assumption. split; [exact H1 | lia].
  - destruct (set_keys k (Holds c) (components s) Hn Hs) as [Hn' Hs'].
    split; [exact Hn'|]. split; [exact Hs'|]. intros k' c' Hg.
    destruct (decide (k' = k)) as [->|Hne].
    + rewrite get_set_eq in Hg. inversion Hg; subst c'. now split.
    + rewrite get_set_ne in Hg by exact Hne.
      destruct (Hk k' c' Hg) as [H1 H2].
      assert (c' ≠ c) by (intros ->; now apply (Hc k')).
      rewrite Hid by assumption. split; [exact H1 | lia].
Qed.

Lemma createUIComponent_keeps_wf doc v name r s :
  wf_registry s → wf_registry (snd (createUIComponent doc v name r s)).
Proof.
  intros Hwf.
  destruct (createUIComponent_inits doc v name r s)
    as ((_&_&_&_&Hn&Hh&_&_) & Es & _).
  set (ro := fst (role_of_name doc name)) in *.
  set (el := snd (role_of_name doc name)) in *.
  pose proof (init_components doc v (next_ref s) el r (allocated ro s)) as Hc.
  cbv zeta in Hc. rewrite <- Es in Hc.
  set (s' := snd (createUIComponent doc v name r s)) in *.
  unfold allocated in Hn, Hh, Hc. simpl in Hn, Hh, Hc.
  apply (wf_step s s' (next_ref s) (Some (Num.random_id r))); try assumption.
  - intros k' Hg. destruct Hwf as (_ & _ & Hk).
    destruct (Hk k' _ Hg) as [_ Hlt]. lia.
  - lia.
  - lia.
  - intros c' Hne. rewrite (Hh c' Hne).
    now rewrite fn_lookup_insert_ne by congruence.
  - destruct Hc as [[E _]|(E & Hid & _)]; [now left | now right].
Qed.

Lemma loaded_wf user : wf_registry (Sample.loaded user).
Proof.
  split; [constructor|]. split; [constructor|]. intros k c Hg. discriminate.
Qed.

Lemma sample_wf b v user : wf_registry (Sample.booted b v user).
Proof.
  unfold Sample.booted, Sample.boot.
  apply bind_snd_ind; [apply createUIComponent_keeps_wf, loaded_wf|].
  intros _ s1 Hs1.
  apply bind_snd_ind; [now apply createUIComponent_keeps_wf|].
  intros _ s2 Hs2. now apply createUIComponent_keeps_wf.
Qed.

(** X18.  The factory keeps the registry well formed, whatever the page,
    the role name and the identifier drawn, and however [init] ends; it
    removes no component from the registry and adds at most the new
    one. *)
Theorem createUIComponent_keeps_registry (doc : document) (v : variant)
    (name : string) (r : spec_float) (s : state) :
  wf_registry s →
  let s' := snd (createUIComponent doc v name r s) in
  wf_registry s' ∧
  (∀ c, registered c s → registered c s') ∧
  (∀ c, registered c s' → registered c s ∨ c = next_ref s).
Proof.
  intros Hwf. cbv zeta.
  split; [now apply createUIComponent_keeps_wf|].
  destruct (createUIComponent_inits doc v name r s) as (_ & Es & _).
  pose proof (init_components doc v (next_ref s)
                (snd (role_of_name doc name)) r
                (allocated (fst (role_of_name doc name)) s)) as Hc.
  cbv zeta in Hc. rewrite <- Es in Hc. simpl in Hc.
  set (s' := snd (createUIComponent doc v name r s)) in *.
  destruct Hc as [[E _]|(E & _ & Hfree)]; unfold registered; rewrite E.
  - split; auto.
  - split.
    + intros c (k & Hg).
      destruct (decide (k = Some (Num.random_id r))) as [->|Hne].
      * exfalso. unfold Obj.read in Hfree. now rewrite Hg in Hfree.
      * exists k. now rewrite get_set_ne.
    + intros c (k & Hg).
      destruct (decide (k = Some (Num.random_id r))) as [->|Hne].
      * rewrite get_set_eq in Hg. inversion Hg. now right.
      * rewrite get_set_ne in Hg by exact Hne. left. now exists k.
Qed.

(** A second navigation bar is created on the sample page. *)
Lemma createUIComponent_keeps_registry_witness :
  let s := Sample.booted true Hardened "bob" in
  let s' := snd (createUIComponent (Sample.page true) Hardened "nav"
                   Sample.half s) in
  wf_registry s ∧
  wf_registry s' ∧
  (∀ c, registered c s → registered c s') ∧
  (∀ c, registered c s' → registered c s ∨ c = next_ref s).
Proof.
  split; [apply sample_wf|].
  apply (createUIComponent_keeps_registry (Sample.page true) Hardened "nav"
           Sample.half (Sample.booted true Hardened "bob")).
  apply sample_wf.
Defined.

(** X19.  A component created under an identifier whose slot is taken is
    not registered, whatever its role and however its [init] ends. *)
Theorem createUIComponent_collision (doc : document) (v : variant)
    (name : string) (r : spec_float) (s : state) (c1 : cref) :
  wf_registry s →
  Obj.read (Some (Num.random_id r)) (components s) = Holds c1 →
  let s' := snd (createUIComponent doc v name r s) in
  components s' = components s ∧ ¬ registered (next_ref s) s'.
Proof.
  intros Hwf Htaken. cbv zeta.
  assert (components (snd (createUIComponent doc v name r s)) = components s)
    as E.
  { destruct (createUIComponent_inits doc v name r s) as (_ & -> & _).
    set (el := snd (role_of_name doc name)).
    assert ((v = Hardened ∧ absent el = true) ∨
            (v = Hardened → absent el = false)) as [[-> Ha]|Hn].
    { destruct v; [right; discriminate|].
      destruct (absent el); [now left | now right]. }
    - now destruct (init_refused doc (next_ref s) el r (allocated
        (fst (role_of_name doc name)) s) Ha) as (-> & _).
    - destruct (init_accepted doc v (next_ref s) el r
                  (allocated (fst (role_of_name doc name)) s) Hn) as (Hc & _).
      simpl in Hc. now rewrite Htaken in Hc. }
  split; [exact E|]. unfold registered. rewrite E. intros (k & Hg).
  destruct Hwf as (_ & _ & Hk). destruct (Hk k _ Hg) as [_ Hlt]. lia.
Qed.

(** A second navigation bar draws 5500, the identifier of the banner. *)
Lemma createUIComponent_collision_witness :
  let s := Sample.booted true Hardened "bob" in
  let s' := snd (createUIComponent (Sample.page true) Hardened "nav"
                   Sample.half s) in
  wf_registry s ∧
  Obj.read (Some (Num.random_id Sample.half)) (components s) = Holds 2%nat ∧
  components s' = components s ∧ ¬ registered (next_ref s) s'.
Proof.
  split; [apply sample_wf|]. split; [vm_compute; reflexivity|].
  apply (createUIComponent_collision (Sample.page true) Hardened "nav"
           Sample.half (Sample.booted true Hardened "bob") 2%nat).
  - apply sample_wf.
  - vm_compute. reflexivity.
Defined.

Lemma omap_sorted {A B} (R : relation A) (R' : relation B)
    (f : A → option B) (l : list A) :
  (∀ x y a b, R x y → f x = Some a → f y = Some b → R' a b) →
  StronglySorted R l → StronglySorted R' (omap f l).
Proof.
  intros Hf. induction 1 as [|x l Hs IH Hx]; simpl; [constructor|].
  destruct (f x) as [a|] eqn:Ex; [|exact IH].
  constructor; [exact IH|].
  apply Forall_forall. intros b Hb.
  apply list_elem_of_omap in Hb as (y & Hy & Ey).
  rewrite Forall_forall in Hx. exact (Hf x y a b (Hx y Hy) Ex Ey).
Qed.

Lemma omap_nodup {A B} (f : A → option B) (l : list A) :
  (∀ x y a, f x = Some a → f y = Some a → x = y) →
  NoDup l → NoDup (omap f l).
Proof.
  intros Hf. induction 1 as [|x l Hx Hn IH]; simpl; [constructor|].
  destruct (f x) as [a|] eqn:Ex; [|exact IH].
  constructor; [|exact IH].
  intros Ha. apply list_elem_of_omap in Ha as (y & Hy & Ey).
  now rewrite (Hf x y a Ex Ey) in Hx.
Qed.

Lemma sorted_reverse {A} (R : relation A) (l : list A) :
  StronglySorted R l → StronglySorted (flip R) (reverse l).
Proof.
  induction 1 as [|x l Hs IH Hx]; [constructor|].
  rewrite reverse_cons. apply StronglySorted_app_2.
  - intros y z Hy Hz. apply list_elem_of_singleton in Hz as ->.
    rewrite elem_of_reverse in Hy. rewrite Forall_forall in Hx.
    unfold flip. now apply Hx.
  - exact IH.
  - repeat constructor.
Qed.

(** Under a well-formed registry the component called for a key carries
    that key as its identifier. *)
Lemma recipient_key sid s k c :
  wf_registry s → recipient sid s k = Some c → componentId (heap s c) = k.
Proof.
  intros (_ & _ & Hk). unfold recipient.
  destruct (Obj.read k (components s)) as [|c'] eqn:Hr; [discriminate|].
  destruct (decide _); [|discriminate]. intros E. inversion E; subst c'.
  apply read_get in Hr. now destruct (Hk k c Hr).
Qed.

(** X20.  On a well-formed registry a broadcast calls no handler twice, and
    it calls them in the reverse of the order of [Object.keys]: if the
    identifier of a component called earlier is an integer index, the
    identifier of every component called later is a smaller one. *)
Theorem broadcast_order (sid : option Z) (d : data) (s : state) :
  wf_registry s →
  ∃ new,
    invoked (snd (uiSubscriber_broadcast sid d s)) = invoked s ++ new ∧
    NoDup new ∧
    StronglySorted
      (λ x y, precedes (componentId (heap s y.1)) (componentId (heap s x.1)))
      new.
Proof.
  intros Hwf. pose proof Hwf as (Hn & Hs & _).
  destruct (broadcast_calls sid d s) as (ks1 & ks2 & E & Hi & _).
  eexists. split; [exact Hi|].
  assert (NoDup ks1) as Hn1.
  { rewrite <- reverse_Permutation, E in Hn.
    now apply NoDup_app in Hn as (? & _). }
  assert (StronglySorted (flip precedes) ks1) as Hs1.
  { apply sorted_reverse in Hs. rewrite E in Hs.
    now apply StronglySorted_app_1_l in Hs. }
  split.
  - apply NoDup_fmap_2; [intros x y; congruence|].
    apply omap_nodup; [|exact Hn1].
    intros k k' c Hk Hk'.
    rewrite <- (recipient_key sid s k c Hwf Hk).
    now rewrite <- (recipient_key sid s k' c Hwf Hk').
  - apply StronglySorted_fmap
      with (R1 := λ c c', precedes (componentId (heap s c'))
                            (componentId (heap s c))); [auto|].
    eapply omap_sorted; [|exact Hs1].
    intros k k' c c' Hp Hk Hk'.
    rewrite (recipient_key sid s k c Hwf Hk).
    now rewrite (recipient_key sid s k' c' Hwf Hk').
Qed.

(** The registry of the sample page is well formed. *)
Lemma broadcast_order_witness :
  let s := Sample.booted true Hardened "bob" in
  let d := login_payload Hardened "bob" in
  wf_registry s ∧
  ∃ new,
    invoked (snd (uiSubscriber_broadcast (Some 3250) d s)) = invoked s ++ new ∧
    NoDup new ∧
    StronglySorted
      (λ x y, precedes (componentId (heap s y.1)) (componentId (heap s x.1)))
      new.
Proof.
  split; [apply sample_wf|].
  apply (broadcast_order (Some 3250) (login_payload Hardened "bob")
           (Sample.booted true Hardened "bob")).
  apply sample_wf.
Defined.

(** ** Sessions *)

#[global] Instance session_kept_preorder : PreOrder session_kept.
Proof.
  split.
  - intros s. repeat split.
  - intros s1 s2 s3 (?&?&?&?&?&Ha) (?&?&?&?&?&Hb).
    repeat split; congruence.
Qed.

Lemma update_elem_session e f :
  (∀ x, value (f x) = value x) → keeps session_kept (update_elem e f).
Proof.
  intros Hf s. unfold update_elem, modify. simpl. repeat split.
  intros e'. simpl. unfold insert, fn_insert.
  destruct (decide (e = e')) as [->|]; [apply Hf | reflexivity].
Qed.

Lemma classList_add_at_session o t : keeps session_kept (classList_add_at o t).
Proof.
  unfold classList_add_at. repeat keeps_step.
  now apply update_elem_session.
Qed.

Lemma classList_remove_at_session o t :
  keeps session_kept (classList_remove_at o t).
Proof.
  unfold classList_remove_at. repeat keeps_step.
  now apply update_elem_session.
Qed.

Lemma set_textContent_at_session o v :
  keeps session_kept (set_textContent_at o v).
Proof.
  unfold set_textContent_at. repeat keeps_step.
  now apply update_elem_session.
Qed.

Ltac session_step :=
  first
    [ apply classList_add_at_session
    | apply classList_remove_at_session
    | apply set_textContent_at_session
    | keeps_step ].

Lemma listen_session c d : keeps session_kept (listen c d).
Proof.
  unfold listen. keeps_step; [keeps_step|]. destruct a.
  - intros s. repeat split.
  - unfold navComponent_listen, navComponent_showLogoutLink.
    keeps_step; [keeps_step|]. destruct (truthy a); repeat session_step.
  - unfold loginComponent_listen, loginComponent_logout.
    keeps_step; [keeps_step|]. destruct (truthy a); repeat session_step.
  - unfold bannerComponent_listen. repeat session_step.
Qed.

Lemma broadcast_session sid d :
  keeps session_kept (uiSubscriber_broadcast sid d).
Proof.
  unfold uiSubscriber_broadcast.
  apply keeps_bind; [typeclasses eauto | intros s; repeat split | intros _].
  apply keeps_bind; [typeclasses eauto | keeps_step | intros keys].
  induction (reverse keys) as [|k ks IH]; simpl; [keeps_step|].
  apply keeps_bind; [typeclasses eauto | | intros _; exact IH].
  unfold broadcast_step.
  apply keeps_bind; [typeclasses eauto | keeps_step | intros sl].
  destruct sl as [|c]; [keeps_step|].
  apply keeps_bind; [typeclasses eauto | keeps_step | intros cid].
  destruct (decide _); [|keeps_step].
  apply keeps_bind; [typeclasses eauto | intros s; repeat split | intros _].
  apply listen_session.
Qed.

Lemma login_session doc v c : keeps session_kept (loginComponent_login doc v c).
Proof.
  unfold loginComponent_login.
  keeps_step; [keeps_step|]. keeps_step; [destruct a; simpl; keeps_step|].
  keeps_step; [keeps_step|]. keeps_step; [keeps_step|].
  destruct (negb _); [|keeps_step].
  repeat first [apply broadcast_session | session_step].
Qed.

Lemma onClick_session c : keeps session_kept (navComponent_onClick c).
Proof.
  unfold navComponent_onClick, navComponent_hideLogoutLink.
  repeat first [apply broadcast_session | session_step].
Qed.

(** X21.  A submit of the login form and a click on the logout link change
    neither the registry nor a component object, install no listener,
    report nothing to the error collector, and leave the value of every
    element as it is: the name typed stays in the field. *)
Theorem session_keeps_registry_and_values (doc : document) (v : variant)
    (c : cref) (s : state) :
  session_kept s (snd (loginComponent_login doc v c s)) ∧
  session_kept s (snd (navComponent_onClick c s)).
Proof. split; [apply login_session | apply onClick_session]. Qed.

(** X22.  A submit with an empty username field does nothing at all: no
    broadcast, no change of the page, no error. *)
Theorem login_empty_username (doc : document) (v : variant) (c : cref)
    (s : state) (a eu : eref) :
  elem (heap s c) = AElem a →
  elem_query doc a "#username" = Some eu →
  value (dom s eu) = "" →
  loginComponent_login doc v c s = (Normal tt, s).
Proof.
  intros Ha Hq Hu. unfold loginComponent_login.
  rewrite (bind_normal (field c elem) _ s _ s eq_refl). rewrite Ha.
  rewrite (bind_normal (query doc (AElem a) "#username") _ s _ s eq_refl).
  rewrite Hq.
  rewrite (bind_normal (deref (Some eu)) _ s _ s eq_refl).
  rewrite (bind_normal (gets (λ s0, value (dom s0 eu))) _ s _ s eq_refl).
  now rewrite Hu.
Qed.

(** The form of the sample page is submitted with nothing typed. *)
Lemma login_empty_username_witness :
  let s := Sample.booted true Hardened "" in
  (elem (heap s 1%nat) = AElem 2%nat ∧
   elem_query (Sample.page true) 2%nat "#username" = Some 4%nat ∧
   value (dom s 4%nat) = "") ∧
  loginComponent_login (Sample.page true) Hardened 1%nat s = (Normal tt, s).
Proof.
  split; [repeat split; vm_compute; reflexivity|].
  apply (login_empty_username (Sample.page true) Hardened 1%nat
           (Sample.booted true Hardened "") 2%nat 4%nat);
    vm_compute; reflexivity.
Defined.

(** X23.  When a handler throws during the broadcast of [login], the
    exception leaves [login] as it is and [login] does nothing after it:
    the state is the one the broadcast left, so the welcome region is not
    revealed and the form is not hidden by [login]. *)
Theorem login_broadcast_fails (doc : document) (v : variant) (c : cref)
    (s : state) (a eu : eref) (n : notifier) (e : exn) :
  elem (heap s c) = AElem a →
  elem_query doc a "#username" = Some eu →
  value (dom s eu) ≠ "" →
  componentNotifier (heap s c) = Some n →
  fst (uiSubscriber_broadcast (componentId (heap s c))
         (login_payload v (value (dom s eu))) s) = Throw e →
  loginComponent_login doc v c s =
  (Throw e,
   snd (uiSubscriber_broadcast (componentId (heap s c))
          (login_payload v (value (dom s eu))) s)) ∧
  e = TypeError.
Proof.
  intros Ha Hq Hu Hn Hb.
  split; [|exact (broadcast_loop_type_errors _ _ _ _ _ Hb)].
  rewrite (login_run doc v c s a eu n Ha Hq Hu Hn).
  unfold bind at 1.
  destruct (uiSubscriber_broadcast _ _ s) as [[[]|e'] s1]; simpl in *;
    congruence.
Qed.

(** "bob" submits the form of the page whose banner has no [h1]. *)
Lemma login_broadcast_fails_witness :
  let s := Sample.booted false Hardened "bob" in
  let d := login_payload Hardened (value (dom s 4%nat)) in
  (elem (heap s 1%nat) = AElem 2%nat ∧
   elem_query (Sample.page false) 2%nat "#username" = Some 4%nat ∧
   value (dom s 4%nat) ≠ "" ∧
   componentNotifier (heap s 1%nat) = Some UiSubscriber ∧
   fst (uiSubscriber_broadcast (componentId (heap s 1%nat)) d s)
   = Throw TypeError) ∧
  loginComponent_login (Sample.page false) Hardened 1%nat s =
  (Throw TypeError,
   snd (uiSubscriber_broadcast (componentId (heap s 1%nat)) d s)) ∧
  TypeError = TypeError.
Proof.
  assert (value (dom (Sample.booted false Hardened "bob") 4%nat) ≠ "") as Hu.
  { vm_compute. discriminate. }
  split.
  - repeat (split; [first [exact Hu | vm_compute; reflexivity]|]).
    vm_compute. reflexivity.
  - apply (login_broadcast_fails (Sample.page false) Hardened 1%nat
             (Sample.booted false Hardened "bob") 2%nat 4%nat UiSubscriber
             TypeError);
      first [exact Hu | vm_compute; reflexivity].
Defined.

(** X24.  On a sound registry neither a submit of the login form nor a
    click on the logout link throws, and both leave the registry sound,
    provided the component that acts has bound its own elements. *)
Theorem session_on_sound_registry (doc : document) (v : variant) (s : state)
    (cl cn : cref) (a eu w f l : eref) :
  sound_registry s →
  elem (heap s cl) = AElem a →
  elem_query doc a "#username" = Some eu →
  componentNotifier (heap s cl) = Some UiSubscriber →
  welcomeElem (heap s cl) = Some w →
  formElem (heap s cl) = Some f →
  componentNotifier (heap s cn) = Some UiSubscriber →
  loginLinkElem (heap s cn) = Some l →
  (fst (loginComponent_login doc v cl s) = Normal tt ∧
   sound_registry (snd (loginComponent_login doc v cl s))) ∧
  (fst (navComponent_onClick cn s) = Normal tt ∧
   sound_registry (snd (navComponent_onClick cn s))).
Proof.
  intros Hs Ha Hq Hn Hw Hf Hn' Hl.
  assert (∀ s', session_kept s s' → sound_registry s') as Hkeep.
  { intros s' (Hc & Hh & _) k sl Hg. rewrite Hc in Hg. rewrite Hh.
    exact (Hs k sl Hg). }
  split; (split; [|apply Hkeep; first [apply login_session
                                       | apply onClick_session]]).
  - destruct (decide (value (dom s eu) = "")) as [Hu|Hu].
    + unfold loginComponent_login.
      rewrite (bind_normal (field cl elem) _ s _ s eq_refl). rewrite Ha.
      rewrite (bind_normal (query doc (AElem a) "#username") _ s _ s eq_refl).
      rewrite Hq.
      rewrite (bind_normal (deref (Some eu)) _ s _ s eq_refl).
      rewrite (bind_normal (gets (λ s0, value (dom s0 eu))) _ s _ s eq_refl).
      now rewrite Hu.
    + rewrite (login_run doc v cl s a eu UiSubscriber Ha Hq Hu Hn).
      set (sid := componentId (heap s cl)).
      set (d := login_payload v (value (dom s eu))).
      pose proof (broadcast_completes sid _ s Hs : fst (uiSubscriber_broadcast
                    sid d s) = Normal tt) as Hb.
      destruct (broadcast_registry sid d s) as (_ & Hh & _).
      destruct (uiSubscriber_broadcast sid d s) as [[[]|e] s1] eqn:Eb;
        [|discriminate].
      simpl in Hh. rewrite (bind_normal _ _ _ _ _ Eb).
      now rewrite (welcome_run cl w f _ s1) by (now rewrite Hh).
  - unfold navComponent_onClick.
    rewrite (bind_normal (field cn componentNotifier) _ s _ s eq_refl), Hn'.
    rewrite (bind_normal (deref (Some UiSubscriber)) _ s _ s eq_refl).
    rewrite (bind_normal (field cn componentId) _ s _ s eq_refl).
    set (sid := componentId (heap s cn)).
    pose proof (broadcast_completes sid _ s Hs : fst (uiSubscriber_broadcast
                  sid logout_payload s) = Normal tt) as Hb.
    destruct (broadcast_registry sid logout_payload s) as (_ & Hh & _).
    destruct (uiSubscriber_broadcast sid logout_payload s)
      as [[[]|e] s1] eqn:Eb; [|discriminate].
    simpl in Hh. rewrite (bind_normal _ _ _ _ _ Eb).
    unfold navComponent_hideLogoutLink.
    rewrite (bind_normal (field cn loginLinkElem) _ s1 _ s1 eq_refl).
    now rewrite Hh, Hl.
Qed.

(** The login box and the navigation bar of the sample page. *)
Lemma session_on_sound_registry_witness :
  let s := Sample.booted true Hardened "bob" in
  let doc := Sample.page true in
  (sound_registry s ∧
   elem (heap s 1%nat) = AElem 2%nat ∧
   elem_query doc 2%nat "#username" = Some 4%nat ∧
   componentNotifier (heap s 1%nat) = Some UiSubscriber ∧
   welcomeElem (heap s 1%nat) = Some 5%nat ∧
   formElem (heap s 1%nat) = Some 3%nat ∧
   componentNotifier (heap s 0%nat) = Some UiSubscriber ∧
   loginLinkElem (heap s 0%nat) = Some 1%nat) ∧
  (fst (loginComponent_login doc Hardened 1%nat s) = Normal tt ∧
   sound_registry (snd (loginComponent_login doc Hardened 1%nat s))) ∧
  (fst (navComponent_onClick 0%nat s) = Normal tt ∧
   sound_registry (snd (navComponent_onClick 0%nat s))).
Proof.
  split.
  - split; [apply sample_sound|].
    repeat (split; [vm_compute; reflexivity|]). vm_compute. reflexivity.
  - apply (session_on_sound_registry (Sample.page true) Hardened
             (Sample.booted true Hardened "bob") 1%nat 0%nat 2%nat 4%nat
             5%nat 3%nat 1%nat);
      first [apply sample_sound | vm_compute; reflexivity].
Defined.

(** ** The banner hears of a login and of a logout *)

(** What the handler of a banner does. *)
Lemma banner_listen_run c fs h s :
  comp_role (heap s c) = RBanner → headlineElem (heap s c) = Some h →
  listen c (DObj fs) s =
  (Normal tt,
   set_dom (<[h := set_textContent (greeting fs) (dom s h)]> (dom s)) s).
Proof.
  intros Hr Hh. unfold listen, bannerComponent_listen, bind, field, gets, prop.
  simpl. rewrite Hr. simpl. now rewrite Hh.
Qed.

(** What the handler of any component does to the text of the elements
    when it is handed an object and returns. *)
Lemma listen_text c fs s s1 :
  listen c (DObj fs) s = (Normal tt, s1) →
  (∀ e, textContent (dom s1 e) = textContent (dom s e)) ∨
  (∃ h, headlineElem (heap s c) = Some h ∧ comp_role (heap s c) = RBanner ∧
        dom s1 = <[h := set_textContent (greeting fs) (dom s h)]> (dom s)) ∨
  (∃ w f, welcomeElem (heap s c) = Some w ∧ formElem (heap s c) = Some f ∧
          comp_role (heap s c) = RLogin ∧
          truthy (lookup_field "loggingOut" fs) = true ∧
          dom s1 = logout_dom w f (dom s)).
Proof.
  unfold listen.
  rewrite (bind_normal (field c comp_role) _ s _ s eq_refl).
  destruct (comp_role (heap s c)) eqn:Hr.
  - intros El. inversion El. now left.
  - unfold navComponent_listen, navComponent_showLogoutLink.
    rewrite (bind_normal (prop (DObj fs) "loggedIn") _ s _ s eq_refl).
    destruct (truthy _); [|intros El; inversion El; now left].
    rewrite (bind_normal (field c loginLinkElem) _ s _ s eq_refl).
    destruct (loginLinkElem (heap s c)) as [l|]; [|discriminate].
    rewrite classList_remove_at_run. intros El. inversion El. left.
    intros e. simpl. unfold insert, fn_insert.
    now destruct (decide (l = e)) as [->|].
  - unfold loginComponent_listen.
    rewrite (bind_normal (prop (DObj fs) "loggingOut") _ s _ s eq_refl).
    destruct (truthy _) eqn:Et; [|intros El; inversion El; now left].
    intros El. destruct (logout_normal_inv c s s1 El) as (w & f & Hw & Hf).
    rewrite (logout_run c w f s Hw Hf) in El. inversion El.
    right. right. exists w, f. repeat split; assumption.
  - unfold bannerComponent_listen, bind, field, gets, prop. simpl.
    destruct (headlineElem (heap s c)) as [h|] eqn:Hh; simpl; [|discriminate].
    intros El. inversion El. right. left. exists h. repeat split.
Qed.

#[global] Instance text_kept_preorder h : PreOrder (text_kept h).
Proof.
  split.
  - intros s. split; reflexivity.
  - intros s1 s2 s3 [Ha Ka] [Hb Kb].
    split; [etransitivity; eassumption | congruence].
Qed.

Lemma update_elem_text h e g :
  (e = h → ∀ x, textContent (g x) = textContent x) →
  keeps (text_kept h) (update_elem e g).
Proof.
  intros Hg s. split; [apply update_elem_shell|].
  unfold update_elem, modify. simpl.
  unfold insert, fn_insert. destruct (decide (e = h)) as [->|]; auto.
Qed.

Lemma classList_remove_at_text h o t :
  keeps (text_kept h) (classList_remove_at o t).
Proof.
  unfold classList_remove_at. repeat keeps_step.
  now apply update_elem_text.
Qed.

Lemma classList_add_at_text h o t : keeps (text_kept h) (classList_add_at o t).
Proof.
  unfold classList_add_at. repeat keeps_step.
  now apply update_elem_text.
Qed.

Lemma set_textContent_at_text h o v :
  o ≠ Some h → keeps (text_kept h) (set_textContent_at o v).
Proof.
  intros Hne. unfold set_textContent_at.
  apply keeps_bind_deref; [typeclasses eauto|]. intros e ->.
  apply update_elem_text. intros ->. now contradict Hne.
Qed.

Lemma logout_dom_text w f h D :
  w ≠ h → textContent (logout_dom w f D h) = textContent (D h).
Proof.
  intros Hne. unfold logout_dom.
  unfold insert, fn_insert. destruct (decide (f = h)) as [->|]; simpl.
  - now rewrite !decide_False by exact Hne.
  - now rewrite !decide_False by exact Hne.
Qed.

(** A handler that returns keeps a greeting it would show itself. *)
Lemma listen_keeps_greeting c fs h s s1 :
  (truthy (lookup_field "loggingOut" fs) = true →
   welcomeElem (heap s c) ≠ Some h) →
  listen c (DObj fs) s = (Normal tt, s1) →
  textContent (dom s h) = greeting fs →
  textContent (dom s1 h) = greeting fs.
Proof.
  intros Hw El HP.
  destruct (listen_text c fs s s1 El)
    as [Ht | [(h' & _ & _ & ->) | (w & f & Hw' & _ & _ & Hlo & ->)]].
  - now rewrite Ht.
  - unfold insert, fn_insert. destruct (decide (h' = h)) as [->|]; auto.
  - rewrite logout_dom_text; [exact HP|].
    intros ->. now apply (Hw Hlo).
Qed.

(** X25.  A submit of the login form reaches the banner: if the broadcast
    returns, the headline of a registered banner reads "Hello " and the
    name in the payload when [login] ends: the name typed in the hardened
    revision, "Zakir" in the original one. *)
Theorem login_greets_in_banner (doc : document) (v : variant) (s : state)
    (cl cb : cref) (a eu h : eref) (k : key) :
  elem (heap s cl) = AElem a →
  elem_query doc a "#username" = Some eu →
  value (dom s eu) ≠ "" →
  componentNotifier (heap s cl) = Some UiSubscriber →
  Obj.get k (components s) = Some (Holds cb) →
  comp_role (heap s cb) = RBanner →
  headlineElem (heap s cb) = Some h →
  componentId (heap s cb) ≠ componentId (heap s cl) →
  welcomeElem (heap s cl) ≠ Some h →
  fst (uiSubscriber_broadcast (componentId (heap s cl))
         (login_payload v (value (dom s eu))) s) = Normal tt →
  textContent (dom (snd (loginComponent_login doc v cl s)) h) =
  "Hello " +:+ match v with
               | Original => "Zakir"
               | Hardened => value (dom s eu)
               end.
Proof.
  intros Ha Hq Hu Hn Hg Hrole Hh Hid Hw Hdone.
  rewrite (login_run doc v cl s a eu UiSubscriber Ha Hq Hu Hn).
  set (sid := componentId (heap s cl)) in *.
  set (u := value (dom s eu)) in *.
  set (fs := [("username", PStr match v with
                                | Original => "Zakir"
                                | Hardened => u
                                end);
              ("loggedIn", PBool true)]).
  assert (login_payload v u = DObj fs) as Ed by reflexivity.
  assert (greeting fs = "Hello " +:+ match v with
                                     | Original => "Zakir"
                                     | Hardened => u
                                     end) as Eg.
  { unfold greeting, fs. simpl. destruct v; [reflexivity|].
    apply String.eqb_neq in Hu. now rewrite Hu. }
  rewrite <- Eg. rewrite Ed in *.
  destruct (uiSubscriber_broadcast sid (DObj fs) s) as [[[]|e] s1] eqn:Eb;
    [|discriminate].
  destruct (broadcast_reach sid (DObj fs) s k cb
              (λ s1, textContent (dom s1 h) = greeting fs) s1)
    as [HP ((_ & Hheap & _) & _)]; auto.
  { intros s2 s3 ((_ & Hh2 & _) & _) El. simpl in Hh2.
    rewrite (banner_listen_run cb fs h) in El; simpl; rewrite ?Hh2; auto.
    inversion El. simpl. now rewrite fn_lookup_insert. }
  { intros c' s2 s3 _ HP El.
    apply (listen_keeps_greeting c' fs h (add_invoked (c', DObj fs) s2) s3);
      [|exact El|exact HP].
    intros Hlo. unfold fs in Hlo. simpl in Hlo. discriminate. }
  simpl in Hheap. rewrite (bind_normal _ _ _ _ _ Eb).
  match goal with |- textContent (dom (snd (?m s1)) h) = _ =>
    assert (text_kept h s1 (snd (m s1))) as (_ & Ht)
  end.
  { generalize s1 (eq_ind_r (λ x, welcomeElem (x cl) ≠ Some h) Hw Hheap).
    change (keeps_from (λ s2, welcomeElem (heap s2 cl) ≠ Some h) (text_kept h)
      (w <~ field cl welcomeElem;
       classList_remove_at w "d-none";~
       w0 <~ field cl welcomeElem;
       set_textContent_at w0 ("Welcome " +:+ u);~
       f <~ field cl formElem;
       classList_add_at f "d-none")).
    assert (∀ s2 s3, welcomeElem (heap s2 cl) ≠ Some h →
                     text_kept h s2 s3 →
                     welcomeElem (heap s3 cl) ≠ Some h) as Hstable.
    { intros s2 s3 H2 ((_ & Hh' & _) & _). now rewrite Hh'. }
    apply keeps_from_bind; [typeclasses eauto | exact Hstable | |intros w].
    { apply keeps_from_any. apply keeps_field. typeclasses eauto. }
    apply keeps_from_bind; [typeclasses eauto | exact Hstable | |intros _].
    { apply keeps_from_any. apply classList_remove_at_text. }
    intros s2 H2.
    rewrite (bind_normal (field cl welcomeElem) _ s2 _ s2 eq_refl).
    unfold bind at 1.
    pose proof (set_textContent_at_text h (welcomeElem (heap s2 cl))
                  ("Welcome " +:+ u) H2 s2) as Hset.
    destruct (set_textContent_at (welcomeElem (heap s2 cl)) _ s2)
      as [[[]|e] s3]; simpl in *; [|exact Hset].
    etransitivity; [exact Hset|].
    apply (keeps_apply (text_kept h)).
    apply keeps_bind; [typeclasses eauto | keeps_step | intros f].
    apply classList_add_at_text. }
  rewrite Ht. exact HP.
Qed.

(** "bob" logs in on the sample page of the original revision: the banner
    greets Zakir. *)
Lemma login_greets_in_banner_witness :
  let s := Sample.booted true Original "bob" in
  let doc := Sample.page true in
  (elem (heap s 1%nat) = AElem 2%nat ∧
   elem_query doc 2%nat "#username" = Some 4%nat ∧
   value (dom s 4%nat) ≠ "" ∧
   componentNotifier (heap s 1%nat) = Some UiSubscriber ∧
   Obj.get (Some 5500) (components s) = Some (Holds 2%nat) ∧
   comp_role (heap s 2%nat) = RBanner ∧
   headlineElem (heap s 2%nat) = Some 7%nat ∧
   componentId (heap s 2%nat) ≠ componentId (heap s 1%nat) ∧
   welcomeElem (heap s 1%nat) ≠ Some 7%nat ∧
   fst (uiSubscriber_broadcast (componentId (heap s 1%nat))
          (login_payload Original (value (dom s 4%nat))) s) = Normal tt) ∧
  textContent (dom (snd (loginComponent_login doc Original 1%nat s)) 7%nat)
  = "Hello Zakir".
Proof.
  assert (value (dom (Sample.booted true Original "bob") 4%nat) ≠ "") as Hu.
  { vm_compute. discriminate. }
  assert (componentId (heap (Sample.booted true Original "bob") 2%nat) ≠
          componentId (heap (Sample.booted true Original "bob") 1%nat)) as Hid.
  { vm_compute. discriminate. }
  assert (welcomeElem (heap (Sample.booted true Original "bob") 1%nat) ≠
          Some 7%nat) as Hw.
  { vm_compute. discriminate. }
  split.
  - repeat (split; [first [assumption | vm_compute; reflexivity]|]).
    vm_compute. reflexivity.
  - apply (login_greets_in_banner (Sample.page true) Original
             (Sample.booted true Original "bob") 1%nat 2%nat 2%nat 4%nat
             7%nat (Some 5500));
      first [assumption | vm_compute; reflexivity].
Defined.

(** X26.  A click on the logout link reaches the banner: if the broadcast
    returns, the headline of a registered banner reads "Hello world!"
    when the click listener ends. *)
Theorem logout_resets_banner (s : state) (cn cb : cref) (h : eref)
    (k : key) :
  componentNotifier (heap s cn) = Some UiSubscriber →
  Obj.get k (components s) = Some (Holds cb) →
  comp_role (heap s cb) = RBanner →
  headlineElem (heap s cb) = Some h →
  componentId (heap s cb) ≠ componentId (heap s cn) →
  single_part s →
  fst (uiSubscriber_broadcast (componentId (heap s cn)) logout_payload s)
  = Normal tt →
  textContent (dom (snd (navComponent_onClick cn s)) h) = "Hello world!".
Proof.
  intros Hn Hg Hrole Hh Hid Hsp Hdone.
  set (sid := componentId (heap s cn)) in *.
  set (fs := [("loggingOut", PBool true)]).
  change logout_payload with (DObj fs) in *.
  change "Hello world!" with (greeting fs).
  unfold navComponent_onClick.
  rewrite (bind_normal (field cn componentNotifier) _ s _ s eq_refl), Hn.
  rewrite (bind_normal (deref (Some UiSubscriber)) _ s _ s eq_refl).
  rewrite (bind_normal (field cn componentId) _ s _ s eq_refl). fold sid.
  destruct (uiSubscriber_broadcast sid (DObj fs) s) as [[[]|e] s1] eqn:Eb;
    [|discriminate].
  destruct (broadcast_reach sid (DObj fs) s k cb
              (λ s1, textContent (dom s1 h) = greeting fs) s1)
    as [HP _]; auto.
  { intros s2 s3 ((_ & Hh2 & _) & _) El. simpl in Hh2.
    rewrite (banner_listen_run cb fs h) in El; simpl; rewrite ?Hh2; auto.
    inversion El. simpl. now rewrite fn_lookup_insert. }
  { intros c' s2 s3 ((_ & Hh2 & _) & _) HP El. simpl in Hh2.
    apply (listen_keeps_greeting c' fs h (add_invoked (c', DObj fs) s2) s3);
      [|exact El|exact HP].
    intros _ Hw. simpl in Hw. rewrite Hh2 in Hw.
    specialize (Hsp c' cb h PWelcome PHeadline Hw Hh). discriminate. }
  rewrite (bind_normal _ _ _ _ _ Eb).
  unfold navComponent_hideLogoutLink.
  match goal with |- textContent (dom (snd (?m s1)) h) = _ =>
    assert (text_kept h s1 (snd (m s1))) as (_ & Ht)
  end.
  { apply keeps_apply.
    apply keeps_bind; [typeclasses eauto | keeps_step | intros l].
    apply classList_add_at_text. }
  rewrite Ht. exact HP.
Qed.

(** The logout link of the sample page is clicked. *)
Lemma logout_resets_banner_witness :
  let s := Sample.booted true Hardened "bob" in
  (componentNotifier (heap s 0%nat) = Some UiSubscriber ∧
   Obj.get (Some 5500) (components s) = Some (Holds 2%nat) ∧
   comp_role (heap s 2%nat) = RBanner ∧
   headlineElem (heap s 2%nat) = Some 7%nat ∧
   componentId (heap s 2%nat) ≠ componentId (heap s 0%nat) ∧
   single_part s ∧
   fst (uiSubscriber_broadcast (componentId (heap s 0%nat)) logout_payload s)
   = Normal tt) ∧
  textContent (dom (snd (navComponent_onClick 0%nat s)) 7%nat)
  = "Hello world!".
Proof.
  assert (componentId (heap (Sample.booted true Hardened "bob") 2%nat) ≠
          componentId (heap (Sample.booted true Hardened "bob") 0%nat)) as Hid.
  { vm_compute. discriminate. }
  split.
  - repeat (split; [first [exact Hid | apply sample_single_part
                          | vm_compute; reflexivity]|]).
    vm_compute. reflexivity.
  - apply (logout_resets_banner (Sample.booted true Hardened "bob")
             0%nat 2%nat 7%nat (Some 5500));
      first [exact Hid | apply sample_single_part | vm_compute; reflexivity].
Defined.

(** ** What the content fetch writes *)

(** X27.  Whatever the fetch brings, [loadContent] writes nothing but text:
    the classes and the values of all elements, the console, the registry,
    the component objects and the logs stay as they are, and among the
    elements that a component has bound only the banner's headline and
    content can get another text. *)
Theorem loadContent_writes_text_only (c : cref)
    (f : Fetch.settled Fetch.response) (s : state) :
  let s' := snd (bannerComponent_loadContent c f s) in
  same_shell s s' ∧ console s' = console s ∧
  (∀ e, classList (dom s' e) = classList (dom s e) ∧
        value (dom s' e) = value (dom s e)) ∧
  (∀ c' e p, plays (heap s c') e p →
        headlineElem (heap s c) ≠ Some e → contentElem (heap s c) ≠ Some e →
        textContent (dom s' e) = textContent (dom s e)).
Proof.
  cbv zeta. unfold bannerComponent_loadContent.
  destruct (Fetch.result f) as [d|x]; [|repeat split].
  unfold Fetch.populate, bind, field, gets, prop. simpl.
  destruct (get_field d "headline") as [x|p]; [repeat split|]. simpl.
  destruct (headlineElem (heap s c)) as [h|]; [|repeat split]. simpl.
  destruct (contentElem (heap s c)) as [ct|];
    destruct (get_field d "content") as [x|q]; simpl;
    (split; [repeat split|]); (split; [reflexivity|]);
    (split; [intros e; simpl; unfold insert, fn_insert;
             repeat case_decide; subst; split; reflexivity|]);
    intros c' e p' _ Hh Hc; simpl; unfold insert, fn_insert;
    repeat case_decide; subst; congruence.
Qed.



(** X29.  An ok response whose body is an object sets both texts from its
    fields [headline] and [content] whatever they hold: a string as it
    is, a boolean by its name, and the empty string for [null], for
    [undefined] and for a field the object lacks. *)
Theorem loadContent_any_fields (s : state) (c : cref) (eh ec : eref)
    (res : Fetch.response) (fs : list (string * prim)) :
  headlineElem (heap s c) = Some eh →
  contentElem (heap s c) = Some ec →
  eh ≠ ec →
  Fetch.ok res = true →
  Fetch.json res = Fetch.Fulfilled (DObj fs) →
  let s' := snd (bannerComponent_loadContent c (Fetch.Fulfilled res) s) in
  fst (bannerComponent_loadContent c (Fetch.Fulfilled res) s)
  = Fetch.Fulfilled tt ∧
  textContent (dom s' eh) = to_dom_string (lookup_field "headline" fs) ∧
  textContent (dom s' ec) = to_dom_string (lookup_field "content" fs) ∧
  (lookup_field "headline" fs = PUndefined → textContent (dom s' eh) = "").
Proof.
  intros Hh Hc Hne Hok Hjson. cbv zeta.
  unfold bannerComponent_loadContent, Fetch.result. rewrite Hok, Hjson.
  unfold Fetch.populate, bind, field, gets, prop, get_field. simpl.
  rewrite Hh. simpl. rewrite Hc. simpl.
  split; [reflexivity|].
  rewrite fn_lookup_insert_ne by congruence. rewrite !fn_lookup_insert.
  simpl. split; [reflexivity|]. split; [reflexivity|]. now intros ->.
Qed.

(** The banner of the sample page receives a body without [content]. *)
Lemma loadContent_any_fields_witness :
  let s := Sample.booted true Hardened "bob" in
  let res := Sample.headline_only in
  let fs := [("headline", PStr "News")] in
  let s' := snd (bannerComponent_loadContent 2%nat (Fetch.Fulfilled res) s) in
  (headlineElem (heap s 2%nat) = Some 7%nat ∧
   contentElem (heap s 2%nat) = Some 8%nat ∧
   7%nat ≠ 8%nat ∧
   Fetch.ok res = true ∧
   Fetch.json res = Fetch.Fulfilled (DObj fs)) ∧
  fst (bannerComponent_loadContent 2%nat (Fetch.Fulfilled res) s)
  = Fetch.Fulfilled tt ∧
  textContent (dom s' 7%nat) = to_dom_string (lookup_field "headline" fs) ∧
  textContent (dom s' 8%nat) = to_dom_string (lookup_field "content" fs) ∧
  (lookup_field "headline" fs = PUndefined → textContent (dom s' 7%nat) = "").
Proof.
  split.
  - repeat (split; [first [discriminate | vm_compute; reflexivity]|]).
    vm_compute. reflexivity.
  - apply (loadContent_any_fields (Sample.booted true Hardened "bob") 2%nat
             7%nat 8%nat Sample.headline_only [("headline", PStr "News")]);
      first [discriminate | vm_compute; reflexivity].
Defined.

(** X30.  The two texts are not set together: a banner without a content
    element gets its headline overwritten by an ok response, and only
    then does the callback throw. *)
Theorem loadContent_without_content_element (s : state) (c : cref)
    (eh : eref) (res : Fetch.response) (fs : list (string * prim)) :
  headlineElem (heap s c) = Some eh →
  contentElem (heap s c) = None →
  Fetch.ok res = true →
  Fetch.json res = Fetch.Fulfilled (DObj fs) →
  let s' := snd (bannerComponent_loadContent c (Fetch.Fulfilled res) s) in
  fst (bannerComponent_loadContent c (Fetch.Fulfilled res) s)
  = Fetch.Rejected TypeError ∧
  textContent (dom s' eh) = to_dom_string (lookup_field "headline" fs).
Proof.
  intros Hh Hc Hok Hjson. cbv zeta.
  unfold bannerComponent_loadContent, Fetch.result. rewrite Hok, Hjson.
  unfold Fetch.populate, bind, field, gets, prop, get_field. simpl.
  rewrite Hh. simpl. rewrite Hc. simpl.
  split; [reflexivity|]. now rewrite fn_lookup_insert.
Qed.

(** The banner of the sample page has lost its content element. *)
Lemma loadContent_without_content_element_witness :
  let s := snd (update_comp 2%nat (set_contentElem None)
                  (Sample.booted true Hardened "bob")) in
  let fs := [("headline", PStr "News"); ("content", PStr "Read on")] in
  let s' := snd (bannerComponent_loadContent 2%nat
                   (Fetch.Fulfilled Sample.post) s) in
  (headlineElem (heap s 2%nat) = Some 7%nat ∧
   contentElem (heap s 2%nat) = None ∧
   Fetch.ok Sample.post = true ∧
   Fetch.json Sample.post = Fetch.Fulfilled (DObj fs)) ∧
  fst (bannerComponent_loadContent 2%nat (Fetch.Fulfilled Sample.post) s)
  = Fetch.Rejected TypeError ∧
  textContent (dom s' 7%nat) = to_dom_string (lookup_field "headline" fs).
Proof.
  split.
  - repeat (split; [vm_compute; reflexivity|]). vm_compute. reflexivity.
  - apply (loadContent_without_content_element
             (snd (update_comp 2%nat (set_contentElem None)
                     (Sample.booted true Hardened "bob")))
             2%nat 7%nat Sample.post
             [("headline", PStr "News"); ("content", PStr "Read on")]);
      vm_compute; reflexivity.
Defined.
